(** * srclib [src store] commands: a shallow embedding of store_cmds.go

    The development follows the Go file top to bottom: backend selection
    ([StoreCmd.store]), the query commands and their filter builders, the
    index pipeline ([doStoreIndexesCmd]) with its producer/consumer
    hand-shake, and the import command.  Everything that store_cmds.go
    imports from other packages (net/url, the store library, the build
    planner, formatting helpers) is collected in the class [External]. *)

From Stdlib Require Import String Ascii ZArith NArith Lia Bool List DecimalString.
From Stdlib Require Import DecimalNat DecimalFacts.
From stdpp Require Import base gmap strings list relations.

Local Open Scope Z_scope.

(** ** Go string helpers (package strings) *)

(** [strings.HasSuffix]: len(s) >= len(suffix) && s[len(s)-len(suffix):] == suffix *)
Definition HasSuffix (s suffix : string) : bool :=
  (String.length suffix <=? String.length s)%nat
  && String.eqb
       (String.substring (String.length s - String.length suffix)
                         (String.length suffix) s)
       suffix.

(** [strings.HasPrefix]: len(s) >= len(prefix) && s[:len(prefix)] == prefix *)
Definition HasPrefix (s prefix : string) : bool :=
  (String.length prefix <=? String.length s)%nat
  && String.eqb (String.substring 0 (String.length prefix) s) prefix.

(** [strings.Contains]: some suffix of [s] starts with [substr]. *)
Fixpoint Contains (s substr : string) : bool :=
  HasPrefix s substr
  || match s with
     | EmptyString => false
     | String _ s' => Contains s' substr
     end.

(** Go's [s != ""]. *)
Definition nonempty (s : string) : bool :=
  match s with EmptyString => false | String _ _ => true end.

(** [%d] of a non-negative integer. *)
Definition itoa (n : nat) : string := NilZero.string_of_uint (Nat.to_uint n).

(** ** Data model (packages unit, graph, store as used by this file) *)

Module ID2.
Record t := mk { Type_ : string; Name : string }.
End ID2.

Module SourceUnit.
Record t := mk { Name : string; Type_ : string; Files : list string }.
End SourceUnit.

Module DefDoc.
Record t := mk { Format : string; Data : string }.
End DefDoc.

Module Doc.
Record t := mk { Path : string; Format : string; Data : string }.
End Doc.

Module Def.
Record t := mk {
  Path : string; Name : string; Kind : string;
  DefStart : N; DefEnd : N; File : string;
  Exported : bool; Local_ : bool; Data : string;
  Docs : list DefDoc.t }.
End Def.

Module RefDefKey.
Record t := mk { DefRepo : string; DefUnitType : string;
                 DefUnit : string; DefPath : string }.
End RefDefKey.

Module Ref.
Record t := mk {
  DefRepo : string; DefUnitType : string; DefUnit : string; DefPath : string;
  Def : bool; Start : N; End_ : N; File : string }.
End Ref.

Module Output.
(** graph.Output.  After JSON decoding every element of [Defs] is a
    freshly allocated [*graph.Def], so the slice of pointers is a list
    of values: no two entries alias. *)
Record t := mk { Defs : list Def.t; Refs : list Ref.t;
                 Docs : list Doc.t; Anns : list string }.
End Output.

Module Version.
Record t := mk { Repo : string; CommitID : string }.
End Version.

(** A [*unit.ID2] held by an index status: the address and the value it
    points to.  Go compares two such pointers by address only. *)
Module UnitPtr.
Record t := mk { addr : positive; val : ID2.t }.
End UnitPtr.

Module IndexStatus.
Record t := mk {
  Repo : string; CommitID : string; Unit : option UnitPtr.t;
  Name : string; Type_ : string; Stale : bool; Size : Z;
  Error : string; BuildError : string; BuildDuration : Z }.
End IndexStatus.

Module IndexCriteria.
Record t := mk {
  Repo : string; CommitID : string; Unit : option ID2.t;
  Name : string; Type_ : string; Stale : option bool }.
End IndexCriteria.

(** Filters of package store.  In Go [store.ByRepo] and friends return one
    value that serves as version, unit, def and ref filter; the sum type
    below keeps the constructors' names. *)
Inductive Filter :=
  | ByRepo (repo : string)
  | ByCommitID (commitID : string)
  | ByUnits (u : ID2.t)
  | ByFiles (file : string)
  | ByDefPath (p : string)
  | Limit (n : Z)
  | ByRefDef (k : RefDefKey.t)
  | RepoFilterFunc (f : string -> bool)
  | VersionFilterFunc (f : Version.t -> bool)
  | DefFilterFunc (f : Def.t -> bool)
  | RefFilterFunc (f : Ref.t -> bool).

(** ** Backend values *)

Module URL.
Record t := mk { Scheme : string; Host : string; Path : string }.
End URL.

(** The [rwvfs.FileSystem] chosen by [StoreCmd.store]. *)
Inductive FileSystem :=
  | S3 (u : URL.t)                (* s3vfs.S3(u, nil) *)
  | OS (root : string).           (* rwvfs.OS(root) *)

Module FSMultiRepoStoreConf.
Inductive RepoPaths := EvenlyDistributedRepoPaths.
Record t := mk { repoPaths : RepoPaths }.
End FSMultiRepoStoreConf.

(** What [store()] hands back as [interface{}]; [createParents] records
    whether [CreateParentDirs(true)] was called on the file system. *)
Inductive StoreValue :=
  | FSRepoStore (fs : FileSystem) (createParents : bool)
  | FSMultiRepoStore (walkable : FileSystem) (createParents : bool)
                     (conf : option FSMultiRepoStoreConf.t).

Definition backing (s : StoreValue) : FileSystem :=
  match s with
  | FSRepoStore fs _ => fs
  | FSMultiRepoStore fs _ _ => fs
  end.

(** The optional interfaces this file type-asserts the store against. *)
Inductive Capability :=
  | MultiRepoStore | RepoStore | TreeStore | UnitStore
  | RepoImporter | MultiRepoImporter.

(** ** Everything imported from other packages *)

Class External := {
  (** net/url: [url.Parse]; [None] is a parse error *)
  url_Parse : string -> option URL.t;
  (** fmt's [%q] *)
  quote : string -> string;
  (** [path.Clean] *)
  path_Clean : string -> string;
  (** does the file system have a [CreateParentDirs(bool)] method *)
  hasCreateParentDirs : FileSystem -> bool;
  (** json.Unmarshal of --config into struct{RepoPaths string} *)
  unmarshalConf : string -> string + string;
  (** [%T] of the store value and its method set *)
  typeName : StoreValue -> string;
  implements : Capability -> StoreValue -> bool;
  (** query methods of the store library *)
  store_Repos : StoreValue -> list Filter -> string + list string;
  store_Versions : StoreValue -> list Filter -> string + list Version.t;
  store_Units : StoreValue -> list Filter -> string + list SourceUnit.t;
  store_Defs : StoreValue -> list Filter -> string + list Def.t;
  store_Refs : StoreValue -> list Filter -> string + list Ref.t;
  (** rendering helpers *)
  (** the text [PrintJSON(v, prefix)] writes to stdout *)
  PrintJSON : forall A : Type, A -> string -> string;
  bytesString : Z -> string;
  durationString : Z -> string
}.

(** ** Command outcomes

    A command either returns an [error] (possibly nil) to the CLI driver or
    dies inside [log.Fatal], which exits the process on the spot. *)
Inductive Exit :=
  | Returned (err : option string)
  | FatalExit (msg : string)
  | Panicked.                     (* run-time panic (index out of range, division by zero) *)

(** A filter builder either yields its list or calls [log.Fatal]. *)
Inductive Built (A : Type) :=
  | Fatal (msg : string)
  | Ok (a : A).
Arguments Fatal {A} msg.
Arguments Ok {A} a.

Inductive Query :=
  | QRepos (fs : list Filter)
  | QVersions (fs : list Filter)
  | QUnits (fs : list Filter)
  | QDefs (fs : list Filter)
  | QRefs (fs : list Filter).

(** Observable effects of a query command, in program order. *)
Inductive Effect :=
  | EQuery (q : Query)
  | EPrint (s : string).

Record Run := mkRun { effects : list Effect; exit : Exit }.

(** ** StoreCmd *)

Module StoreCmd.
Record t := mk { Type_ : string; Root : string; Config : string }.
End StoreCmd.

Section Store.
Context `{External}.

(** Lines 140-147: parse Root as a URL, fall back to an OS file system. *)
Definition selectFS (root : string) : FileSystem :=
  match url_Parse root with
  | Some u => if HasSuffix (URL.Host u) "amazonaws.com" then S3 u else OS root
  | None => OS root
  end.

(** [StoreCmd.store] *)
Definition StoreCmd_store (c : StoreCmd.t) : string + StoreValue :=
  let fs := selectFS (StoreCmd.Root c) in
  let cp := hasCreateParentDirs fs in
  if String.eqb (StoreCmd.Type_ c) "RepoStore" then
    inr (FSRepoStore fs cp)
  else if String.eqb (StoreCmd.Type_ c) "MultiRepoStore" then
    if nonempty (StoreCmd.Config c) then
      match unmarshalConf (StoreCmd.Config c) with
      | inl err =>
          inl ("--config " +:+ quote (StoreCmd.Config c) +:+ ": " +:+ err)
      | inr repoPaths =>
          let conf :=
            if String.eqb repoPaths "EvenlyDistributedRepoPaths"
            then Some (FSMultiRepoStoreConf.mk
                         FSMultiRepoStoreConf.EvenlyDistributedRepoPaths)
            else None in
          inr (FSMultiRepoStore fs cp conf)
      end
    else inr (FSMultiRepoStore fs cp None)
  else
    inl ("unrecognized store --type value: " +:+ quote (StoreCmd.Type_ c)
         +:+ " (valid values are RepoStore, MultiRepoStore)").

(** fmt.Errorf("store (type %T) does not implement <what>", s) *)
Definition notImplemented (s : StoreValue) (what : string) : string :=
  "store (type " +:+ typeName s +:+ ") does not implement " +:+ what.
End Store.

(** ** Query commands: repos, versions, units, defs, refs *)

Definition nl : string := String (ascii_of_nat 10) EmptyString.
Definition tab : string := String (ascii_of_nat 9) EmptyString.

(** [if cond { fs = append(fs, f) }] contributes [when cond f]. *)
Definition when (cond : bool) (f : Filter) : list Filter :=
  if cond then [f] else [].

Module StoreReposCmd.
Record t := mk { IDContains : string }.
End StoreReposCmd.

Module StoreVersionsCmd.
Record t := mk { Repo : string; CommitIDPrefix : string }.
End StoreVersionsCmd.

Module StoreUnitsCmd.
Record t := mk { Type_ : string; Name : string; CommitID : string;
                 Repo : string; File : string }.
End StoreUnitsCmd.

Module StoreDefsCmd.
Record t := mk {
  Repo : string; Path : string; UnitType : string; Unit : string;
  File : string; FilePathPrefix : string; CommitID : string;
  NamePrefix : string; Limit : Z }.
End StoreDefsCmd.

Module StoreRefsCmd.
Record t := mk {
  Repo : string; UnitType : string; Unit : string; File : string;
  CommitID : string; Start : N; End_ : N;
  DefRepo : string; DefUnitType : string; DefUnit : string;
  DefPath : string }.
End StoreRefsCmd.

Definition msgUnitPair : string :=
  "must specify either both or neither of --unit-type and --unit (to filter by source unit)".
Definition msgTypeNamePair : string :=
  "must specify either both or neither of --type and --name (to filter by source unit)".
Definition msgDefTuple : string :=
  "must specify either all or neither of --def-repo, --def-unit-type, --def-unit, and --def-path (to filter by ref target def)".
Definition msgStale : string :=
  "must specify exactly one of --stale and --not-stale".

(** Exactly one of the two strings is set:
    [(a != "" && b == "") || (a == "" && b != "")]. *)
Definition oneOfPair (a b : string) : bool :=
  (nonempty a && negb (nonempty b)) || (negb (nonempty a) && nonempty b).

Section Queries.
Context `{External}.

Definition StoreReposCmd_filters (c : StoreReposCmd.t) : list Filter :=
  when (nonempty (StoreReposCmd.IDContains c))
       (RepoFilterFunc (fun repo => Contains repo (StoreReposCmd.IDContains c))).

Definition StoreVersionsCmd_filters (c : StoreVersionsCmd.t) : list Filter :=
  when (nonempty (StoreVersionsCmd.Repo c)) (ByRepo (StoreVersionsCmd.Repo c))
  ++ when (nonempty (StoreVersionsCmd.CommitIDPrefix c))
       (VersionFilterFunc (fun version =>
          HasPrefix (Version.CommitID version) (StoreVersionsCmd.CommitIDPrefix c))).

Definition StoreUnitsCmd_filters (c : StoreUnitsCmd.t) : Built (list Filter) :=
  let ty := StoreUnitsCmd.Type_ c in
  let name := StoreUnitsCmd.Name c in
  let fs := when (nonempty ty && nonempty name) (ByUnits (ID2.mk ty name)) in
  if oneOfPair ty name then Fatal msgTypeNamePair
  else Ok (fs
    ++ when (nonempty (StoreUnitsCmd.CommitID c)) (ByCommitID (StoreUnitsCmd.CommitID c))
    ++ when (nonempty (StoreUnitsCmd.Repo c)) (ByRepo (StoreUnitsCmd.Repo c))
    ++ when (nonempty (StoreUnitsCmd.File c)) (ByFiles (path_Clean (StoreUnitsCmd.File c)))).

Definition StoreDefsCmd_filters (c : StoreDefsCmd.t) : Built (list Filter) :=
  let ut := StoreDefsCmd.UnitType c in
  let u := StoreDefsCmd.Unit c in
  let fs := when (nonempty ut && nonempty u) (ByUnits (ID2.mk ut u)) in
  if oneOfPair ut u then Fatal msgUnitPair
  else Ok (fs
    ++ when (nonempty (StoreDefsCmd.CommitID c)) (ByCommitID (StoreDefsCmd.CommitID c))
    ++ when (nonempty (StoreDefsCmd.Repo c)) (ByRepo (StoreDefsCmd.Repo c))
    ++ when (nonempty (StoreDefsCmd.Path c)) (ByDefPath (StoreDefsCmd.Path c))
    ++ when (nonempty (StoreDefsCmd.File c)) (ByFiles (path_Clean (StoreDefsCmd.File c)))
    ++ when (nonempty (StoreDefsCmd.FilePathPrefix c))
         (ByFiles (path_Clean (StoreDefsCmd.FilePathPrefix c)))
    ++ when (nonempty (StoreDefsCmd.NamePrefix c))
         (DefFilterFunc (fun def => HasPrefix (Def.Name def) (StoreDefsCmd.NamePrefix c)))
    ++ when (negb (StoreDefsCmd.Limit c =? 0)) (Limit (StoreDefsCmd.Limit c))).

(** All four target components set / at least one set and at least one
    missing (lines 873 and 881). *)
Definition defTupleFull (c : StoreRefsCmd.t) : bool :=
  nonempty (StoreRefsCmd.DefRepo c) && nonempty (StoreRefsCmd.DefUnitType c)
  && nonempty (StoreRefsCmd.DefUnit c) && nonempty (StoreRefsCmd.DefPath c).

Definition defTuplePartial (c : StoreRefsCmd.t) : bool :=
  (nonempty (StoreRefsCmd.DefRepo c) || nonempty (StoreRefsCmd.DefUnitType c)
   || nonempty (StoreRefsCmd.DefUnit c) || nonempty (StoreRefsCmd.DefPath c))
  && (negb (nonempty (StoreRefsCmd.DefRepo c))
      || negb (nonempty (StoreRefsCmd.DefUnitType c))
      || negb (nonempty (StoreRefsCmd.DefUnit c))
      || negb (nonempty (StoreRefsCmd.DefPath c))).

Definition StoreRefsCmd_filters (c : StoreRefsCmd.t) : Built (list Filter) :=
  let ut := StoreRefsCmd.UnitType c in
  let u := StoreRefsCmd.Unit c in
  let fs := when (nonempty ut && nonempty u) (ByUnits (ID2.mk ut u)) in
  if oneOfPair ut u then Fatal msgUnitPair
  else
    let fs := fs
      ++ when (nonempty (StoreRefsCmd.CommitID c)) (ByCommitID (StoreRefsCmd.CommitID c))
      ++ when (nonempty (StoreRefsCmd.Repo c)) (ByRepo (StoreRefsCmd.Repo c))
      ++ when (nonempty (StoreRefsCmd.File c)) (ByFiles (path_Clean (StoreRefsCmd.File c)))
      ++ when (negb (StoreRefsCmd.Start c =? 0)%N)
           (RefFilterFunc (fun ref => (StoreRefsCmd.Start c <=? Ref.Start ref)%N))
      ++ when (negb (StoreRefsCmd.End_ c =? 0)%N)
           (RefFilterFunc (fun ref => (Ref.End_ ref <=? StoreRefsCmd.End_ c)%N))
      ++ when (defTupleFull c)
           (ByRefDef (RefDefKey.mk (StoreRefsCmd.DefRepo c) (StoreRefsCmd.DefUnitType c)
                                   (StoreRefsCmd.DefUnit c) (StoreRefsCmd.DefPath c))) in
    if defTuplePartial c then Fatal msgDefTuple else Ok fs.

(** The shape shared by the five [Execute] methods: build the store,
    type-assert the capability, build the filters, query, print. *)
Definition afterQuery {A} (q : Query) (r : string + A) (print : A -> list string) : Run :=
  match r with
  | inl err => mkRun [EQuery q] (Returned (Some err))
  | inr v => mkRun (EQuery q :: map EPrint (print v)) (Returned None)
  end.

Definition StoreReposCmd_Execute (storeCmd : StoreCmd.t) (c : StoreReposCmd.t) : Run :=
  match StoreCmd_store storeCmd with
  | inl err => mkRun [] (Returned (Some err))
  | inr s =>
      if implements MultiRepoStore s then
        let fs := StoreReposCmd_filters c in
        afterQuery (QRepos fs) (store_Repos s fs)
                   (map (fun repo => repo +:+ nl))
      else mkRun [] (Returned (Some (notImplemented s "listing repositories")))
  end.

Definition printVersion (v : Version.t) : string :=
  (if nonempty (Version.Repo v) then Version.Repo v +:+ tab else "")
  +:+ Version.CommitID v +:+ nl.

Definition StoreVersionsCmd_Execute (storeCmd : StoreCmd.t) (c : StoreVersionsCmd.t) : Run :=
  match StoreCmd_store storeCmd with
  | inl err => mkRun [] (Returned (Some err))
  | inr s =>
      if implements RepoStore s then
        let fs := StoreVersionsCmd_filters c in
        afterQuery (QVersions fs) (store_Versions s fs) (map printVersion)
      else mkRun [] (Returned (Some (notImplemented s "listing versions")))
  end.

Definition StoreUnitsCmd_Execute (storeCmd : StoreCmd.t) (c : StoreUnitsCmd.t) : Run :=
  match StoreCmd_store storeCmd with
  | inl err => mkRun [] (Returned (Some err))
  | inr s =>
      if implements TreeStore s then
        match StoreUnitsCmd_filters c with
        | Fatal msg => mkRun [] (FatalExit msg)
        | Ok fs => afterQuery (QUnits fs) (store_Units s fs)
                              (fun units => [PrintJSON _ units "  "])
        end
      else mkRun [] (Returned (Some (notImplemented s "listing source units")))
  end.

Definition StoreDefsCmd_Execute (storeCmd : StoreCmd.t) (c : StoreDefsCmd.t) : Run :=
  match StoreCmd_store storeCmd with
  | inl err => mkRun [] (Returned (Some err))
  | inr s =>
      if implements UnitStore s then
        match StoreDefsCmd_filters c with
        | Fatal msg => mkRun [] (FatalExit msg)
        | Ok fs => afterQuery (QDefs fs) (store_Defs s fs)
                              (fun defs => [PrintJSON _ defs "  "])
        end
      else mkRun [] (Returned (Some (notImplemented s "listing defs")))
  end.

Definition StoreRefsCmd_Execute (storeCmd : StoreCmd.t) (c : StoreRefsCmd.t) : Run :=
  match StoreCmd_store storeCmd with
  | inl err => mkRun [] (Returned (Some err))
  | inr s =>
      if implements UnitStore s then
        match StoreRefsCmd_filters c with
        | Fatal msg => mkRun [] (FatalExit msg)
        | Ok fs => afterQuery (QRefs fs) (store_Refs s fs)
                              (fun refs => [PrintJSON _ refs "  "])
        end
      else mkRun [] (Returned (Some (notImplemented s "listing refs")))
  end.
End Queries.

(** ** The index pipeline: [doStoreIndexesCmd] *)

Module storeIndexCriteria.
Record t := mk {
  Repo : string; CommitID : string; UnitType : string; Unit : string;
  Name : string; Type_ : string; Stale : bool; NotStale : bool }.
End storeIndexCriteria.

Module storeIndexOptions.
Record t := mk { Output : string }.
End storeIndexOptions.

(** [storeIndexCriteria.IndexCriteria] *)
Definition storeIndexCriteria_IndexCriteria (c : storeIndexCriteria.t)
  : Built IndexCriteria.t :=
  if storeIndexCriteria.Stale c && storeIndexCriteria.NotStale c then Fatal msgStale
  else
    let stale1 := if storeIndexCriteria.Stale c then Some true else None in
    let stale2 := if storeIndexCriteria.NotStale c then Some false else stale1 in
    let crit u := IndexCriteria.mk (storeIndexCriteria.Repo c)
                    (storeIndexCriteria.CommitID c) u
                    (storeIndexCriteria.Name c) (storeIndexCriteria.Type_ c) stale2 in
    if nonempty (storeIndexCriteria.UnitType c) || nonempty (storeIndexCriteria.Unit c) then
      if negb (nonempty (storeIndexCriteria.UnitType c))
         || negb (nonempty (storeIndexCriteria.Unit c))
      then Fatal msgUnitPair
      else Ok (crit (Some (ID2.mk (storeIndexCriteria.UnitType c)
                                  (storeIndexCriteria.Unit c))))
    else Ok (crit None).

(** Output of the renderer, one entry per [Print] group, tagged with the
    role the line plays in the report. *)
Inductive LineKind := KBlank | KRepo | KCommit | KUnit | KDetail | KJSON.

Record Line := mkLine { kind : LineKind; text : string }.

Global Instance LineKind_eq_dec : EqDecision LineKind.
Proof. solve_decision. Defined.

(** The consumer's loop variables [lastRepo], [lastCommitID], [lastUnit]. *)
Record Last := mkLast {
  lastRepo : string; lastCommitID : string; lastUnit : option UnitPtr.t }.

Definition noLast : Last := mkLast "" "" None.

(** [lastRepo = x.Repo; lastCommitID = x.CommitID; lastUnit = x.Unit] *)
Definition lastOf (x : IndexStatus.t) : Last :=
  mkLast (IndexStatus.Repo x) (IndexStatus.CommitID x) (IndexStatus.Unit x).

(** [p == q] on [*unit.ID2]: same address, or both nil. *)
Definition ptrEq (p q : option UnitPtr.t) : bool :=
  match p, q with
  | None, None => true
  | Some a, Some b => Pos.eqb (UnitPtr.addr a) (UnitPtr.addr b)
  | _, _ => false
  end.

Definition errorMsgIndexes : string :=
  nl +:+ "index listing or index building errors occurred (see above)".

Section Render.
Context `{External}.

Definition repoTab (isMultiRepo : bool) : string :=
  if isMultiRepo then tab else "".

(** Lines 539-546 *)
Definition repoLines (isMultiRepo : bool) (l : Last) (x : IndexStatus.t) : list Line :=
  if isMultiRepo && negb (String.eqb (IndexStatus.Repo x) (lastRepo l)) then
    (if nonempty (lastRepo l) then [mkLine KBlank nl] else [])
    ++ [mkLine KRepo (IndexStatus.Repo x +:+ nl)]
  else [].

(** Lines 547-549 *)
Definition commitLines (isMultiRepo : bool) (l : Last) (x : IndexStatus.t) : list Line :=
  if negb (String.eqb (IndexStatus.CommitID x) (lastCommitID l)) then
    [mkLine KCommit (repoTab isMultiRepo +:+ IndexStatus.CommitID x +:+ nl)]
  else [].

(** Lines 550-555 *)
Definition unitLines (isMultiRepo : bool) (l : Last) (x : IndexStatus.t) : list Line :=
  match IndexStatus.Unit x with
  | Some u =>
      if negb (ptrEq (IndexStatus.Unit x) (lastUnit l)) then
        (if String.eqb (IndexStatus.Repo x) (lastRepo l)
            && String.eqb (IndexStatus.CommitID x) (lastCommitID l)
         then [mkLine KBlank nl] else [])
        ++ [mkLine KUnit (repoTab isMultiRepo +:+ tab
                          +:+ ID2.Name (UnitPtr.val u) +:+ " "
                          +:+ ID2.Type_ (UnitPtr.val u) +:+ nl)]
      else []
  | None => []
  end.

(** Lines 557-580; [uint64(x.Size)] wraps a negative size. *)
Definition detailLine (isMultiRepo : bool) (x : IndexStatus.t) : Line :=
  mkLine KDetail
    ((match IndexStatus.Unit x with Some _ => tab | None => "" end)
     +:+ repoTab isMultiRepo +:+ tab
     +:+ IndexStatus.Name x +:+ " (" +:+ IndexStatus.Type_ x +:+ ") "
     +:+ (if IndexStatus.Stale x then "STALE " else "")
     +:+ (if IndexStatus.Size x =? 0 then ""
          else bytesString (IndexStatus.Size x mod 2 ^ 64) +:+ " ")
     +:+ (if nonempty (IndexStatus.Error x)
          then "(ERROR: " +:+ IndexStatus.Error x +:+ ") " else "")
     +:+ (if nonempty (IndexStatus.BuildError x)
          then "(BUILD ERROR: " +:+ IndexStatus.BuildError x +:+ ") " else "")
     +:+ (if IndexStatus.BuildDuration x =? 0 then ""
          else "- build took " +:+ durationString (IndexStatus.BuildDuration x) +:+ " ")
     +:+ nl).

(** One iteration of the text consumer's loop body, as printed text. *)
Definition renderText (isMultiRepo : bool) (l : Last) (x : IndexStatus.t) : list Line :=
  repoLines isMultiRepo l x ++ commitLines isMultiRepo l x
  ++ unitLines isMultiRepo l x ++ [detailLine isMultiRepo x].

(** Lines 569-576: what the text consumer stores into [hasError]. *)
Definition carriesError (x : IndexStatus.t) : bool :=
  nonempty (IndexStatus.Error x) || nonempty (IndexStatus.BuildError x).

(** One iteration of the json consumer's loop body. *)
Definition renderJSON (x : IndexStatus.t) : list Line :=
  [mkLine KJSON (PrintJSON _ x "")].
End Render.

(** *** The two goroutines as a transition system

    [f] is the backend call ([store.Indexes] or [store.BuildIndexes]).  All
    this file can observe of it is the sequence of statuses it sends on the
    channel and the error it returns, so a call is a [Script]. *)
Record Script := mkScript { emits : list IndexStatus.t; ferr : option string }.

Inductive Mode :=
  | JSON
  | Text (isMultiRepo : bool).

(** Program counter of the calling goroutine. *)
Inductive Main :=
  | MCallF (rest : list IndexStatus.t) (ret : option string)
      (* inside f: statuses still to send, then f's error *)
  | MDeferred (r : option string)
      (* return value fixed (lines 597-603); deferred function pending *)
  | MWaitDone (r : option string)
      (* close(indexChan) done; blocked in <-done *)
  | MReturned (r : option string).

(** Program counter of the consumer goroutine. *)
Inductive Consumer :=
  | CNone                         (* never started *)
  | CRecv                         (* blocked in range indexChan *)
  | CProc (x : IndexStatus.t)     (* received x, loop body not yet run *)
  | CSendDone                     (* blocked in done <- struct{}{} *)
  | CExit.

Record PState := mkPState {
  main : Main;
  cons : Consumer;
  mode : Mode;
  closed : bool;                      (* indexChan closed *)
  hasError : bool;
  last : Last;
  sent : list IndexStatus.t;          (* statuses f has handed to the channel *)
  rendered : list IndexStatus.t;      (* statuses whose loop body has run *)
  out : list Line                     (* stdout *)
}.

(** Lines 597-603, executed when f returns. *)
Definition returnValue (err : option string) (hasError : bool) : option string :=
  match err with
  | Some e => Some e
  | None => if hasError then Some errorMsgIndexes else None
  end.

Section Pipeline.
Context `{External}.

(** Steps of the calling goroutine that need no partner. *)
Definition mainSteps (st : PState) : list PState :=
  match main st with
  | MCallF [] ret =>
      [mkPState (MDeferred (returnValue ret (hasError st))) (cons st) (mode st)
                (closed st) (hasError st) (last st) (sent st) (rendered st) (out st)]
  | MDeferred r =>
      [mkPState (MWaitDone r) (cons st) (mode st)
                true (hasError st) (last st) (sent st) (rendered st) (out st)]
  | _ => []
  end.

(** The consumer's loop body on [x]. *)
Definition consume (st : PState) (x : IndexStatus.t) : PState :=
  match mode st with
  | JSON =>
      mkPState (main st) CRecv (mode st) (closed st) (hasError st) (last st)
               (sent st) (rendered st ++ [x]) (out st ++ renderJSON x)
  | Text isMultiRepo =>
      mkPState (main st) CRecv (mode st) (closed st)
               (hasError st || carriesError x) (lastOf x)
               (sent st) (rendered st ++ [x])
               (out st ++ renderText isMultiRepo (last st) x)
  end.

(** Steps of the consumer that need no partner. *)
Definition consSteps (st : PState) : list PState :=
  match cons st with
  | CProc x => [consume st x]
  | CRecv =>
      if closed st then
        [mkPState (main st) CSendDone (mode st) (closed st) (hasError st)
                  (last st) (sent st) (rendered st) (out st)]
      else []
  | _ => []
  end.

(** Rendezvous on the two unbuffered channels. *)
Definition syncSteps (st : PState) : list PState :=
  match main st, cons st with
  | MCallF (x :: rest) ret, CRecv =>
      if closed st then []
      else [mkPState (MCallF rest ret) (CProc x) (mode st) (closed st)
                     (hasError st) (last st) (sent st ++ [x]) (rendered st) (out st)]
  | MWaitDone r, CSendDone =>
      [mkPState (MReturned r) CExit (mode st) (closed st) (hasError st)
                (last st) (sent st) (rendered st) (out st)]
  | _, _ => []
  end.

Definition successors (st : PState) : list PState :=
  syncSteps st ++ mainSteps st ++ consSteps st.

Definition step (st st' : PState) : Prop := st' ∈ successors st.

Definition returned (st : PState) : option (option string) :=
  match main st with MReturned r => Some r | _ => None end.

(** State right after line 592 is reached: both channels made, the
    consumer goroutine started, f about to run. *)
Definition spawned (m : Mode) (sc : Script) : PState :=
  mkPState (MCallF (emits sc) (ferr sc)) CRecv m false false noLast [] [] [].

Definition failedEarly (err : string) : PState :=
  mkPState (MReturned (Some err)) CNone JSON false false noLast [] [] [].

(** [doStoreIndexesCmd] up to the point where the goroutines run. *)
Definition doStoreIndexesCmd (storeCmd : StoreCmd.t) (crit : IndexCriteria.t)
    (opt : storeIndexOptions.t)
    (f : StoreValue -> IndexCriteria.t -> Script) : PState :=
  match StoreCmd_store storeCmd with
  | inl err => failedEarly err
  | inr s =>
      if String.eqb (storeIndexOptions.Output opt) "json" then
        spawned JSON (f s crit)
      else if String.eqb (storeIndexOptions.Output opt) "text" then
        spawned (Text (implements MultiRepoStore s)) (f s crit)
      else
        failedEarly ("unexpected --output value: "
                     +:+ quote (storeIndexOptions.Output opt))
  end.

(** [StoreIndexesCmd.Execute] and [StoreIndexCmd.Execute]: the criteria
    are built (and may be fatal) before [doStoreIndexesCmd] is entered. *)
Definition StoreIndexCmd_Execute (storeCmd : StoreCmd.t)
    (c : storeIndexCriteria.t) (opt : storeIndexOptions.t)
    (f : StoreValue -> IndexCriteria.t -> Script) : Built PState :=
  match storeIndexCriteria_IndexCriteria c with
  | Fatal msg => Fatal msg
  | Ok crit => Ok (doStoreIndexesCmd storeCmd crit opt f)
  end.

(** A fixed schedule, for running the machine: at each tick take the
    successor with the given index. *)
Fixpoint runSchedule (sched : list nat) (st : PState) : option PState :=
  match sched with
  | [] => Some st
  | i :: sched' =>
      match successors st !! i with
      | Some st' => runSchedule sched' st'
      | None => None
      end
  end.

(** Scheduling potential: strictly decreases along every step. *)
Definition mainFuel (m : Main) : nat :=
  match m with
  | MCallF rest _ => 3 + 2 * length rest
  | MDeferred _ => 2
  | MWaitDone _ => 1
  | MReturned _ => 0
  end.

Definition consFuel (c : Consumer) : nat :=
  match c with
  | CProc _ => 3
  | CRecv => 2
  | CSendDone => 1
  | CExit | CNone => 0
  end.

Definition fuel (st : PState) : nat := mainFuel (main st) + consFuel (cons st).
End Pipeline.

(** ** The import command *)

Module StoreImportCmd.
Record t := mk {
  DryRun : bool;
  Sample : bool; SampleDefs : nat; SampleRefs : nat; SampleImportOnly : bool;
  Repo : string; Unit : string; UnitType : string; CommitID : string;
  RemoteBuildDataRepo : string; RemoteBuildData : bool }.
End StoreImportCmd.

Module GraphUnitRule.
(** [*grapher.GraphUnitRule]: the unit it graphs and its target file. *)
Record t := mk { Unit : SourceUnit.t; Target : string }.
End GraphUnitRule.

(** A rule of the makefile, as far as [Execute] inspects it: the outcome of
    the type assertion to [ruleForSourceUnit] (with the unit the method
    returns) and of the type switch on [*grapher.GraphUnitRule]. *)
Module Rule.
Record t := mk {
  SourceUnit : option SourceUnit.t;
  Graph : option GraphUnitRule.t }.
End Rule.

(** One call of an importer's [Import] method. *)
Inductive ImportCall :=
  | RepoImport (commitID : string) (u : SourceUnit.t) (data : Output.t)
  | MultiRepoImport (repo commitID : string) (u : SourceUnit.t) (data : Output.t).

(** The [log.Printf] call sites of the import command with their arguments
    (elapsed times left out). *)
Inductive LogMsg :=
  | LogImportingBuildData (repo commitID label : string)
  | LogImportingGraphData (defs refs docs anns : nat) (unitType unitName : string)
  | LogImportCompleted
  | LogMakingSample (defs refs : nat)
  | LogEncodedSize (size : Z)
  | LogImportingSample (defs refs : nat) (u : ID2.t) (commitID : string)
  | LogSampleRepo (repo : string)
  | LogImportTook
  | LogRunningCommands.

(** What an import run does to the outside world, in program order. *)
Inductive ImportEvent :=
  | Logged (m : LogMsg)
  | ReadFile (target : string)       (* readJSONFileFS on the build data *)
  | Imported (call : ImportCall)     (* the importer capability invoked *)
  | RanCmd (args : list string).     (* exec.Command(...).Run() *)

Record ImportRun := mkImportRun { trace : list ImportEvent; result : Exit }.

(** The build-data side of an import: local repository, build-data file
    system, tree configuration, planner, importer results. *)
Class ImportWorld := {
  BuildDataFS : Type;
  TreeConfig : Type;
  openLocalRepo : string + string;                 (* error or VCSType *)
  getBuildDataFS : bool -> string -> string -> string + (BuildDataFS * string);
  config_ReadCached : BuildDataFS -> string + TreeConfig;
  plan_CreateMakefile : string -> TreeConfig -> string + list Rule.t;
  readJSONFileFS : BuildDataFS -> string -> string + Output.t;
  GlobalOpt_Verbose : bool;
  (** the error an importer returns, given the calls made before *)
  imp_Import : StoreValue -> list ImportCall -> ImportCall -> option string;
  (** sample mode only *)
  mapRange : gset string -> list string;           (* order of [range files] *)
  Codec_Encode : Output.t -> string + Z;
  exec_Run : list string -> option string
}.

(** The imports among the events of a trace. *)
Definition importsOf (tr : list ImportEvent) : list ImportCall :=
  omap (fun e => match e with Imported c => Some c | _ => None end) tr.

Definition readsOf (tr : list ImportEvent) : list string :=
  omap (fun e => match e with ReadFile t => Some t | _ => None end) tr.

Definition logsOf (tr : list ImportEvent) : list LogMsg :=
  omap (fun e => match e with Logged m => Some m | _ => None end) tr.

(** Lines 269-272: [docsByPath[doc.Path] = doc] for each doc in order. *)
Definition docsByPath (docs : list Doc.t) : gmap string Doc.t :=
  foldl (fun m doc => <[Doc.Path doc := doc]> m) ∅ docs.

(** Lines 274-276 for one def. *)
Definition attachDoc (m : gmap string Doc.t) (def : Def.t) : Def.t :=
  match m !! Def.Path def with
  | Some doc =>
      Def.mk (Def.Path def) (Def.Name def) (Def.Kind def) (Def.DefStart def)
             (Def.DefEnd def) (Def.File def) (Def.Exported def) (Def.Local_ def)
             (Def.Data def)
             (Def.Docs def ++ [DefDoc.mk (Doc.Format doc) (Doc.Data doc)])
  | None => def
  end.

(** Lines 268-277: "Transfer docs to [def].Docs". *)
Definition transferDocs (data : Output.t) : Output.t :=
  Output.mk (map (attachDoc (docsByPath (Output.Docs data))) (Output.Defs data))
            (Output.Refs data) (Output.Docs data) (Output.Anns data).

(** Lines 239-253: is the rule passed over by the --unit/--unit-type filter? *)
Definition skipRule (c : StoreImportCmd.t) (rule : Rule.t) : bool :=
  if nonempty (StoreImportCmd.Unit c) || nonempty (StoreImportCmd.UnitType c) then
    match Rule.SourceUnit rule with
    | Some u =>
        (nonempty (StoreImportCmd.Unit c)
         && negb (String.eqb (SourceUnit.Name u) (StoreImportCmd.Unit c)))
        || (nonempty (StoreImportCmd.UnitType c)
            && negb (String.eqb (SourceUnit.Type_ u) (StoreImportCmd.UnitType c)))
    | None => true
    end
  else false.

(** Import code runs in a small monad: the trace of events so far is
    threaded through, and [return err], [log.Fatal] and panics leave early. *)
Definition M (A : Type) : Type := list ImportEvent -> list ImportEvent * (Exit + A).

Global Instance M_ret : MRet M := fun A a tr => (tr, inr a).
Global Instance M_bind : MBind M := fun A B k m tr =>
  match m tr with
  | (tr', inl e) => (tr', inl e)
  | (tr', inr a) => k a tr'
  end.

Definition emit (e : ImportEvent) : M unit := fun tr => (tr ++ [e], inr tt).
Definition leave {A} (e : Exit) : M A := fun tr => (tr, inl e).
Definition getTrace : M (list ImportEvent) := fun tr => (tr, inr tr).

(** [v, err := call(); if err != nil { return err }] *)
Definition try {A} (r : string + A) : M A :=
  match r with
  | inl err => leave (Returned (Some err))
  | inr v => mret v
  end.

(** [if err := call(); err != nil { return err }] *)
Definition check (r : option string) : M unit :=
  match r with
  | Some err => leave (Returned (Some err))
  | None => mret tt
  end.

(** [xs[i]] with Go's bounds check. *)
Definition index {A} (xs : list A) (i : nat) : M A :=
  match xs !! i with
  | Some x => mret x
  | None => leave Panicked
  end.

Definition runM (m : M unit) : ImportRun :=
  match m [] with
  | (tr, inl e) => mkImportRun tr e
  | (tr, inr _) => mkImportRun tr (Returned None)
  end.

(** *** Sample data (lines 300-364) *)

Definition dataString : string :=
  String (ascii_of_nat 34) ("abcdabcdabcdabcdabcdcdabcdabcdabcdabcdabcdabcdabcdabcdcdabcdabcdabcdabcdabcdabcdabcdabcdcdabcdabcdabcdabcdabcdabcdabcdabcdcdabcdabcdabcdabcdabcdabcdabcdabcdcdabcdabcdabcdabcdabcdabcdabcdabcdcdabcdabcdabcdabcdabcdabcdabcdabcdcdabcdabcdabcd"
    +:+ String (ascii_of_nat 34) EmptyString).

Definition sampleFile (a b c d : nat) : string :=
  "dir" +:+ itoa a +:+ "/subdir" +:+ itoa b +:+ "/subsubdir" +:+ itoa c
  +:+ "/file-" +:+ itoa d +:+ ".foo".

Definition sampleDef (i : nat) : Def.t :=
  Def.mk ("def-path-" +:+ itoa i) ("def-name-" +:+ itoa i) "mykind"
         (N.of_nat ((i mod 53) * 37)) (N.of_nat ((i mod 53) * 37 + i mod 20))
         (sampleFile (i mod 5) (i mod 3) (i mod 7) (i mod 11))
         (Nat.eqb (i mod 5) 0) (Nat.eqb (i mod 3) 0) dataString [].

Definition sampleRef (i : nat) : Ref.t :=
  let third := Nat.eqb (i mod 3) 0 in
  Ref.mk (if third && Nat.eqb (i mod 7) 0 then "def-repo-" +:+ itoa (i mod 13) else "")
         (if third then "def-unit-type-" +:+ itoa (i mod 3) else "")
         (if third then "def-unit-" +:+ itoa (i mod 17) else "")
         ("ref-path-" +:+ itoa i)
         (Nat.eqb (i mod 5) 0)
         (N.of_nat ((i mod 51) * 39)) (N.of_nat ((i mod 51) * 37 + i mod 18))
         (sampleFile (i mod 3) (i mod 5) (i mod 7) (i mod 11)).

(** The three goroutines write disjoint slots and are joined by the wait
    group, so the result is the two filled slices. *)
Definition makeGraphData (numDefs numRefs : nat) : Output.t :=
  Output.mk (map sampleDef (seq 0 numDefs)) (map sampleRef (seq 0 numRefs)) [] [].

Definition sampleCommitID : string := "ffffffffffffffffffffffffffffffffffffffff".

Section ImportCmd.
Context `{External} `{ImportWorld}.

(** Lines 279-290 and 393-406: the type switch over the importers.
    Yields the call to make, or the error of the default case. *)
Definition importerCall (s : StoreValue) (repo commitID : string)
    (u : SourceUnit.t) (data : Output.t) : string + ImportCall :=
  if implements RepoImporter s then inr (RepoImport commitID u data)
  else if implements MultiRepoImporter s then inr (MultiRepoImport repo commitID u data)
  else inl (notImplemented s "importing").

(** [imp.Import(...)] with its error check. *)
Definition doImport (s : StoreValue) (call : ImportCall) : M unit :=
  tr ← getTrace;
  emit (Imported call);;
  check (imp_Import s (importsOf tr) call).

(** The body of [for _, rule := range mf.Rules]; finishing normally is
    [continue] or falling off the end of the body. *)
Definition importRule (c : StoreImportCmd.t) (s : StoreValue) (bdfs : BuildDataFS)
    (rule : Rule.t) : M unit :=
  if skipRule c rule then mret tt
  else
    match Rule.Graph rule with
    | None => mret tt
    | Some g =>
        let u := GraphUnitRule.Unit g in
        emit (ReadFile (GraphUnitRule.Target g));;
        data ← try (readJSONFileFS bdfs (GraphUnitRule.Target g));
        (if StoreImportCmd.DryRun c || GlobalOpt_Verbose then
           emit (Logged (LogImportingGraphData
                           (length (Output.Defs data)) (length (Output.Refs data))
                           (length (Output.Docs data)) (length (Output.Anns data))
                           (SourceUnit.Type_ u) (SourceUnit.Name u)))
         else mret tt);;
        if StoreImportCmd.DryRun c then mret tt
        else
          call ← try (importerCall s (StoreImportCmd.Repo c)
                                   (StoreImportCmd.CommitID c) u (transferDocs data));
          doImport s call
    end.

Fixpoint importRules (c : StoreImportCmd.t) (s : StoreValue) (bdfs : BuildDataFS)
    (rules : list Rule.t) : M unit :=
  match rules with
  | [] => mret tt
  | rule :: rest => importRule c s bdfs rule;; importRules c s bdfs rest
  end.

(** [runCmd] of [sample]. *)
Definition runCmd (args : list string) : M unit :=
  emit (RanCmd args);; check (exec_Run args).

(** [StoreImportCmd.sample] *)
Definition StoreImportCmd_sample (c : StoreImportCmd.t) (s : StoreValue) : M unit :=
  emit (Logged (LogMakingSample (StoreImportCmd.SampleDefs c) (StoreImportCmd.SampleRefs c)));;
  let data := makeGraphData (StoreImportCmd.SampleDefs c) (StoreImportCmd.SampleRefs c) in
  let files : gset string :=
    list_to_set (map Def.File (Output.Defs data) ++ map Ref.File (Output.Refs data)) in
  let u := SourceUnit.mk "MyUnit" "MyUnitType" (mapRange files) in
  size ← try (Codec_Encode data);
  emit (Logged (LogEncodedSize size));;
  emit (Logged (LogImportingSample (length (Output.Defs data)) (length (Output.Refs data))
                                   (ID2.mk "MyUnitType" "MyUnit") sampleCommitID));;
  (if implements RepoImporter s then
     doImport s (RepoImport sampleCommitID u data)
   else if implements MultiRepoImporter s then
     emit (Logged (LogSampleRepo "example.com/my/repo"));;
     doImport s (MultiRepoImport "example.com/my/repo" sampleCommitID u data)
   else leave (Returned (Some (notImplemented s "importing"))));;
  (* elapsed / int64(len(data.Defs)+len(data.Refs)) *)
  (if Nat.eqb (length (Output.Defs data) + length (Output.Refs data)) 0
   then leave Panicked else emit (Logged LogImportTook));;
  if StoreImportCmd.SampleImportOnly c then mret tt
  else
    emit (Logged LogRunningCommands);;
    runCmd ["src"; "store"; "versions"];;
    runCmd ["src"; "store"; "units"];;
    d ← index (Output.Defs data) (length (Output.Defs data) / 2 + 1)%nat;
    runCmd ["src"; "store"; "units"; "--file"; Def.File d];;
    r ← index (Output.Refs data) (length (Output.Refs data) / 2 + 1)%nat;
    runCmd ["src"; "store"; "units"; "--file"; Ref.File r];;
    d ← index (Output.Defs data) (length (Output.Defs data) / 3 + 1)%nat;
    runCmd ["src"; "store"; "defs"; "--file"; Def.File d];;
    r ← index (Output.Refs data) (length (Output.Refs data) / 2 + 1)%nat;
    runCmd ["src"; "store"; "refs"; "--file"; Ref.File r].

(** [StoreImportCmd.Execute] *)
Definition StoreImportCmd_Execute (storeCmd : StoreCmd.t) (c : StoreImportCmd.t)
  : ImportRun :=
  runM (
    s ← try (StoreCmd_store storeCmd);
    if StoreImportCmd.Sample c then StoreImportCmd_sample c s
    else
      vcsType ← try openLocalRepo;
      let remoteBuildDataRepo :=
        if nonempty (StoreImportCmd.RemoteBuildDataRepo c)
        then StoreImportCmd.RemoteBuildDataRepo c else StoreImportCmd.Repo c in
      bl ← try (getBuildDataFS (negb (StoreImportCmd.RemoteBuildData c))
                               remoteBuildDataRepo (StoreImportCmd.CommitID c));
      (if GlobalOpt_Verbose then
         emit (Logged (LogImportingBuildData (StoreImportCmd.Repo c)
                                             (StoreImportCmd.CommitID c) bl.2))
       else mret tt);;
      treeConfig ← try (config_ReadCached bl.1);
      rules ← try (plan_CreateMakefile vcsType treeConfig);
      importRules c s bl.1 rules;;
      emit (Logged LogImportCompleted)).
End ImportCmd.

(** ** The consumer loop run sequentially *)

Section RenderAll.
Context `{External}.

(** The text consumer's [for x := range indexChan] over the statuses
    [evs], entered with loop variables [l]. *)
Fixpoint renderAll (isMultiRepo : bool) (l : Last) (evs : list IndexStatus.t)
  : list Line :=
  match evs with
  | [] => []
  | x :: rest => renderText isMultiRepo l x ++ renderAll isMultiRepo (lastOf x) rest
  end.

(** The loop variables after the loop has run over [evs]. *)
Definition lastAfter (l : Last) (evs : list IndexStatus.t) : Last :=
  foldl (fun _ x => lastOf x) l evs.

(** What a consumer in mode [m] has printed after rendering [evs]. *)
Definition printed (m : Mode) (evs : list IndexStatus.t) : list Line :=
  match m with
  | JSON => flat_map renderJSON evs
  | Text isMultiRepo => renderAll isMultiRepo noLast evs
  end.

(** The flag a consumer in mode [m] has stored after rendering [evs]. *)
Definition flagged (m : Mode) (evs : list IndexStatus.t) : bool :=
  match m with
  | JSON => false
  | Text _ => existsb carriesError evs
  end.
End RenderAll.

Definition hasKind (k : LineKind) (ls : list Line) : Prop :=
  exists t, mkLine k t ∈ ls.

(** ** Ref queries of the store library *)

(** Modelled from the spec: the store package's query methods are not under
    src.  Section 4.2 says a query returns the entities that every filter
    of its filter list selects, and that a function filter selects what its
    function accepts; how the library's own filters ([ByRepo], [ByUnits],
    [ByFiles], ...) select a ref is left as the parameter [lib]. *)
Definition SelectRef (lib : Filter -> Ref.t -> bool) (f : Filter) (ref : Ref.t) : bool :=
  match f with
  | RefFilterFunc g => g ref
  | _ => lib f ref
  end.

(** Modelled from the spec: see [SelectRef]; [stored] are the refs the
    store holds. *)
Definition refsQuery (lib : Filter -> Ref.t -> bool) (fs : list Filter)
    (stored : list Ref.t) : list Ref.t :=
  List.filter (fun ref => forallb (fun f => SelectRef lib f ref) fs) stored.

(** The refs command with both byte-range flags left at 0. *)
Definition withoutBounds (c : StoreRefsCmd.t) : StoreRefsCmd.t :=
  StoreRefsCmd.mk (StoreRefsCmd.Repo c) (StoreRefsCmd.UnitType c) (StoreRefsCmd.Unit c)
    (StoreRefsCmd.File c) (StoreRefsCmd.CommitID c) 0%N 0%N
    (StoreRefsCmd.DefRepo c) (StoreRefsCmd.DefUnitType c) (StoreRefsCmd.DefUnit c)
    (StoreRefsCmd.DefPath c).

(** ** A concrete environment, for running the model on examples *)

Module Demo.
(** scheme://host/path, enough of [url.Parse] for the examples: the host
    is what lies between "://" and the next "/". *)
Definition parseURL (s : string) : option URL.t :=
  match String.index 0 "://" s with
  | Some i =>
      let rest := String.substring (i + 3) (String.length s - (i + 3)) s in
      match String.index 0 "/" rest with
      | Some j =>
          Some (URL.mk (String.substring 0 i s) (String.substring 0 j rest)
                       (String.substring j (String.length rest - j) rest))
      | None => Some (URL.mk (String.substring 0 i s) rest "")
      end
  | None => Some (URL.mk "" "" s)
  end.

Definition dq : string := String (ascii_of_nat 34) EmptyString.

(** Which interfaces the two file-system stores satisfy; [bare] strips
    the importers (and the multi-repo interface) from both. *)
Definition satisfies (bare : bool) (cap : Capability) (s : StoreValue) : bool :=
  match s, cap with
  | FSRepoStore _ _, (RepoStore | TreeStore | UnitStore) => true
  | FSRepoStore _ _, RepoImporter => negb bare
  | FSRepoStore _ _, (MultiRepoStore | MultiRepoImporter) => false
  | FSMultiRepoStore _ _ _, RepoImporter => false
  | FSMultiRepoStore _ _ _, (MultiRepoStore | MultiRepoImporter) => negb bare
  | FSMultiRepoStore _ _ _, _ => true
  end.

Definition external (bare : bool) : External := {|
  url_Parse := parseURL;
  quote := fun s => dq +:+ s +:+ dq;
  path_Clean := fun p => p;
  hasCreateParentDirs := fun fs => match fs with OS _ => true | S3 _ => false end;
  unmarshalConf := fun s => inr s;
  typeName := fun s => match s with
                       | FSRepoStore _ _ => "*store.fsRepoStore"
                       | FSMultiRepoStore _ _ _ => "*store.fsMultiRepoStore"
                       end;
  implements := satisfies bare;
  store_Repos := fun _ _ => inr [];
  store_Versions := fun _ _ => inr [];
  store_Units := fun _ _ => inr [];
  store_Defs := fun _ _ => inr [];
  store_Refs := fun _ _ => inr [];
  PrintJSON := fun _ _ _ => "{}";
  bytesString := fun _ => "1B";
  durationString := fun _ => "1s"
|}.

(** Build data as a list of (target file, decoded content). *)
Definition world (rules : list Rule.t) (files : list (string * Output.t))
    (verbose : bool) : ImportWorld := {|
  BuildDataFS := list (string * Output.t);
  TreeConfig := unit;
  openLocalRepo := inr "git";
  getBuildDataFS := fun _ _ _ => inr (files, "local");
  config_ReadCached := fun _ => inr tt;
  plan_CreateMakefile := fun _ _ => inr rules;
  readJSONFileFS := fun fs target =>
    match List.find (fun kv => String.eqb kv.1 target) fs with
    | Some kv => inr kv.2
    | None => inl ("open " +:+ target +:+ ": file does not exist")
    end;
  GlobalOpt_Verbose := verbose;
  imp_Import := fun _ _ _ => None;
  mapRange := fun files => elements files;
  Codec_Encode := fun _ => inr 0;
  exec_Run := fun _ => None
|}.

Definition repoStoreCmd : StoreCmd.t := StoreCmd.mk "RepoStore" "./store" "".
Definition s3StoreCmd : StoreCmd.t :=
  StoreCmd.mk "RepoStore" "https://mybucket.s3.amazonaws.com/x" "".
Definition bogusStoreCmd : StoreCmd.t := StoreCmd.mk "Bogus" "./store" "".

Definition status (repo commit : string) (u : option UnitPtr.t) (name err : string)
  : IndexStatus.t :=
  IndexStatus.mk repo commit u name "store.defFilesIndex" false 0 err "" 0.

Definition unitA : UnitPtr.t := UnitPtr.mk 1 (ID2.mk "GoPackage" "a").
Definition unitB : UnitPtr.t := UnitPtr.mk 2 (ID2.mk "GoPackage" "b").

(** Build data of two Go packages and a rule that graphs nothing. *)
Definition srcA : SourceUnit.t := SourceUnit.mk "a" "GoPackage" ["a/a.go"].
Definition srcB : SourceUnit.t := SourceUnit.mk "b" "GoPackage" ["b/b.go"].

Definition graphA : GraphUnitRule.t := GraphUnitRule.mk srcA "a.graph.json".
Definition graphB : GraphUnitRule.t := GraphUnitRule.mk srcB "b.graph.json".

Definition ruleA : Rule.t := Rule.mk (Some srcA) (Some graphA).
Definition ruleB : Rule.t := Rule.mk (Some srcB) (Some graphB).
Definition ruleDeps : Rule.t := Rule.mk (Some srcA) None.
Definition rulePlain : Rule.t := Rule.mk None None.

Definition def (path : string) : Def.t :=
  Def.mk path path "func" 0 10 "a/a.go" true false "{}" [].

Definition outputA : Output.t :=
  Output.mk [def "a/b"; def "a/c"] []
            [Doc.mk "a/b" "text/plain" "first"; Doc.mk "a/b" "text/html" "second"] [].

Definition outputB : Output.t := Output.mk [def "b/x"] [] [] [].

Definition files : list (string * Output.t) :=
  [("a.graph.json", outputA); ("b.graph.json", outputB)].

Definition importCmd (dryRun : bool) (u unitType : string) : StoreImportCmd.t :=
  StoreImportCmd.mk dryRun false 0 0 false "example.com/repo" u unitType "c0ffee" "" false.

Definition sampleCmd (dryRun : bool) : StoreImportCmd.t :=
  StoreImportCmd.mk dryRun true 3 3 true "" "" "" "" "" false.

(** A backend call that sends [evs] and returns [err]. *)
Definition backend (evs : list IndexStatus.t) (err : option string)
  : StoreValue -> IndexCriteria.t -> Script :=
  fun _ _ => mkScript evs err.

Definition noCriteria : IndexCriteria.t := IndexCriteria.mk "" "" None "" "" None.

(** The schedule that always takes the first enabled transition. *)
Definition firstEnabled (n : nat) : list nat := repeat 0%nat n.

(** The state a schedule leads to (the start state if it gets stuck). *)
Definition after `{External} (sched : list nat) (st : PState) : PState :=
  default st (runSchedule sched st).

(** One status with a query error; three statuses of two repositories. *)
Definition boom : IndexStatus.t := status "r1" "c1" (Some unitA) "defs" "boom".

Definition threeStatuses : list IndexStatus.t :=
  [ status "r1" "c1" (Some unitA) "defs" "";
    status "r1" "c1" (Some unitA) "refs" "";
    status "r2" "c2" (Some unitB) "defs" "" ].

Definition jsonOpt : storeIndexOptions.t := storeIndexOptions.mk "json".
Definition textOpt : storeIndexOptions.t := storeIndexOptions.mk "text".

(** The returned error of a state (a marker if it has not returned). *)
Definition resultOf `{External} (st : PState) : option string :=
  default (Some "still running") (returned st).
End Demo.

(** ** Vocabulary of the statements below *)

(** Exactly one string of a pair is set. *)
Definition exactlyOne (a b : string) : Prop :=
  (a <> "" /\ b = "") \/ (a = "" /\ b <> "").

(** Some but not all strings of a 4-tuple are set. *)
Definition someNotAll (a b c d : string) : Prop :=
  (a <> "" \/ b <> "" \/ c <> "" \/ d <> "")
  /\ (a = "" \/ b = "" \/ c = "" \/ d = "").

Section QueryVocabulary.
Context `{External}.

(** What a units, defs or refs command does when its filter builder dies
    with [msg]: the backend error, else the capability error for [what],
    else the fatal exit; never a query. *)
Definition refusal (storeCmd : StoreCmd.t) (cap : Capability) (what msg : string) : Run :=
  match StoreCmd_store storeCmd with
  | inl err => mkRun [] (Returned (Some err))
  | inr s =>
      if implements cap s then mkRun [] (FatalExit msg)
      else mkRun [] (Returned (Some (notImplemented s what)))
  end.
End QueryVocabulary.

Section PipelineVocabulary.
Context `{External}.

(** *** The invariant of a spawned run *)

Definition restOf (mn : Main) : list IndexStatus.t :=
  match mn with MCallF rest _ => rest | _ => [] end.

Definition inflight (c : Consumer) : list IndexStatus.t :=
  match c with CProc x => [x] | _ => [] end.

Definition phaseOK (sc : Script) (mn : Main) (c : Consumer) (cl : bool) : Prop :=
  match mn, c with
  | MCallF _ ret, (CRecv | CProc _) => cl = false /\ ret = ferr sc
  | MDeferred _, (CRecv | CProc _) => cl = false
  | MWaitDone _, (CRecv | CProc _ | CSendDone) => cl = true
  | MReturned _, CExit => cl = true
  | _, _ => False
  end.

(** The return value was computed from the flag as it stood when f
    returned: after all statuses but possibly the last were rendered. *)
Definition resultOK (m : Mode) (sc : Script) (mn : Main) : Prop :=
  match mn with
  | MCallF _ _ => True
  | MDeferred r | MWaitDone r | MReturned r =>
      exists k, (length (emits sc) <= S k)%nat
                /\ r = returnValue (ferr sc) (flagged m (take k (emits sc)))
  end.

Record Inv (m : Mode) (sc : Script) (st : PState) : Prop := mkInv {
  inv_mode : mode st = m;
  inv_sent : emits sc = sent st ++ restOf (main st);
  inv_rendered : sent st = rendered st ++ inflight (cons st);
  inv_phase : phaseOK sc (main st) (cons st) (closed st);
  inv_flag : hasError st = flagged m (rendered st);
  inv_out : out st = printed m (rendered st);
  inv_last : match m with
             | JSON => True
             | Text _ => last st = lastAfter noLast (rendered st)
             end;
  inv_result : resultOK m sc (main st)
}.

(** The six transitions, by name. *)
Inductive Step (st : PState) : PState -> Prop :=
  | StepSend x rest ret :
      main st = MCallF (x :: rest) ret -> cons st = CRecv -> closed st = false ->
      Step st (mkPState (MCallF rest ret) (CProc x) (mode st) (closed st)
                 (hasError st) (last st) (sent st ++ [x]) (rendered st) (out st))
  | StepReturn ret :
      main st = MCallF [] ret ->
      Step st (mkPState (MDeferred (returnValue ret (hasError st))) (cons st) (mode st)
                 (closed st) (hasError st) (last st) (sent st) (rendered st) (out st))
  | StepClose r :
      main st = MDeferred r ->
      Step st (mkPState (MWaitDone r) (cons st) (mode st) true (hasError st)
                 (last st) (sent st) (rendered st) (out st))
  | StepConsume x :
      cons st = CProc x -> Step st (consume st x)
  | StepSeeClosed :
      cons st = CRecv -> closed st = true ->
      Step st (mkPState (main st) CSendDone (mode st) (closed st) (hasError st)
                 (last st) (sent st) (rendered st) (out st))
  | StepDone r :
      main st = MWaitDone r -> cons st = CSendDone ->
      Step st (mkPState (MReturned r) CExit (mode st) (closed st) (hasError st)
                 (last st) (sent st) (rendered st) (out st)).
End PipelineVocabulary.

(** The rule passes the --unit/--unit-type filter: no filter is set, or the
    rule exposes a source unit that matches every filter that is set. *)
Definition passes (c : StoreImportCmd.t) (rule : Rule.t) : Prop :=
  (StoreImportCmd.Unit c = "" /\ StoreImportCmd.UnitType c = "")
  \/ exists u, Rule.SourceUnit rule = Some u
       /\ (StoreImportCmd.Unit c <> "" -> SourceUnit.Name u = StoreImportCmd.Unit c)
       /\ (StoreImportCmd.UnitType c <> "" -> SourceUnit.Type_ u = StoreImportCmd.UnitType c).

(** The graph output handed to the importer by a call. *)
Definition callData (call : ImportCall) : Output.t :=
  match call with
  | RepoImport _ _ data => data
  | MultiRepoImport _ _ _ data => data
  end.

(** The graph rules that survive the filter, in makefile order. *)
Definition graphSurvivors (c : StoreImportCmd.t) (rules : list Rule.t)
  : list GraphUnitRule.t :=
  omap (fun rule => if skipRule c rule then None else Rule.Graph rule) rules.

Section ImportVocabulary.
Context `{External} `{ImportWorld}.

(** The log entry of lines 261-262 for the data read for rule [g]. *)
Definition graphLog (data : Output.t) (g : GraphUnitRule.t) : ImportEvent :=
  Logged (LogImportingGraphData
            (length (Output.Defs data)) (length (Output.Refs data))
            (length (Output.Docs data)) (length (Output.Anns data))
            (SourceUnit.Type_ (GraphUnitRule.Unit g))
            (SourceUnit.Name (GraphUnitRule.Unit g))).

(** The importer call a non-dry run makes for graph rule [g], if its data
    can be read and the store has an importer. *)
Definition callFor (c : StoreImportCmd.t) (s : StoreValue) (bdfs : BuildDataFS)
    (g : GraphUnitRule.t) : option ImportCall :=
  match readJSONFileFS bdfs (GraphUnitRule.Target g) with
  | inr data =>
      match importerCall s (StoreImportCmd.Repo c) (StoreImportCmd.CommitID c)
                         (GraphUnitRule.Unit g) (transferDocs data) with
      | inr call => Some call
      | inl _ => None
      end
  | inl _ => None
  end.

(** What a dry run does for the surviving graph rules [gs]: read, log,
    next; a failed read ends it. *)
Fixpoint dryRunTrace (bdfs : BuildDataFS) (gs : list GraphUnitRule.t)
  : list ImportEvent * option string :=
  match gs with
  | [] => ([], None)
  | g :: gs' =>
      match readJSONFileFS bdfs (GraphUnitRule.Target g) with
      | inl err => ([ReadFile (GraphUnitRule.Target g)], Some err)
      | inr data =>
          (ReadFile (GraphUnitRule.Target g) :: graphLog data g
             :: (dryRunTrace bdfs gs').1,
           (dryRunTrace bdfs gs').2)
      end
  end.

(** What [Execute] logs before the loop (line 223). *)
Definition prelude (c : StoreImportCmd.t) (label : string) : list ImportEvent :=
  if GlobalOpt_Verbose
  then [Logged (LogImportingBuildData (StoreImportCmd.Repo c)
                                      (StoreImportCmd.CommitID c) label)]
  else [].

(** The build data an import of [c] works on: the local repository's VCS
    type, the build-data file system with its label, and the rules. *)
Definition buildData (c : StoreImportCmd.t) (bdfs : BuildDataFS) (label : string)
    (rules : list Rule.t) : Prop :=
  exists vcsType treeConfig,
    openLocalRepo = inr vcsType
    /\ getBuildDataFS (negb (StoreImportCmd.RemoteBuildData c))
         (if nonempty (StoreImportCmd.RemoteBuildDataRepo c)
          then StoreImportCmd.RemoteBuildDataRepo c else StoreImportCmd.Repo c)
         (StoreImportCmd.CommitID c) = inr (bdfs, label)
    /\ config_ReadCached bdfs = inr treeConfig
    /\ plan_CreateMakefile vcsType treeConfig = inr rules.
End ImportVocabulary.

(** *** Concrete runs *)

Module Runs.
Definition ext : External := Demo.external false.

(** json mode, one status with Error = "boom", f returns nil. *)
Definition jsonBoom : PState :=
  doStoreIndexesCmd (H := ext) Demo.repoStoreCmd Demo.noCriteria Demo.jsonOpt
    (Demo.backend [Demo.boom] None).

(** text mode, same script. *)
Definition textBoom : PState :=
  doStoreIndexesCmd (H := ext) Demo.repoStoreCmd Demo.noCriteria Demo.textOpt
    (Demo.backend [Demo.boom] None).

(** text mode, three statuses, and f fails. *)
Definition textThree : PState :=
  doStoreIndexesCmd (H := ext) Demo.repoStoreCmd Demo.noCriteria Demo.textOpt
    (Demo.backend Demo.threeStatuses (Some "backend failed")).
End Runs.

Module Imports.
Definition ext : External := Demo.external false.
Definition bare : External := Demo.external true.

(** Two graph rules, a rule without a source unit, a dependency rule. *)
Definition world : ImportWorld :=
  Demo.world [Demo.ruleA; Demo.ruleB; Demo.rulePlain; Demo.ruleDeps] Demo.files false.

(** No graph rule at all. *)
Definition worldNoGraph : ImportWorld :=
  Demo.world [Demo.ruleDeps; Demo.rulePlain] Demo.files false.

(** The graph rule's target file is missing. *)
Definition worldNoFiles : ImportWorld := Demo.world [Demo.ruleA] [] false.
End Imports.

(** Unfold the monad's plumbing until plain pairs remain. *)
Ltac run_monad :=
  repeat (progress (unfold doImport, runCmd, index, mbind, M_bind, emit, try,
                      getTrace, check, leave, mret, M_ret; simpl)).

(** ** countingWriter (lines 457-468) *)

(** The wrapped [io.Writer]: its state and what one [Write(p)] does to it,
    returning the byte count and the error. *)
Module Writer.
Record t := mk {
  state : Type;
  Write : state -> list Byte.byte -> state * (Z * option string)
}.
End Writer.

(** A [countingWriter] over [w]: the wrapped writer's state and [n]. *)
Module countingWriter.
Record t (w : Writer.t) := mk { inner : Writer.state w; n : Z }.
Arguments mk {w} inner n.
Arguments inner {w} _.
Arguments n {w} _.
End countingWriter.

(** [countingWriter.Write]: [n, err = cr.Writer.Write(p); cr.n += uint64(n)],
    with the conversion and the addition wrapping at 64 bits. *)
Definition countingWriter_Write {w : Writer.t} (cr : countingWriter.t w)
    (p : list Byte.byte) : countingWriter.t w * (Z * option string) :=
  let r := Writer.Write w (countingWriter.inner cr) p in
  (countingWriter.mk r.1 ((countingWriter.n cr + r.2.1 mod 2 ^ 64) mod 2 ^ 64), r.2).

(** Successive writes of the chunks [ps]; yields the writer and the byte
    counts returned, in order. *)
Fixpoint writeAll {w : Writer.t} (cr : countingWriter.t w) (ps : list (list Byte.byte))
  : countingWriter.t w * list Z :=
  match ps with
  | [] => (cr, [])
  | p :: ps' =>
      let r := countingWriter_Write cr p in
      let rest := writeAll r.1 ps' in
      (rest.1, r.2.1 :: rest.2)
  end.

(** ** More vocabulary *)

(** The defs command with its two file flags replaced. *)
Definition defsWithFiles (file filePathPrefix : string) (c : StoreDefsCmd.t)
  : StoreDefsCmd.t :=
  StoreDefsCmd.mk (StoreDefsCmd.Repo c) (StoreDefsCmd.Path c) (StoreDefsCmd.UnitType c)
    (StoreDefsCmd.Unit c) file filePathPrefix (StoreDefsCmd.CommitID c)
    (StoreDefsCmd.NamePrefix c) (StoreDefsCmd.Limit c).

(** The store command with its --config replaced. *)
Definition withConfig (config : string) (c : StoreCmd.t) : StoreCmd.t :=
  StoreCmd.mk (StoreCmd.Type_ c) (StoreCmd.Root c) config.

(** The import command with --remote-build-data-repo replaced. *)
Definition withRemoteBuildDataRepo (repo : string) (c : StoreImportCmd.t)
  : StoreImportCmd.t :=
  StoreImportCmd.mk (StoreImportCmd.DryRun c) (StoreImportCmd.Sample c)
    (StoreImportCmd.SampleDefs c) (StoreImportCmd.SampleRefs c)
    (StoreImportCmd.SampleImportOnly c) (StoreImportCmd.Repo c) (StoreImportCmd.Unit c)
    (StoreImportCmd.UnitType c) (StoreImportCmd.CommitID c) repo
    (StoreImportCmd.RemoteBuildData c).

(** How many lines of kind [k] a report has. *)
Definition countKind (k : LineKind) (ls : list Line) : nat :=
  length (List.filter (fun l => bool_decide (kind l = k)) ls).

(** The queries among the effects of a run. *)
Definition queriesOf (es : list Effect) : list Query :=
  omap (fun e => match e with EQuery q => Some q | _ => None end) es.

(** Further runs of the index pipeline. *)
Module MoreRuns.
(** An --output value that is neither json nor text. *)
Definition yamlBoom : PState :=
  doStoreIndexesCmd (H := Runs.ext) Demo.repoStoreCmd Demo.noCriteria
    (storeIndexOptions.mk "yaml") (Demo.backend [Demo.boom] None).

(** json mode, one status, and f fails. *)
Definition jsonFailing : PState :=
  doStoreIndexesCmd (H := Runs.ext) Demo.repoStoreCmd Demo.noCriteria Demo.jsonOpt
    (Demo.backend [Demo.boom] (Some "backend failed")).

(** The text run of three statuses, taken to its end. *)
Definition threeDone : PState :=
  Demo.after (H := Runs.ext) (Demo.firstEnabled 10) Runs.textThree.
End MoreRuns.

(** A listing command's run is orderly: it prints only when it succeeds,
    and it queries the store at most once, before anything is printed. *)
Definition orderly (r : Run) : Prop :=
  (forall txt, EPrint txt ∈ effects r -> exit r = Returned None)
  /\ (length (queriesOf (effects r)) <= 1)%nat
  /\ (forall q, EQuery q ∈ effects r -> exists rest, effects r = EQuery q :: rest).

(** The events the rule loop of the import command can produce. *)
Definition loopEvent (e : ImportEvent) : bool :=
  match e with
  | ReadFile _ | Imported _ | Logged (LogImportingGraphData _ _ _ _ _ _) => true
  | _ => false
  end.

Module MoreImports.
(** Two graph rules; the first one's target file is missing. *)
Definition worldFirstMissing : ImportWorld :=
  Demo.world [Demo.ruleA; Demo.ruleB] [("b.graph.json", Demo.outputB)] false.

(** A full sample run (listing commands included) of two defs, three refs. *)
Definition sampleTwo : StoreImportCmd.t :=
  StoreImportCmd.mk false true 2 3 false "" "" "" "" "" false.
End MoreImports.

(** A writer that appends to a buffer, as [bytes.Buffer] does. *)
Module BufferWriter.
Definition w : Writer.t :=
  Writer.mk (list Byte.byte) (fun st p => (st ++ p, (Z.of_nat (length p), None))).

(** A counting writer over an empty buffer, and two chunks to write. *)
Definition fresh : countingWriter.t w := @countingWriter.mk w [] 0.
Definition chunks : list (list Byte.byte) := [[Byte.x00]; [Byte.x01; Byte.x02]].
End BufferWriter.

(** The wrapped writer written to directly. *)
Definition writeInner (w : Writer.t) (st : Writer.state w) (ps : list (list Byte.byte))
  : Writer.state w :=
  fold_left (fun st p => (Writer.Write w st p).1) ps st.

(** * Properties *)

(** ** Strings *)

Lemma nonempty_true (s : string) : nonempty s = true <-> s <> "".
Proof. destruct s; simpl; split; intros; congruence. Qed.

Lemma nonempty_false (s : string) : nonempty s = false <-> s = "".
Proof. destruct s; simpl; split; intros; congruence. Qed.

Lemma substring_all (s : string) : String.substring 0 (String.length s) s = s.
Proof. induction s as [|a s IH]; simpl; [done | by rewrite IH]. Qed.

Lemma substring_skip (p s : string) (n : nat) :
  String.substring (String.length p) n (p +:+ s) = String.substring 0 n s.
Proof. induction p as [|a p IH]; simpl; [done | apply IH]. Qed.

Lemma length_append (p s : string) :
  String.length (p +:+ s) = (String.length p + String.length s)%nat.
Proof. induction p as [|a p IH]; simpl; [done | by rewrite IH]. Qed.

Lemma substring_split (s : string) (k : nat) :
  (k <= String.length s)%nat ->
  s = String.substring 0 k s +:+ String.substring k (String.length s - k) s.
Proof.
  revert k. induction s as [|a s IH]; intros [|k] Hk; simpl in *; try lia.
  - done.
  - by rewrite substring_all.
  - change (String a s = String a (String.substring 0 k s
                                   +:+ String.substring k (String.length s - k) s)).
    f_equal. apply IH. lia.
Qed.

(** [HasSuffix s suffix] holds exactly when [s] ends in [suffix]. *)
Lemma HasSuffix_spec (s suffix : string) :
  HasSuffix s suffix = true <-> exists p, s = p +:+ suffix.
Proof.
  unfold HasSuffix. rewrite andb_true_iff, Nat.leb_le, String.eqb_eq. split.
  - intros [Hle Hsub].
    exists (String.substring 0 (String.length s - String.length suffix) s).
    rewrite (substring_split s (String.length s - String.length suffix)) at 1 by lia.
    f_equal. rewrite <- Hsub at 3. f_equal. lia.
  - intros [p ->]. rewrite length_append. split; [lia|].
    replace (String.length p + String.length suffix - String.length suffix)%nat
      with (String.length p) by lia.
    by rewrite substring_skip, substring_all.
Qed.

(** ** Backend selection *)

Section StoreFacts.
Context `{External}.

Lemma store_backing (c : StoreCmd.t) (s : StoreValue) :
  StoreCmd_store c = inr s -> backing s = selectFS (StoreCmd.Root c).
Proof.
  unfold StoreCmd_store. intros Hs.
  repeat (case_match; simplify_eq); done.
Qed.

Lemma selectFS_cases (root : string) :
  (exists u p, url_Parse root = Some u /\ URL.Host u = p +:+ "amazonaws.com"
               /\ selectFS root = S3 u)
  \/ ((forall u p, url_Parse root = Some u -> URL.Host u <> p +:+ "amazonaws.com")
      /\ selectFS root = OS root).
Proof.
  unfold selectFS. destruct (url_Parse root) as [u|] eqn:Hp.
  - destruct (HasSuffix (URL.Host u) "amazonaws.com") eqn:Hs.
    + left. apply HasSuffix_spec in Hs as [p Hp']. eauto.
    + right. split; [|done]. intros u' p [= <-] Hhost.
      assert (HasSuffix (URL.Host u) "amazonaws.com" = true)
        by (apply HasSuffix_spec; eauto).
      congruence.
  - right. split; [|done]. intros u p [=].
Qed.

(** C7.  [store()] picks the file system from [Root] alone: object storage
    (S3 on the parsed URL) if [Root] parses as a URL whose host ends in
    "amazonaws.com", and otherwise the local file system rooted at [Root];
    no third case exists.  Every backend it builds sits on that choice. *)
Theorem backend_selection_by_root (c : StoreCmd.t) :
  ((exists u p, url_Parse (StoreCmd.Root c) = Some u
                /\ URL.Host u = p +:+ "amazonaws.com"
                /\ selectFS (StoreCmd.Root c) = S3 u)
   \/ ((forall u p, url_Parse (StoreCmd.Root c) = Some u
                    -> URL.Host u <> p +:+ "amazonaws.com")
       /\ selectFS (StoreCmd.Root c) = OS (StoreCmd.Root c)))
  /\ (forall s, StoreCmd_store c = inr s -> backing s = selectFS (StoreCmd.Root c)).
Proof.
  split; [apply selectFS_cases | intros s; apply store_backing].
Qed.
End StoreFacts.

(** The two roots of the specification, under the example URL parser. *)
Example select_s3_root :
  selectFS (H := Demo.external false) "https://mybucket.s3.amazonaws.com/x"
  = S3 (URL.mk "https" "mybucket.s3.amazonaws.com" "/x").
Proof. reflexivity. Qed.

Example select_local_root :
  selectFS (H := Demo.external false) "./store" = OS "./store".
Proof. reflexivity. Qed.

Lemma backend_selection_by_root_witness :
  backing (FSRepoStore (S3 (URL.mk "https" "mybucket.s3.amazonaws.com" "/x")) false)
  = selectFS (H := Demo.external false) "https://mybucket.s3.amazonaws.com/x".
Proof.
  exact (proj2 (backend_selection_by_root (H := Demo.external false) Demo.s3StoreCmd)
               (FSRepoStore (S3 (URL.mk "https" "mybucket.s3.amazonaws.com" "/x")) false)
               eq_refl).
Defined.

(** ** Partially specified compound filters *)

Lemma oneOfPair_spec (a b : string) : oneOfPair a b = true <-> exactlyOne a b.
Proof.
  unfold oneOfPair, exactlyOne.
  rewrite orb_true_iff, !andb_true_iff, !negb_true_iff,
    !nonempty_true, !nonempty_false. tauto.
Qed.

Lemma defTuplePartial_spec (c : StoreRefsCmd.t) :
  defTuplePartial c = true
  <-> someNotAll (StoreRefsCmd.DefRepo c) (StoreRefsCmd.DefUnitType c)
                 (StoreRefsCmd.DefUnit c) (StoreRefsCmd.DefPath c).
Proof.
  unfold defTuplePartial, someNotAll.
  rewrite andb_true_iff, !orb_true_iff, !negb_true_iff,
    !nonempty_true, !nonempty_false. tauto.
Qed.

Section FilterFacts.
Context `{External}.

Lemma units_filters_fatal (c : StoreUnitsCmd.t) :
  exactlyOne (StoreUnitsCmd.Type_ c) (StoreUnitsCmd.Name c) ->
  StoreUnitsCmd_filters c = Fatal msgTypeNamePair.
Proof.
  intros Hp%oneOfPair_spec. unfold StoreUnitsCmd_filters. by rewrite Hp.
Qed.

Lemma defs_filters_fatal (c : StoreDefsCmd.t) :
  exactlyOne (StoreDefsCmd.UnitType c) (StoreDefsCmd.Unit c) ->
  StoreDefsCmd_filters c = Fatal msgUnitPair.
Proof.
  intros Hp%oneOfPair_spec. unfold StoreDefsCmd_filters. by rewrite Hp.
Qed.

Lemma refs_filters_fatal (c : StoreRefsCmd.t) :
  exactlyOne (StoreRefsCmd.UnitType c) (StoreRefsCmd.Unit c)
  \/ someNotAll (StoreRefsCmd.DefRepo c) (StoreRefsCmd.DefUnitType c)
                (StoreRefsCmd.DefUnit c) (StoreRefsCmd.DefPath c) ->
  exists msg, StoreRefsCmd_filters c = Fatal msg.
Proof.
  intros Hp. unfold StoreRefsCmd_filters.
  destruct (oneOfPair _ _) eqn:Hone; [eauto|].
  destruct Hp as [Hp%oneOfPair_spec | Hp%defTuplePartial_spec]; [congruence|].
  rewrite Hp. eauto.
Qed.

Lemma index_criteria_fatal (c : storeIndexCriteria.t) :
  (storeIndexCriteria.Stale c = true /\ storeIndexCriteria.NotStale c = true)
  \/ exactlyOne (storeIndexCriteria.UnitType c) (storeIndexCriteria.Unit c) ->
  exists msg, storeIndexCriteria_IndexCriteria c = Fatal msg.
Proof.
  intros Hp. unfold storeIndexCriteria_IndexCriteria.
  destruct (storeIndexCriteria.Stale c && storeIndexCriteria.NotStale c) eqn:Hs;
    [eauto|].
  destruct Hp as [[Ha Hb] | Hp].
  { rewrite Ha, Hb in Hs. done. }
  destruct Hp as [[Ha Hb] | [Ha Hb]].
  - apply nonempty_true in Ha. rewrite Ha, Hb. simpl. eauto.
  - apply nonempty_true in Hb. rewrite Ha, Hb. simpl. eauto.
Qed.

(** C3 (amended).  A partially specified compound filter never reaches a
    query and is never dropped.  The index commands build their criteria
    before anything else, so they always die in [log.Fatal].  The units,
    defs and refs commands first build the backend and check its
    capability: if the first fails they return its error, if the second
    fails the capability error, and otherwise the partial filter is a fatal
    usage error.  In every case no query is issued and nothing printed. *)
Theorem partial_filter_never_queries (storeCmd : StoreCmd.t) :
  (forall c, exactlyOne (StoreUnitsCmd.Type_ c) (StoreUnitsCmd.Name c) ->
     StoreUnitsCmd_filters c = Fatal msgTypeNamePair
     /\ StoreUnitsCmd_Execute storeCmd c
        = refusal storeCmd TreeStore "listing source units" msgTypeNamePair)
  /\ (forall c, exactlyOne (StoreDefsCmd.UnitType c) (StoreDefsCmd.Unit c) ->
     StoreDefsCmd_filters c = Fatal msgUnitPair
     /\ StoreDefsCmd_Execute storeCmd c
        = refusal storeCmd UnitStore "listing defs" msgUnitPair)
  /\ (forall c,
     exactlyOne (StoreRefsCmd.UnitType c) (StoreRefsCmd.Unit c)
     \/ someNotAll (StoreRefsCmd.DefRepo c) (StoreRefsCmd.DefUnitType c)
                   (StoreRefsCmd.DefUnit c) (StoreRefsCmd.DefPath c) ->
     exists msg,
       StoreRefsCmd_filters c = Fatal msg
       /\ StoreRefsCmd_Execute storeCmd c
          = refusal storeCmd UnitStore "listing refs" msg)
  /\ (forall c opt f,
     (storeIndexCriteria.Stale c = true /\ storeIndexCriteria.NotStale c = true)
     \/ exactlyOne (storeIndexCriteria.UnitType c) (storeIndexCriteria.Unit c) ->
     exists msg, StoreIndexCmd_Execute storeCmd c opt f = Fatal msg)
  /\ (forall cap what msg,
     effects (refusal storeCmd cap what msg) = []
     /\ exit (refusal storeCmd cap what msg) <> Returned None
     /\ forall s, StoreCmd_store storeCmd = inr s -> implements cap s = true ->
          exit (refusal storeCmd cap what msg) = FatalExit msg).
Proof.
  split; [|split; [|split; [|split]]].
  - intros c Hp. split; [by apply units_filters_fatal|].
    unfold StoreUnitsCmd_Execute, refusal. rewrite units_filters_fatal by done.
    by repeat case_match.
  - intros c Hp. split; [by apply defs_filters_fatal|].
    unfold StoreDefsCmd_Execute, refusal. rewrite defs_filters_fatal by done.
    by repeat case_match.
  - intros c Hp. destruct (refs_filters_fatal c Hp) as [msg Hmsg].
    exists msg. split; [done|].
    unfold StoreRefsCmd_Execute, refusal. rewrite Hmsg. by repeat case_match.
  - intros c opt f Hp. destruct (index_criteria_fatal c Hp) as [msg Hmsg].
    exists msg. unfold StoreIndexCmd_Execute. by rewrite Hmsg.
  - intros cap what msg. unfold refusal. split; [|split].
    + by repeat case_match.
    + by repeat case_match.
    + intros s Hs Hcap. by rewrite Hs, Hcap.
Qed.

(** The five listing commands refuse a backend without the capability
    before building filters or querying. *)
Lemma listing_not_implemented (storeCmd : StoreCmd.t) (s : StoreValue) :
  StoreCmd_store storeCmd = inr s ->
  (implements MultiRepoStore s = false -> forall c,
     StoreReposCmd_Execute storeCmd c
     = mkRun [] (Returned (Some (notImplemented s "listing repositories"))))
  /\ (implements RepoStore s = false -> forall c,
     StoreVersionsCmd_Execute storeCmd c
     = mkRun [] (Returned (Some (notImplemented s "listing versions"))))
  /\ (implements TreeStore s = false -> forall c,
     StoreUnitsCmd_Execute storeCmd c
     = mkRun [] (Returned (Some (notImplemented s "listing source units"))))
  /\ (implements UnitStore s = false -> forall c,
     StoreDefsCmd_Execute storeCmd c
     = mkRun [] (Returned (Some (notImplemented s "listing defs"))))
  /\ (implements UnitStore s = false -> forall c,
     StoreRefsCmd_Execute storeCmd c
     = mkRun [] (Returned (Some (notImplemented s "listing refs")))).
Proof.
  intros Hs.
  unfold StoreReposCmd_Execute, StoreVersionsCmd_Execute, StoreUnitsCmd_Execute,
    StoreDefsCmd_Execute, StoreRefsCmd_Execute.
  rewrite Hs. repeat split; intros Hcap c; by rewrite Hcap.
Qed.
End FilterFacts.

(** C3 as stated fails when the backend cannot be built: the defs command
    with --type Bogus and only --unit-type set returns the backend error to
    the CLI driver instead of dying in a fatal usage error. *)
Lemma partial_filter_behind_bad_store :
  StoreDefsCmd_Execute (H := Demo.external false) Demo.bogusStoreCmd
    (StoreDefsCmd.mk "" "" "GoPackage" "" "" "" "" "" 0)
  = mkRun [] (Returned (Some
      ("unrecognized store --type value: " +:+ Demo.dq +:+ "Bogus" +:+ Demo.dq
       +:+ " (valid values are RepoStore, MultiRepoStore)")))
  /\ ~ exists msg,
       exit (StoreDefsCmd_Execute (H := Demo.external false) Demo.bogusStoreCmd
               (StoreDefsCmd.mk "" "" "GoPackage" "" "" "" "" "" 0))
       = FatalExit msg.
Proof.
  split; [reflexivity|]. intros [msg Hmsg]. vm_compute in Hmsg. discriminate.
Qed.

Lemma partial_filter_never_queries_witness :
  StoreDefsCmd_Execute (H := Demo.external false) Demo.repoStoreCmd
    (StoreDefsCmd.mk "" "" "GoPackage" "" "" "" "" "" 0)
  = mkRun [] (FatalExit msgUnitPair).
Proof.
  refine (proj2 (proj1 (proj2
    (partial_filter_never_queries (H := Demo.external false) Demo.repoStoreCmd))
    (StoreDefsCmd.mk "" "" "GoPackage" "" "" "" "" "" 0) _)).
  left. split; [discriminate | reflexivity].
Defined.

(** ** The index pipeline *)

Section PipelineFacts.
Context `{External}.

Lemma renderAll_snoc (isMultiRepo : bool) (evs : list IndexStatus.t) :
  forall (l : Last) (x : IndexStatus.t),
    renderAll isMultiRepo l (evs ++ [x])
    = renderAll isMultiRepo l evs ++ renderText isMultiRepo (lastAfter l evs) x.
Proof.
  induction evs as [|e evs IH]; intros l x; simpl.
  - by rewrite app_nil_r.
  - rewrite IH. by rewrite <- !app_assoc.
Qed.

Lemma renderAll_app (isMultiRepo : bool) (evs evs' : list IndexStatus.t) :
  forall l : Last,
    renderAll isMultiRepo l (evs ++ evs')
    = renderAll isMultiRepo l evs ++ renderAll isMultiRepo (lastAfter l evs) evs'.
Proof.
  induction evs as [|e evs IH]; intros l; simpl; [done|].
  rewrite IH. by rewrite <- !app_assoc.
Qed.

Lemma lastAfter_snoc (l : Last) (evs : list IndexStatus.t) (x : IndexStatus.t) :
  lastAfter l (evs ++ [x]) = lastOf x.
Proof. unfold lastAfter. by rewrite foldl_app. Qed.

Lemma printed_snoc (m : Mode) (evs : list IndexStatus.t) (x : IndexStatus.t) :
  printed m (evs ++ [x])
  = printed m evs
    ++ match m with
       | JSON => renderJSON x
       | Text isMultiRepo => renderText isMultiRepo (lastAfter noLast evs) x
       end.
Proof.
  destruct m; simpl.
  - by rewrite flat_map_app.
  - apply renderAll_snoc.
Qed.

Lemma flagged_snoc (m : Mode) (evs : list IndexStatus.t) (x : IndexStatus.t) :
  flagged m (evs ++ [x])
  = match m with JSON => false | Text _ => flagged m evs || carriesError x end.
Proof.
  destruct m; simpl; [done|]. rewrite existsb_app. simpl. by rewrite orb_false_r.
Qed.

Lemma Inv_spawned (m : Mode) (sc : Script) : Inv m sc (spawned m sc).
Proof.
  split; simpl; try done; by destruct m.
Qed.

Lemma step_Step (st st' : PState) : step st st' <-> Step st st'.
Proof.
  unfold step, successors. rewrite !elem_of_app. split.
  - intros [Hin | [Hin | Hin]].
    + unfold syncSteps in Hin.
      destruct (main st) as [[|x rest] ret|r|r|r] eqn:Hm, (cons st) eqn:Hc;
        try (by apply elem_of_nil in Hin).
      * destruct (closed st) eqn:Hcl; [by apply elem_of_nil in Hin|].
        apply list_elem_of_singleton in Hin as ->. rewrite <- Hcl. by econstructor.
      * apply list_elem_of_singleton in Hin as ->. by econstructor.
    + unfold mainSteps in Hin.
      destruct (main st) as [[|x rest] ret|r|r|r] eqn:Hm;
        try (by apply elem_of_nil in Hin);
        apply list_elem_of_singleton in Hin as ->; by econstructor.
    + unfold consSteps in Hin.
      destruct (cons st) eqn:Hc; try (by apply elem_of_nil in Hin).
      * destruct (closed st) eqn:Hcl; [|by apply elem_of_nil in Hin].
        apply list_elem_of_singleton in Hin as ->. rewrite <- Hcl. by econstructor.
      * apply list_elem_of_singleton in Hin as ->. by econstructor.
  - intros [x rest ret Hm Hc Hcl | ret Hm | r Hm | x Hc | Hc Hcl | r Hm Hc].
    + left. unfold syncSteps. rewrite Hm, Hc, Hcl. by apply list_elem_of_singleton.
    + right; left. unfold mainSteps. rewrite Hm. by apply list_elem_of_singleton.
    + right; left. unfold mainSteps. rewrite Hm. by apply list_elem_of_singleton.
    + right; right. unfold consSteps. rewrite Hc. by apply list_elem_of_singleton.
    + right; right. unfold consSteps. rewrite Hc, Hcl. by apply list_elem_of_singleton.
    + left. unfold syncSteps. rewrite Hm, Hc. by apply list_elem_of_singleton.
Qed.

Lemma Inv_step (m : Mode) (sc : Script) (st st' : PState) :
  Inv m sc st -> step st st' -> Inv m sc st'.
Proof.
  intros [Hmode Hsent Hrend Hphase Hflag Hout Hlast Hres] Hstep.
  apply step_Step in Hstep.
  destruct Hstep as [x rest ret Hm Hc Hcl | ret Hm | r Hm | x Hc | Hc Hcl | r Hm Hc].
  - (* send *)
    rewrite Hm, Hc, Hcl in *. simpl in *. rewrite app_nil_r in Hrend.
    split; simpl; try done.
    + by rewrite <- app_assoc.
    + by rewrite Hrend.
  - (* f returns *)
    rewrite Hm in *. simpl in *. rewrite app_nil_r in Hsent.
    split; simpl; try done.
    + by rewrite app_nil_r.
    + destruct (cons st); simpl in *; tauto.
    + exists (length (rendered st)).
      assert (ret = ferr sc) as -> by (destruct (cons st); simpl in *; tauto).
      rewrite Hsent, Hrend, take_app_length, length_app, Hflag. split; [|done].
      destruct (cons st); simpl; lia.
  - (* close *)
    rewrite Hm in *. simpl in *. split; simpl; try done.
    destruct (cons st); simpl in *; done.
  - (* consume *)
    rewrite Hc in *. simpl in *. unfold consume. rewrite Hmode.
    assert (phaseOK sc (main st) CRecv (closed st))
      by (destruct (main st); simpl in *; tauto).
    destruct m as [|isMulti]; split; simpl; try done.
    + by rewrite app_nil_r.
    + rewrite Hout. symmetry. apply (printed_snoc JSON).
    + by rewrite app_nil_r.
    + rewrite Hflag. symmetry. apply (flagged_snoc (Text isMulti)).
    + rewrite Hout, Hlast. symmetry. apply (printed_snoc (Text isMulti)).
    + symmetry. apply lastAfter_snoc.
  - (* consumer sees the close *)
    rewrite Hc, Hcl in *. simpl in *. split; simpl; try done.
    destruct (main st); simpl in *; try done. by destruct Hphase.
  - (* done *)
    rewrite Hm, Hc in *. simpl in *. by split.
Qed.

Lemma Inv_reach (m : Mode) (sc : Script) (st : PState) :
  rtc step (spawned m sc) st -> Inv m sc st.
Proof.
  revert st. apply (rtc_ind_r (R := step) (Inv m sc)).
  - apply Inv_spawned.
  - intros y z _ Hyz IH. by eapply Inv_step.
Qed.

(** A run that returns has rendered every status f emitted. *)
Lemma Inv_returned (m : Mode) (sc : Script) (st : PState) :
  Inv m sc st -> is_Some (returned st) ->
  rendered st = emits sc /\ sent st = emits sc.
Proof.
  intros [Hmode Hsent Hrend Hphase Hflag Hout Hlast Hres] [r Hr].
  unfold returned in Hr. destruct (main st) eqn:Hm; try done.
  simpl in *. destruct (cons st); try done. simpl in *.
  rewrite !app_nil_r in *. split; congruence.
Qed.

(** No deadlock: a spawned run that has not returned can take a step. *)
Lemma Inv_progress (m : Mode) (sc : Script) (st : PState) :
  Inv m sc st -> returned st = None -> exists st', step st st'.
Proof.
  intros [Hmode Hsent Hrend Hphase Hflag Hout Hlast Hres] Hr.
  unfold returned in Hr.
  destruct (main st) as [[|x rest] ret|r|r|r] eqn:Hm; try done.
  - eexists. apply step_Step. by eapply StepReturn.
  - destruct (cons st) as [| |y| |] eqn:Hc; simpl in Hphase; try done.
    + destruct Hphase as [Hcl _]. eexists. apply step_Step. by eapply StepSend.
    + eexists. apply step_Step. by eapply StepConsume.
  - eexists. apply step_Step. by eapply StepClose.
  - destruct (cons st) as [| |y| |] eqn:Hc; simpl in Hphase; try done.
    + eexists. apply step_Step. by eapply StepSeeClosed.
    + eexists. apply step_Step. by eapply StepConsume.
    + eexists. apply step_Step. by eapply StepDone.
Qed.

(** Every step uses up scheduling potential, so runs are finite. *)
Lemma step_fuel (st st' : PState) : step st st' -> (fuel st' < fuel st)%nat.
Proof.
  intros Hstep%step_Step. unfold fuel.
  destruct Hstep as [x rest ret Hm Hc Hcl | ret Hm | r Hm | x Hc | Hc Hcl | r Hm Hc];
    simpl; rewrite ?Hm, ?Hc; simpl; try lia.
  unfold consume. destruct (mode st); simpl; lia.
Qed.

(** A run of [n] steps costs at least [n] of the potential. *)
Lemma nsteps_fuel (n : nat) (st st' : PState) :
  nsteps step n st st' -> (n + fuel st' <= fuel st)%nat.
Proof.
  induction 1 as [st | n st st1 st2 Hstep _ IH]; [lia|].
  apply step_fuel in Hstep. lia.
Qed.

Lemma failedEarly_stuck (err : string) (st : PState) :
  rtc step (failedEarly err) st -> st = failedEarly err.
Proof.
  intros Hr. apply rtc_inv in Hr as [<- | (y & Hy & _)]; [done|].
  apply step_Step in Hy. inversion Hy; simpl in *; discriminate.
Qed.

Lemma runSchedule_rtc (sched : list nat) :
  forall st st', runSchedule sched st = Some st' -> rtc step st st'.
Proof.
  induction sched as [|i sched IH]; intros st st'; simpl.
  - intros [= <-]. apply rtc_refl.
  - destruct (successors st !! i) as [st1|] eqn:Hi; [|done].
    intros Hrun. eapply rtc_l; [|by apply IH].
    unfold step. by eapply list_elem_of_lookup_2.
Qed.
End PipelineFacts.

Section ReportFacts.
Context `{External}.

(** Which lines each part of a status's block of text contributes. *)
Lemma in_repoLines (isMultiRepo : bool) (prev : Last) (x : IndexStatus.t)
    (k : LineKind) (t : string) :
  mkLine k t ∈ repoLines isMultiRepo prev x
  <-> isMultiRepo = true /\ IndexStatus.Repo x <> lastRepo prev
      /\ ((k = KBlank /\ t = nl /\ lastRepo prev <> "")
          \/ (k = KRepo /\ t = IndexStatus.Repo x +:+ nl)).
Proof.
  unfold repoLines. destruct isMultiRepo; simpl.
  - destruct (String.eqb_spec (IndexStatus.Repo x) (lastRepo prev)) as [He|Hne]; simpl.
    + rewrite elem_of_nil. tauto.
    + destruct (lastRepo prev) eqn:Hl; simpl;
        rewrite ?elem_of_cons, elem_of_nil; split; intros Hx.
      * destruct Hx as [[= -> ->]|[]]. auto.
      * destruct Hx as (_ & _ & [(_ & _ & Hx)|[-> ->]]); [done | auto].
      * destruct Hx as [[= -> ->]|[[= -> ->]|[]]]; auto 10.
      * destruct Hx as (_ & _ & [(-> & -> & _)|[-> ->]]); auto.
  - rewrite elem_of_nil. split; [done | intros [[=] _]].
Qed.

Lemma in_commitLines (isMultiRepo : bool) (prev : Last) (x : IndexStatus.t)
    (k : LineKind) (t : string) :
  mkLine k t ∈ commitLines isMultiRepo prev x
  <-> IndexStatus.CommitID x <> lastCommitID prev /\ k = KCommit
      /\ t = repoTab isMultiRepo +:+ IndexStatus.CommitID x +:+ nl.
Proof.
  unfold commitLines.
  destruct (String.eqb_spec (IndexStatus.CommitID x) (lastCommitID prev)) as [He|Hne];
    simpl.
  - rewrite elem_of_nil. tauto.
  - rewrite list_elem_of_singleton. split.
    + intros [= -> ->]. auto.
    + intros (_ & -> & ->). done.
Qed.

Lemma in_unitLines (isMultiRepo : bool) (prev : Last) (x : IndexStatus.t)
    (k : LineKind) (t : string) :
  mkLine k t ∈ unitLines isMultiRepo prev x
  <-> exists u, IndexStatus.Unit x = Some u
        /\ ptrEq (Some u) (lastUnit prev) = false
        /\ ((k = KBlank /\ t = nl /\ IndexStatus.Repo x = lastRepo prev
             /\ IndexStatus.CommitID x = lastCommitID prev)
            \/ (k = KUnit
                /\ t = repoTab isMultiRepo +:+ tab +:+ ID2.Name (UnitPtr.val u)
                       +:+ " " +:+ ID2.Type_ (UnitPtr.val u) +:+ nl)).
Proof.
  unfold unitLines. destruct (IndexStatus.Unit x) as [u|] eqn:Hu.
  2: { rewrite elem_of_nil. split; [done | by intros (u & [=] & _)]. }
  destruct (ptrEq (Some u) (lastUnit prev)) eqn:Hp; cbn [negb].
  { rewrite elem_of_nil. split; [done | intros (u' & [= <-] & Hp' & _); congruence]. }
  destruct (String.eqb_spec (IndexStatus.Repo x) (lastRepo prev)) as [Hr|Hr];
    destruct (String.eqb_spec (IndexStatus.CommitID x) (lastCommitID prev)) as [Hc|Hc];
    cbn [andb app]; rewrite ?elem_of_cons, elem_of_nil; split; intros Hx.
  all: try (destruct Hx as [[= -> ->]|[[= -> ->]|[]]]; exists u; auto 10).
  all: try (destruct Hx as [[= -> ->]|[]]; exists u; auto 10).
  all: destruct Hx as (u' & [= <-] & _ & [(-> & -> & Hr' & Hc')|[-> ->]]);
    try contradiction; auto.
Qed.

Lemma in_renderText (isMultiRepo : bool) (prev : Last) (x : IndexStatus.t) (l : Line) :
  l ∈ renderText isMultiRepo prev x
  <-> l ∈ repoLines isMultiRepo prev x \/ l ∈ commitLines isMultiRepo prev x
      \/ l ∈ unitLines isMultiRepo prev x \/ l = detailLine isMultiRepo x.
Proof.
  unfold renderText. by rewrite !elem_of_app, list_elem_of_singleton.
Qed.

Lemma repo_header_iff (isMultiRepo : bool) (prev : Last) (x : IndexStatus.t) (t : string) :
  mkLine KRepo t ∈ renderText isMultiRepo prev x
  <-> t = IndexStatus.Repo x +:+ nl
      /\ isMultiRepo = true /\ IndexStatus.Repo x <> lastRepo prev.
Proof.
  rewrite in_renderText, in_repoLines, in_commitLines, in_unitLines. split.
  - intros [Hx|[Hx|[Hx|Hx]]].
    + destruct Hx as (? & ? & [(? & _)|[_ ?]]); [discriminate | done].
    + destruct Hx as (_ & ? & _); discriminate.
    + destruct Hx as (u & _ & _ & [(? & _)|[? _]]); discriminate.
    + apply (f_equal kind) in Hx; discriminate.
  - intros (-> & -> & Hne). left. auto.
Qed.

Lemma commit_line_iff (isMultiRepo : bool) (prev : Last) (x : IndexStatus.t) (t : string) :
  mkLine KCommit t ∈ renderText isMultiRepo prev x
  <-> t = repoTab isMultiRepo +:+ IndexStatus.CommitID x +:+ nl
      /\ IndexStatus.CommitID x <> lastCommitID prev.
Proof.
  rewrite in_renderText, in_repoLines, in_commitLines, in_unitLines. split.
  - intros [Hx|[Hx|[Hx|Hx]]].
    + destruct Hx as (? & ? & [(? & _)|[? _]]); discriminate.
    + destruct Hx as (? & _ & ?); done.
    + destruct Hx as (u & _ & _ & [(? & _)|[? _]]); discriminate.
    + apply (f_equal kind) in Hx; discriminate.
  - intros (-> & Hne). right; left. auto.
Qed.

Lemma unit_header_iff (isMultiRepo : bool) (prev : Last) (x : IndexStatus.t) (t : string) :
  mkLine KUnit t ∈ renderText isMultiRepo prev x
  <-> exists u, IndexStatus.Unit x = Some u
        /\ t = repoTab isMultiRepo +:+ tab +:+ ID2.Name (UnitPtr.val u) +:+ " "
               +:+ ID2.Type_ (UnitPtr.val u) +:+ nl
        /\ ptrEq (Some u) (lastUnit prev) = false.
Proof.
  rewrite in_renderText, in_repoLines, in_commitLines, in_unitLines. split.
  - intros [Hx|[Hx|[Hx|Hx]]].
    + destruct Hx as (? & ? & [(? & _)|[? _]]); discriminate.
    + destruct Hx as (_ & ? & _); discriminate.
    + destruct Hx as (u & Hu & Hp & [(? & _)|[_ ->]]); [discriminate | eauto].
    + apply (f_equal kind) in Hx; discriminate.
  - intros (u & Hu & -> & Hp). right; right; left. exists u. auto.
Qed.

(** Two distinct identities cannot sit behind one address. *)
Lemma ptrEq_false_of_val (u v : UnitPtr.t) :
  (UnitPtr.addr v = UnitPtr.addr u -> UnitPtr.val v = UnitPtr.val u) ->
  UnitPtr.val v <> UnitPtr.val u ->
  ptrEq (Some u) (Some v) = false.
Proof.
  intros Hcons Hne. simpl. apply Pos.eqb_neq. intros Heq. apply Hne, Hcons. done.
Qed.
End ReportFacts.

Section PipelineTheorems.
Context `{External}.

Lemma doStoreIndexesCmd_json (storeCmd : StoreCmd.t) (crit : IndexCriteria.t)
    (f : StoreValue -> IndexCriteria.t -> Script) (s : StoreValue) :
  StoreCmd_store storeCmd = inr s ->
  doStoreIndexesCmd storeCmd crit (storeIndexOptions.mk "json") f
  = spawned JSON (f s crit).
Proof. intros Hs. unfold doStoreIndexesCmd. by rewrite Hs. Qed.

Lemma doStoreIndexesCmd_text (storeCmd : StoreCmd.t) (crit : IndexCriteria.t)
    (f : StoreValue -> IndexCriteria.t -> Script) (s : StoreValue) :
  StoreCmd_store storeCmd = inr s ->
  doStoreIndexesCmd storeCmd crit (storeIndexOptions.mk "text") f
  = spawned (Text (implements MultiRepoStore s)) (f s crit).
Proof. intros Hs. unfold doStoreIndexesCmd. by rewrite Hs. Qed.

(** Either the goroutines were started on f's script, or the command
    returned at once: the backend could not be built or --output is
    neither "json" nor "text". *)
Lemma doStoreIndexesCmd_cases (storeCmd : StoreCmd.t) (crit : IndexCriteria.t)
    (opt : storeIndexOptions.t) (f : StoreValue -> IndexCriteria.t -> Script) :
  (exists err, doStoreIndexesCmd storeCmd crit opt f = failedEarly err
               /\ forall s, StoreCmd_store storeCmd = inr s ->
                    storeIndexOptions.Output opt <> "json"
                    /\ storeIndexOptions.Output opt <> "text")
  \/ (exists s m, StoreCmd_store storeCmd = inr s
                  /\ doStoreIndexesCmd storeCmd crit opt f = spawned m (f s crit)).
Proof.
  unfold doStoreIndexesCmd. destruct (StoreCmd_store storeCmd) as [err|s] eqn:Hs.
  - left. exists err. split; [done | intros s [=]].
  - destruct (String.eqb_spec (storeIndexOptions.Output opt) "json") as [Hj|Hj];
      [right; eauto|].
    destruct (String.eqb_spec (storeIndexOptions.Output opt) "text") as [Ht|Ht];
      [right; eauto|].
    left. eexists. split; [done|]. intros s' _. done.
Qed.

(** C2.  In every execution of [doStoreIndexesCmd], at every point the
    command can reach: if it has returned, the statuses rendered by the
    consumer are exactly the statuses the backend call sent, in order
    (all of f's statuses when f was run), whatever error f returned; if
    it has not returned it is not stuck; and from any such point a run
    has at most [fuel st] further steps, so the command does return. *)
Theorem status_channel_drained (storeCmd : StoreCmd.t) (crit : IndexCriteria.t)
    (opt : storeIndexOptions.t) (f : StoreValue -> IndexCriteria.t -> Script)
    (st : PState) :
  rtc step (doStoreIndexesCmd storeCmd crit opt f) st ->
  (is_Some (returned st) ->
     rendered st = sent st
     /\ length (rendered st) = length (sent st)
     /\ forall s, StoreCmd_store storeCmd = inr s ->
          storeIndexOptions.Output opt = "json"
          \/ storeIndexOptions.Output opt = "text" ->
          rendered st = emits (f s crit))
  /\ (returned st = None -> exists st', step st st')
  /\ (forall n st', nsteps step n st st' -> (n + fuel st' <= fuel st)%nat).
Proof.
  intros Hr. split; [|split].
  - intros Hret.
    destruct (doStoreIndexesCmd_cases storeCmd crit opt f)
      as [(err & Hstart & Hwhy) | (s & m & Hs & Hstart)]; rewrite Hstart in Hr.
    + apply failedEarly_stuck in Hr as ->. simpl. repeat split.
      intros s Hs Hmode. destruct (Hwhy s Hs). tauto.
    + apply Inv_reach in Hr. destruct (Inv_returned _ _ _ Hr Hret) as [Hrend Hsent].
      rewrite Hrend, Hsent. repeat split. intros s' Hs' _. congruence.
  - intros Hnot.
    destruct (doStoreIndexesCmd_cases storeCmd crit opt f)
      as [(err & Hstart & _) | (s & m & Hs & Hstart)]; rewrite Hstart in Hr.
    + apply failedEarly_stuck in Hr as ->. done.
    + apply Inv_reach in Hr. by eapply Inv_progress.
  - intros n st'. apply nsteps_fuel.
Qed.

(** C1, json mode.  When the backend call itself returns no error, a
    json-mode run returns nil on every schedule, whatever [Error] and
    [BuildError] the statuses carried: the json consumer never sets
    [hasError]. *)
Theorem json_mode_ignores_status_errors (storeCmd : StoreCmd.t)
    (crit : IndexCriteria.t) (f : StoreValue -> IndexCriteria.t -> Script)
    (s : StoreValue) (st : PState) (r : option string) :
  StoreCmd_store storeCmd = inr s ->
  ferr (f s crit) = None ->
  rtc step (doStoreIndexesCmd storeCmd crit (storeIndexOptions.mk "json") f) st ->
  returned st = Some r ->
  r = None.
Proof.
  intros Hs Hferr Hr Hret. rewrite (doStoreIndexesCmd_json _ _ _ _ Hs) in Hr.
  apply Inv_reach in Hr. destruct Hr as [_ _ _ _ _ _ _ Hres].
  unfold returned in Hret. destruct (main st); try done.
  injection Hret as ->. destruct Hres as (k & _ & ->). by rewrite Hferr.
Qed.

(** Text mode: an error carried by any status but the last is reported
    on every schedule. *)
Lemma text_mode_reports_earlier_errors (isMultiRepo : bool) (sc : Script)
    (st : PState) (r : option string) (pre : list IndexStatus.t) (x : IndexStatus.t) :
  emits sc = pre ++ [x] ->
  existsb carriesError pre = true ->
  rtc step (spawned (Text isMultiRepo) sc) st ->
  returned st = Some r ->
  r <> None.
Proof.
  intros Hev Hpre Hr Hret. apply Inv_reach in Hr.
  destruct Hr as [_ _ _ _ _ _ _ Hres].
  unfold returned in Hret. destruct (main st); try done.
  injection Hret as ->. destruct Hres as (k & Hk & ->).
  assert (flagged (Text isMultiRepo) (take k (emits sc)) = true) as ->.
  { rewrite Hev in *. rewrite length_app in Hk. simpl in Hk.
    rewrite take_app_ge by lia. simpl. rewrite existsb_app, Hpre. done. }
  unfold returnValue. by destruct (ferr sc).
Qed.

(** C9.  A text-mode run that has returned printed, for the status [x]
    that followed the statuses [pre], the block [renderText] computes
    from the previous status's repository, commit and unit pointer (the
    empty values before the first status).  In that block the repository
    header is present exactly when the store is multi-repo and [x]'s
    repository differs from the previous one; the commit line exactly
    when the commit ID differs; the unit header exactly when [x] carries
    a unit whose pointer differs from the previous one, hence whenever
    [x] carries a unit whose identity differs from the previous status's
    (no unit before counts as different). *)
Theorem text_report_headers (storeCmd : StoreCmd.t) (crit : IndexCriteria.t)
    (f : StoreValue -> IndexCriteria.t -> Script) (s : StoreValue) (st : PState)
    (pre post : list IndexStatus.t) (x : IndexStatus.t) :
  StoreCmd_store storeCmd = inr s ->
  rtc step (doStoreIndexesCmd storeCmd crit (storeIndexOptions.mk "text") f) st ->
  is_Some (returned st) ->
  emits (f s crit) = pre ++ x :: post ->
  out st = renderAll (implements MultiRepoStore s) noLast pre
           ++ renderText (implements MultiRepoStore s) (lastAfter noLast pre) x
           ++ renderAll (implements MultiRepoStore s) (lastOf x) post
  /\ (forall pre' p, pre = pre' ++ [p] -> lastAfter noLast pre = lastOf p)
  /\ (forall t,
        mkLine KRepo t
          ∈ renderText (implements MultiRepoStore s) (lastAfter noLast pre) x
        <-> t = IndexStatus.Repo x +:+ nl
            /\ implements MultiRepoStore s = true
            /\ IndexStatus.Repo x <> lastRepo (lastAfter noLast pre))
  /\ (forall t,
        mkLine KCommit t
          ∈ renderText (implements MultiRepoStore s) (lastAfter noLast pre) x
        <-> t = repoTab (implements MultiRepoStore s) +:+ IndexStatus.CommitID x +:+ nl
            /\ IndexStatus.CommitID x <> lastCommitID (lastAfter noLast pre))
  /\ (forall t,
        mkLine KUnit t
          ∈ renderText (implements MultiRepoStore s) (lastAfter noLast pre) x
        <-> exists u, IndexStatus.Unit x = Some u
              /\ t = repoTab (implements MultiRepoStore s) +:+ tab
                     +:+ ID2.Name (UnitPtr.val u) +:+ " "
                     +:+ ID2.Type_ (UnitPtr.val u) +:+ nl
              /\ ptrEq (Some u) (lastUnit (lastAfter noLast pre)) = false)
  /\ (forall u,
        IndexStatus.Unit x = Some u ->
        (forall v, lastUnit (lastAfter noLast pre) = Some v ->
           (UnitPtr.addr v = UnitPtr.addr u -> UnitPtr.val v = UnitPtr.val u)
           /\ UnitPtr.val v <> UnitPtr.val u) ->
        mkLine KUnit (repoTab (implements MultiRepoStore s) +:+ tab
                      +:+ ID2.Name (UnitPtr.val u) +:+ " "
                      +:+ ID2.Type_ (UnitPtr.val u) +:+ nl)
          ∈ renderText (implements MultiRepoStore s) (lastAfter noLast pre) x).
Proof.
  intros Hs Hr Hret Hev. rewrite (doStoreIndexesCmd_text _ _ _ _ Hs) in Hr.
  apply Inv_reach in Hr. destruct (Inv_returned _ _ _ Hr Hret) as [Hrend _].
  destruct Hr as [_ _ _ _ _ Hout _ _].
  split; [|split; [|split; [|split; [|split]]]].
  - rewrite Hout, Hrend, Hev. simpl. by rewrite renderAll_app.
  - intros pre' p ->. apply lastAfter_snoc.
  - intros t. apply repo_header_iff.
  - intros t. apply commit_line_iff.
  - intros t. apply unit_header_iff.
  - intros u Hu Hprev. apply unit_header_iff. exists u. repeat split; [done|].
    destruct (lastUnit (lastAfter noLast pre)) as [v|] eqn:Hv; [|done].
    destruct (Hprev v eq_refl) as [Hcons Hne]. by apply ptrEq_false_of_val.
Qed.
End PipelineTheorems.

(** *** The pipeline on concrete runs *)

Lemma json_mode_ignores_status_errors_witness :
  carriesError Demo.boom = true
  /\ returned (Demo.after (H := Runs.ext) (Demo.firstEnabled 6) Runs.jsonBoom)
     = Some (Demo.resultOf (H := Runs.ext)
               (Demo.after (H := Runs.ext) (Demo.firstEnabled 6) Runs.jsonBoom))
  /\ Demo.resultOf (H := Runs.ext)
       (Demo.after (H := Runs.ext) (Demo.firstEnabled 6) Runs.jsonBoom) = None.
Proof.
  split; [reflexivity|]. split; [vm_compute; reflexivity|].
  apply (json_mode_ignores_status_errors (H := Runs.ext) Demo.repoStoreCmd
           Demo.noCriteria (Demo.backend [Demo.boom] None)
           (FSRepoStore (OS "./store") true)
           (Demo.after (H := Runs.ext) (Demo.firstEnabled 6) Runs.jsonBoom)).
  - reflexivity.
  - reflexivity.
  - apply (runSchedule_rtc (H := Runs.ext) (Demo.firstEnabled 6)).
    vm_compute. reflexivity.
  - vm_compute. reflexivity.
Defined.

(** In text mode the flag is read when f returns, before the deferred
    drain: if the consumer has not yet run its loop body on the last
    status, that status's error is missed.  Both outcomes are reachable
    for the same script. *)
Example text_mode_last_status_race :
  Demo.resultOf (H := Runs.ext)
    (Demo.after (H := Runs.ext) (Demo.firstEnabled 6) Runs.textBoom) = None
  /\ Demo.resultOf (H := Runs.ext)
       (Demo.after (H := Runs.ext) [0; 1; 0; 0; 0; 0]%nat Runs.textBoom)
     = Some errorMsgIndexes
  /\ rendered (Demo.after (H := Runs.ext) (Demo.firstEnabled 6) Runs.textBoom)
     = [Demo.boom].
Proof. vm_compute. repeat split. Qed.

Lemma status_channel_drained_witness :
  returned
    (Demo.after (H := Runs.ext) (Demo.firstEnabled 10) Runs.textThree)
  = Some (Some "backend failed")
  /\ rendered (Demo.after (H := Runs.ext) (Demo.firstEnabled 10) Runs.textThree)
     = Demo.threeStatuses.
Proof.
  split; [vm_compute; reflexivity|].
  refine (proj2 (proj2 (proj1
    (status_channel_drained (H := Runs.ext) Demo.repoStoreCmd Demo.noCriteria
       Demo.textOpt (Demo.backend Demo.threeStatuses (Some "backend failed"))
       (Demo.after (H := Runs.ext) (Demo.firstEnabled 10) Runs.textThree) _) _))
    (FSRepoStore (OS "./store") true) eq_refl (or_intror eq_refl)).
  - apply (runSchedule_rtc (H := Runs.ext) (Demo.firstEnabled 10)).
    vm_compute. reflexivity.
  - eexists. vm_compute. reflexivity.
Defined.

Lemma text_report_headers_witness :
  out (Demo.after (H := Runs.ext) (Demo.firstEnabled 10) Runs.textThree)
  = renderAll (H := Runs.ext) false noLast [Demo.status "r1" "c1" (Some Demo.unitA) "defs" ""]
    ++ renderText (H := Runs.ext) false
         (lastOf (Demo.status "r1" "c1" (Some Demo.unitA) "defs" ""))
         (Demo.status "r1" "c1" (Some Demo.unitA) "refs" "")
    ++ renderAll (H := Runs.ext) false
         (lastOf (Demo.status "r1" "c1" (Some Demo.unitA) "refs" ""))
         [Demo.status "r2" "c2" (Some Demo.unitB) "defs" ""].
Proof.
  refine (proj1
    (text_report_headers (H := Runs.ext) Demo.repoStoreCmd Demo.noCriteria
       (Demo.backend Demo.threeStatuses (Some "backend failed"))
       (FSRepoStore (OS "./store") true)
       (Demo.after (H := Runs.ext) (Demo.firstEnabled 10) Runs.textThree)
       [Demo.status "r1" "c1" (Some Demo.unitA) "defs" ""]
       [Demo.status "r2" "c2" (Some Demo.unitB) "defs" ""]
       (Demo.status "r1" "c1" (Some Demo.unitA) "refs" "")
       eq_refl _ _ eq_refl)).
  - apply (runSchedule_rtc (H := Runs.ext) (Demo.firstEnabled 10)).
    vm_compute. reflexivity.
  - eexists. vm_compute. reflexivity.
Defined.

(** The report for three statuses of two repositories, by line kind, on
    a multi-repo store and on a single-repo store. *)
Example text_report_of_three_statuses :
  map kind (printed (H := Runs.ext) (Text true) Demo.threeStatuses)
  = [KRepo; KCommit; KUnit; KDetail; KDetail; KBlank; KRepo; KCommit; KUnit; KDetail]
  /\ map kind (printed (H := Runs.ext) (Text false) Demo.threeStatuses)
     = [KCommit; KUnit; KDetail; KDetail; KCommit; KUnit; KDetail].
Proof. split; vm_compute; reflexivity. Qed.

(** The unit test compares pointers: the same identity behind a second
    address gets its header again. *)
Example unit_header_follows_pointer :
  map kind (printed (H := Runs.ext) (Text false)
              [Demo.status "r1" "c1" (Some (UnitPtr.mk 1 (ID2.mk "GoPackage" "a"))) "defs" "";
               Demo.status "r1" "c1" (Some (UnitPtr.mk 3 (ID2.mk "GoPackage" "a"))) "refs" ""])
  = [KCommit; KUnit; KDetail; KBlank; KUnit; KDetail].
Proof. vm_compute. reflexivity. Qed.

(** ** The import command *)

Lemma skipRule_passes (c : StoreImportCmd.t) (rule : Rule.t) :
  skipRule c rule = false <-> passes c rule.
Proof.
  unfold skipRule, passes.
  destruct (nonempty (StoreImportCmd.Unit c)) eqn:Hu,
    (nonempty (StoreImportCmd.UnitType c)) eqn:Ht; simpl;
    rewrite ?nonempty_true, ?nonempty_false in *.
  all: try (destruct (Rule.SourceUnit rule) as [u|] eqn:Hsu).
  all: rewrite ?orb_false_iff, ?andb_false_iff, ?negb_false_iff, ?String.eqb_eq,
         ?orb_false_r.
  all: split; intros Hx.
  all: try (right; exists u; split; [done|]; split; intros; try done; tauto).
  all: try (destruct Hx as [[? ?]|(u' & Hu' & Hn & Hty)]; simplify_eq; tauto).
  all: try (destruct Hx as [[? ?]|(u' & Hu' & Hn & Hty)]; simplify_eq; done).
  all: try (left; done).
  all: try done.
Qed.

Section ImportFacts.
Context `{External} `{ImportWorld}.

(** The loop body, spelled out without the monad. *)
Lemma importRule_eq (c : StoreImportCmd.t) (s : StoreValue) (bdfs : BuildDataFS)
    (rule : Rule.t) (tr : list ImportEvent) :
  importRule c s bdfs rule tr =
  if skipRule c rule then (tr, inr tt)
  else
    match Rule.Graph rule with
    | None => (tr, inr tt)
    | Some g =>
        match readJSONFileFS bdfs (GraphUnitRule.Target g) with
        | inl err => (tr ++ [ReadFile (GraphUnitRule.Target g)], inl (Returned (Some err)))
        | inr data =>
            let tr1 :=
              (tr ++ [ReadFile (GraphUnitRule.Target g)])
              ++ (if StoreImportCmd.DryRun c || GlobalOpt_Verbose
                  then [graphLog data g] else []) in
            if StoreImportCmd.DryRun c then (tr1, inr tt)
            else
              match importerCall s (StoreImportCmd.Repo c) (StoreImportCmd.CommitID c)
                                 (GraphUnitRule.Unit g) (transferDocs data) with
              | inl err => (tr1, inl (Returned (Some err)))
              | inr call =>
                  (tr1 ++ [Imported call],
                   match imp_Import s (importsOf tr1) call with
                   | Some err => inl (Returned (Some err))
                   | None => inr tt
                   end)
              end
        end
    end.
Proof.
  unfold importRule. destruct (skipRule c rule); [done|].
  destruct (Rule.Graph rule) as [g|]; [|done].
  unfold graphLog. run_monad.
  destruct (readJSONFileFS bdfs (GraphUnitRule.Target g)) as [err|data]; [done|].
  destruct (StoreImportCmd.DryRun c); run_monad; [done|].
  destruct GlobalOpt_Verbose; run_monad;
    destruct (importerCall _ _ _ _ _) as [err|call]; run_monad;
    rewrite ?app_nil_r; try done;
    by destruct (imp_Import _ _ _).
Qed.

Lemma importRules_cons (c : StoreImportCmd.t) (s : StoreValue) (bdfs : BuildDataFS)
    (rule : Rule.t) (rest : list Rule.t) (tr : list ImportEvent) :
  importRules c s bdfs (rule :: rest) tr =
  match importRule c s bdfs rule tr with
  | (tr', inl e) => (tr', inl e)
  | (tr', inr _) => importRules c s bdfs rest tr'
  end.
Proof. done. Qed.
Lemma importsOf_app (tr tr' : list ImportEvent) :
  importsOf (tr ++ tr') = importsOf tr ++ importsOf tr'.
Proof. apply omap_app. Qed.

Lemma graphSurvivors_cons (c : StoreImportCmd.t) (rule : Rule.t) (rest : list Rule.t) :
  graphSurvivors c (rule :: rest)
  = match (if skipRule c rule then None else Rule.Graph rule) with
    | Some g => g :: graphSurvivors c rest
    | None => graphSurvivors c rest
    end.
Proof. done. Qed.

(** A dry run of the loop only reads and logs. *)
Lemma importRules_dry (c : StoreImportCmd.t) (s : StoreValue) (bdfs : BuildDataFS)
    (rules : list Rule.t) :
  StoreImportCmd.DryRun c = true ->
  forall tr,
    importRules c s bdfs rules tr
    = (tr ++ (dryRunTrace bdfs (graphSurvivors c rules)).1,
       match (dryRunTrace bdfs (graphSurvivors c rules)).2 with
       | Some err => inl (Returned (Some err))
       | None => inr tt
       end).
Proof.
  intros Hdry. induction rules as [|rule rest IH]; intros tr.
  - simpl. by rewrite app_nil_r.
  - rewrite importRules_cons, importRule_eq, graphSurvivors_cons.
    destruct (skipRule c rule); [apply IH|].
    destruct (Rule.Graph rule) as [g|]; [|apply IH].
    simpl. destruct (readJSONFileFS bdfs (GraphUnitRule.Target g)) as [err|data]; [done|].
    rewrite Hdry. simpl. rewrite IH. simpl. by rewrite <- !app_assoc.
Qed.

(** A non-dry run of the loop imports the data of a prefix of the
    surviving graph rules, each through [callFor], and nothing else. *)
Lemma importRules_prefix (c : StoreImportCmd.t) (s : StoreValue) (bdfs : BuildDataFS)
    (rules : list Rule.t) :
  StoreImportCmd.DryRun c = false ->
  forall tr, exists k,
    importsOf (importRules c s bdfs rules tr).1
    = importsOf tr ++ omap (callFor c s bdfs) (take k (graphSurvivors c rules)).
Proof.
  intros Hdry. induction rules as [|rule rest IH]; intros tr.
  - exists 0%nat. simpl. by rewrite app_nil_r.
  - rewrite importRules_cons, importRule_eq, graphSurvivors_cons.
    destruct (skipRule c rule); [apply IH|].
    destruct (Rule.Graph rule) as [g|]; [|apply IH].
    destruct (readJSONFileFS bdfs (GraphUnitRule.Target g)) as [err|data] eqn:Hread.
    { exists 0%nat. simpl. by rewrite importsOf_app, !app_nil_r. }
    rewrite Hdry. cbn zeta. cbn [orb].
    set (tr1 := (tr ++ [ReadFile (GraphUnitRule.Target g)]) ++ _).
    assert (importsOf tr1 = importsOf tr) as Htr1.
    { unfold tr1. rewrite !importsOf_app. destruct GlobalOpt_Verbose; simpl;
        by rewrite !app_nil_r. }
    destruct (importerCall _ _ _ _ _) as [err|call] eqn:Hcall.
    { exists 0%nat. simpl. by rewrite Htr1, app_nil_r. }
    assert (callFor c s bdfs g = Some call) as Hfor
      by (unfold callFor; by rewrite Hread, Hcall).
    destruct (imp_Import s (importsOf tr1) call) as [err|].
    + exists 1%nat. simpl. rewrite Hfor. by rewrite importsOf_app, Htr1.
    + destruct (IH (tr1 ++ [Imported call])) as [k Hk]. exists (S k).
      rewrite Hk. simpl. rewrite Hfor.
      rewrite importsOf_app, Htr1. simpl. by rewrite <- app_assoc.
Qed.

(** When every surviving graph rule can be read and imported and no import
    fails, the loop imports all of them, in order. *)
Lemma importRules_all (c : StoreImportCmd.t) (s : StoreValue) (bdfs : BuildDataFS)
    (rules : list Rule.t) :
  StoreImportCmd.DryRun c = false ->
  (forall g, g ∈ graphSurvivors c rules -> is_Some (callFor c s bdfs g)) ->
  (forall hist call, imp_Import s hist call = None) ->
  forall tr, exists tr',
    importRules c s bdfs rules tr = (tr', inr tt)
    /\ importsOf tr' = importsOf tr ++ omap (callFor c s bdfs) (graphSurvivors c rules).
Proof.
  intros Hdry Hall Himp. induction rules as [|rule rest IH]; intros tr.
  - exists tr. simpl. by rewrite app_nil_r.
  - rewrite importRules_cons, importRule_eq. rewrite graphSurvivors_cons in *.
    destruct (skipRule c rule); [by apply IH|].
    destruct (Rule.Graph rule) as [g|]; [|by apply IH].
    destruct (Hall g) as [call Hcall]; [by left|].
    simpl. rewrite Hcall. unfold callFor in Hcall.
    destruct (readJSONFileFS bdfs (GraphUnitRule.Target g)) as [err|data]; [done|].
    rewrite Hdry. cbn zeta. cbn [orb].
    set (tr1 := (tr ++ [ReadFile (GraphUnitRule.Target g)]) ++ _).
    assert (importsOf tr1 = importsOf tr) as Htr1.
    { unfold tr1. rewrite !importsOf_app. destruct GlobalOpt_Verbose; simpl;
        by rewrite !app_nil_r. }
    destruct (importerCall _ _ _ _ _) as [err|call'] eqn:Hic; [done|].
    injection Hcall as <-. rewrite Himp.
    destruct (IH (fun g' Hg' => Hall g' (list_elem_of_further _ _ _ Hg'))
                 (tr1 ++ [Imported call'])) as (tr' & Hrun & Himps).
    exists tr'. split; [done|].
    rewrite Himps, importsOf_app, Htr1. simpl. by rewrite <- app_assoc.
Qed.

(** Without an importer a non-dry run stops at the first surviving graph
    rule: on the failed read, or else on the missing capability. *)
Lemma importRules_no_importer (c : StoreImportCmd.t) (s : StoreValue)
    (bdfs : BuildDataFS) (rules : list Rule.t) :
  StoreImportCmd.DryRun c = false ->
  implements RepoImporter s = false ->
  implements MultiRepoImporter s = false ->
  forall tr,
    importRules c s bdfs rules tr
    = match graphSurvivors c rules with
      | [] => (tr, inr tt)
      | g :: _ =>
          match readJSONFileFS bdfs (GraphUnitRule.Target g) with
          | inl err =>
              (tr ++ [ReadFile (GraphUnitRule.Target g)], inl (Returned (Some err)))
          | inr data =>
              ((tr ++ [ReadFile (GraphUnitRule.Target g)])
                ++ (if GlobalOpt_Verbose then [graphLog data g] else []),
               inl (Returned (Some (notImplemented s "importing"))))
          end
      end.
Proof.
  intros Hdry Hr Hm. induction rules as [|rule rest IH]; intros tr; [done|].
  rewrite importRules_cons, importRule_eq, graphSurvivors_cons.
  destruct (skipRule c rule); [apply IH|].
  destruct (Rule.Graph rule) as [g|]; [|apply IH].
  destruct (readJSONFileFS bdfs (GraphUnitRule.Target g)) as [err|data]; [done|].
  rewrite Hdry. unfold importerCall. by rewrite Hr, Hm.
Qed.

Lemma Execute_loop (storeCmd : StoreCmd.t) (c : StoreImportCmd.t) (s : StoreValue)
    (bdfs : BuildDataFS) (label : string) (rules : list Rule.t) :
  StoreImportCmd.Sample c = false ->
  StoreCmd_store storeCmd = inr s ->
  buildData c bdfs label rules ->
  StoreImportCmd_Execute storeCmd c
  = match importRules c s bdfs rules (prelude c label) with
    | (tr, inl e) => mkImportRun tr e
    | (tr, inr _) => mkImportRun (tr ++ [Logged LogImportCompleted]) (Returned None)
    end.
Proof.
  intros Hsample Hs (vcsType & treeConfig & Hrepo & Hfs & Hcfg & Hplan).
  unfold StoreImportCmd_Execute, runM, prelude. rewrite Hs, Hsample. run_monad.
  rewrite Hrepo. run_monad. rewrite Hfs. run_monad.
  destruct GlobalOpt_Verbose; run_monad; rewrite Hcfg; run_monad; rewrite Hplan;
    run_monad; by destruct (importRules c s bdfs rules _) as [tr [e|[]]].
Qed.

(** Outside sample mode [Execute] either stops before the loop, having
    at most logged where the build data comes from, or runs the loop on
    its build data. *)
Lemma Execute_cases (storeCmd : StoreCmd.t) (c : StoreImportCmd.t) :
  StoreImportCmd.Sample c = false ->
  (exists err, result (StoreImportCmd_Execute storeCmd c) = Returned (Some err)
               /\ (trace (StoreImportCmd_Execute storeCmd c) = []
                   \/ exists label,
                        trace (StoreImportCmd_Execute storeCmd c) = prelude c label))
  \/ (exists s bdfs label rules,
        StoreCmd_store storeCmd = inr s /\ buildData c bdfs label rules).
Proof.
  intros Hsample.
  destruct (StoreCmd_store storeCmd) as [err|s] eqn:Hs.
  { left. exists err. unfold StoreImportCmd_Execute, runM. rewrite Hs. run_monad. auto. }
  destruct openLocalRepo as [err|vcsType] eqn:Hrepo.
  { left. exists err. unfold StoreImportCmd_Execute, runM. rewrite Hs, Hsample.
    run_monad. rewrite Hrepo. run_monad. auto. }
  destruct (getBuildDataFS (negb (StoreImportCmd.RemoteBuildData c))
         (if nonempty (StoreImportCmd.RemoteBuildDataRepo c)
          then StoreImportCmd.RemoteBuildDataRepo c else StoreImportCmd.Repo c)
         (StoreImportCmd.CommitID c)) as [err|[bdfs label]] eqn:Hfs.
  { left. exists err. unfold StoreImportCmd_Execute, runM. rewrite Hs, Hsample.
    run_monad. rewrite Hrepo. run_monad. rewrite Hfs. run_monad. auto. }
  destruct (config_ReadCached bdfs) as [err|treeConfig] eqn:Hcfg.
  { left. exists err. unfold StoreImportCmd_Execute, runM, prelude.
    rewrite Hs, Hsample. run_monad. rewrite Hrepo. run_monad. rewrite Hfs. run_monad.
    destruct GlobalOpt_Verbose; run_monad; rewrite Hcfg; run_monad; eauto. }
  destruct (plan_CreateMakefile vcsType treeConfig) as [err|rules] eqn:Hplan.
  { left. exists err. unfold StoreImportCmd_Execute, runM, prelude.
    rewrite Hs, Hsample. run_monad. rewrite Hrepo. run_monad. rewrite Hfs. run_monad.
    destruct GlobalOpt_Verbose; run_monad; rewrite Hcfg; run_monad; rewrite Hplan;
      run_monad; eauto. }
  right. exists s, bdfs, label, rules. split; [done|].
  exists vcsType, treeConfig. done.
Qed.
End ImportFacts.

(** *** Documentation merge *)

Lemma docsByPath_snoc (docs : list Doc.t) (d : Doc.t) :
  docsByPath (docs ++ [d]) = <[Doc.Path d := d]> (docsByPath docs).
Proof. unfold docsByPath. by rewrite foldl_app. Qed.

Lemma docsByPath_none (docs : list Doc.t) (p : string) :
  (forall d, d ∈ docs -> Doc.Path d <> p) -> docsByPath docs !! p = None.
Proof.
  induction docs as [|d docs IH] using rev_ind; intros Hnone; [done|].
  rewrite docsByPath_snoc, lookup_insert_ne.
  - apply IH. intros d' Hd'. apply Hnone, elem_of_app. by left.
  - apply Hnone, elem_of_app. right. by apply list_elem_of_singleton.
Qed.

(** The map holds, for each path, the last doc of the list with that path. *)
Lemma docsByPath_last (l1 l2 : list Doc.t) (d : Doc.t) :
  (forall d', d' ∈ l2 -> Doc.Path d' <> Doc.Path d) ->
  docsByPath (l1 ++ d :: l2) !! Doc.Path d = Some d.
Proof.
  induction l2 as [|e l2 IH] using rev_ind; intros Hlast.
  - by rewrite docsByPath_snoc, lookup_insert_eq.
  - change (l1 ++ d :: l2 ++ [e]) with (l1 ++ (d :: l2) ++ [e]).
    rewrite app_assoc, docsByPath_snoc, lookup_insert_ne.
    + apply IH. intros d' Hd'. apply Hlast, elem_of_app. by left.
    + apply Hlast, elem_of_app. right. by apply list_elem_of_singleton.
Qed.

(** The transformation keeps every definition in place and touches
    nothing but its [Docs]. *)
Lemma transferDocs_def (data : Output.t) (i : nat) (def : Def.t) :
  Output.Defs data !! i = Some def ->
  exists def',
    Output.Defs (transferDocs data) !! i = Some def'
    /\ def' = Def.mk (Def.Path def) (Def.Name def) (Def.Kind def) (Def.DefStart def)
                     (Def.DefEnd def) (Def.File def) (Def.Exported def)
                     (Def.Local_ def) (Def.Data def) (Def.Docs def')
    /\ ((forall d, d ∈ Output.Docs data -> Doc.Path d <> Def.Path def) ->
        Def.Docs def' = Def.Docs def)
    /\ (forall l1 d l2,
          Output.Docs data = l1 ++ d :: l2 ->
          Doc.Path d = Def.Path def ->
          (forall d', d' ∈ l1 ++ l2 -> Doc.Path d' <> Def.Path def) ->
          Def.Docs def' = Def.Docs def ++ [DefDoc.mk (Doc.Format d) (Doc.Data d)])
    /\ (forall l1 d l2,
          Output.Docs data = l1 ++ d :: l2 ->
          Doc.Path d = Def.Path def ->
          (forall d', d' ∈ l2 -> Doc.Path d' <> Def.Path def) ->
          Def.Docs def' = Def.Docs def ++ [DefDoc.mk (Doc.Format d) (Doc.Data d)]).
Proof.
  intros Hi. exists (attachDoc (docsByPath (Output.Docs data)) def).
  assert (forall l1 d l2,
            Output.Docs data = l1 ++ d :: l2 ->
            Doc.Path d = Def.Path def ->
            (forall d', d' ∈ l2 -> Doc.Path d' <> Def.Path def) ->
            Def.Docs (attachDoc (docsByPath (Output.Docs data)) def)
            = Def.Docs def ++ [DefDoc.mk (Doc.Format d) (Doc.Data d)]) as Hlast.
  { intros l1 d l2 Hdocs Hpath Hl2. unfold attachDoc.
    rewrite Hdocs, <- Hpath, docsByPath_last; [done|].
    intros d' Hd'. rewrite Hpath. by apply Hl2. }
  split; [|split; [|split; [|split]]].
  - unfold transferDocs. simpl.
    change (map ?f ?l) with (f <$> l). rewrite list_lookup_fmap, Hi. reflexivity.
  - unfold attachDoc.
    destruct (docsByPath (Output.Docs data) !! Def.Path def); [reflexivity|].
    by destruct def.
  - intros Hnone. unfold attachDoc. by rewrite docsByPath_none.
  - intros l1 d l2 Hdocs Hpath Hothers. apply (Hlast l1 d l2 Hdocs Hpath).
    intros d' Hd'. apply Hothers, elem_of_app. by right.
  - apply Hlast.
Qed.

Lemma transferDocs_frame (data : Output.t) :
  length (Output.Defs (transferDocs data)) = length (Output.Defs data)
  /\ Output.Refs (transferDocs data) = Output.Refs data
  /\ Output.Docs (transferDocs data) = Output.Docs data
  /\ Output.Anns (transferDocs data) = Output.Anns data.
Proof. unfold transferDocs. simpl. by rewrite length_map. Qed.

(** *** Rule filtering, dry runs and the importer capability *)

Section ImportTheorems.
Context `{External} `{ImportWorld}.

Lemma elem_of_graphSurvivors (c : StoreImportCmd.t) (rules : list Rule.t)
    (g : GraphUnitRule.t) :
  g ∈ graphSurvivors c rules
  <-> exists rule, rule ∈ rules /\ passes c rule /\ Rule.Graph rule = Some g.
Proof.
  unfold graphSurvivors. rewrite list_elem_of_omap. split.
  - intros (rule & Hin & Hg). exists rule.
    destruct (skipRule c rule) eqn:Hskip; [done|].
    by apply skipRule_passes in Hskip.
  - intros (rule & Hin & Hpass & Hg). exists rule. split; [done|].
    apply skipRule_passes in Hpass. by rewrite Hpass.
Qed.

Lemma dryRunTrace_no_imports (bdfs : BuildDataFS) (gs : list GraphUnitRule.t) :
  importsOf (dryRunTrace bdfs gs).1 = [].
Proof.
  induction gs as [|g gs IH]; [done|]. simpl.
  by destruct (readJSONFileFS bdfs (GraphUnitRule.Target g)).
Qed.

Lemma prelude_no_imports (c : StoreImportCmd.t) (label : string) :
  importsOf (prelude c label) = [].
Proof. unfold prelude. by destruct GlobalOpt_Verbose. Qed.

(** Every import a non-sample run makes is the planned call of a graph
    rule that passed the filter. *)
Lemma imports_come_from_survivors (storeCmd : StoreCmd.t) (c : StoreImportCmd.t)
    (call : ImportCall) :
  StoreImportCmd.Sample c = false ->
  call ∈ importsOf (trace (StoreImportCmd_Execute storeCmd c)) ->
  exists s bdfs label rules g,
    StoreCmd_store storeCmd = inr s /\ buildData c bdfs label rules
    /\ StoreImportCmd.DryRun c = false
    /\ g ∈ graphSurvivors c rules /\ callFor c s bdfs g = Some call.
Proof.
  intros Hsample Hin.
  destruct (Execute_cases storeCmd c Hsample)
    as [(err & _ & [Htr | [label Htr]]) | (s & bdfs & label & rules & Hs & Hbd)].
  { rewrite Htr in Hin. by apply elem_of_nil in Hin. }
  { rewrite Htr, prelude_no_imports in Hin. by apply elem_of_nil in Hin. }
  rewrite (Execute_loop storeCmd c s bdfs label rules Hsample Hs Hbd) in Hin.
  destruct (StoreImportCmd.DryRun c) eqn:Hdry.
  { rewrite importRules_dry in Hin by done.
    destruct (dryRunTrace bdfs (graphSurvivors c rules)).2; simpl in Hin;
      rewrite ?importsOf_app, prelude_no_imports, dryRunTrace_no_imports in Hin;
      by apply elem_of_nil in Hin. }
  destruct (importRules_prefix c s bdfs rules Hdry (prelude c label)) as [k Hk].
  assert (call ∈ omap (callFor c s bdfs) (take k (graphSurvivors c rules))) as Hcall.
  { destruct (importRules c s bdfs rules (prelude c label)) as [tr [e|[]]];
      simpl in *; rewrite ?importsOf_app, Hk, prelude_no_imports in Hin;
      simpl in Hin; by rewrite ?app_nil_r in Hin. }
  apply list_elem_of_omap in Hcall as (g & Hg & Hfor).
  exists s, bdfs, label, rules, g. repeat split; try done.
  apply list_elem_of_lookup in Hg as [i Hi]. apply lookup_take_Some in Hi as [Hi _].
  by eapply list_elem_of_lookup_2.
Qed.

Lemma callFor_data (c : StoreImportCmd.t) (s : StoreValue) (bdfs : BuildDataFS)
    (g : GraphUnitRule.t) (call : ImportCall) :
  callFor c s bdfs g = Some call ->
  exists data, readJSONFileFS bdfs (GraphUnitRule.Target g) = inr data
               /\ callData call = transferDocs data.
Proof.
  unfold callFor, importerCall.
  destruct (readJSONFileFS bdfs (GraphUnitRule.Target g)) as [err|data]; [done|].
  intros Hcall. exists data. split; [done|].
  repeat case_match; by simplify_eq.
Qed.

(** C5.  In an import (outside sample mode) the graph output handed to the
    importer is the output read from a rule's target with the docs
    transferred: every definition stays in place and only its [Docs] can
    differ.  A definition whose path no doc record has is unchanged; one
    whose path exactly one doc record has gains exactly one entry, with
    that record's format and data, after the entries it already had; and
    when several records share the path, the entry gained is that of the
    last such record. *)
Theorem imported_defs_carry_docs (storeCmd : StoreCmd.t) (c : StoreImportCmd.t)
    (call : ImportCall) :
  StoreImportCmd.Sample c = false ->
  call ∈ importsOf (trace (StoreImportCmd_Execute storeCmd c)) ->
  exists bdfs g data,
    readJSONFileFS bdfs (GraphUnitRule.Target g) = inr data
    /\ callData call = transferDocs data
    /\ length (Output.Defs (callData call)) = length (Output.Defs data)
    /\ forall i def,
         Output.Defs data !! i = Some def ->
         exists def',
           Output.Defs (callData call) !! i = Some def'
           /\ def' = Def.mk (Def.Path def) (Def.Name def) (Def.Kind def)
                            (Def.DefStart def) (Def.DefEnd def) (Def.File def)
                            (Def.Exported def) (Def.Local_ def) (Def.Data def)
                            (Def.Docs def')
           /\ ((forall d, d ∈ Output.Docs data -> Doc.Path d <> Def.Path def) ->
               Def.Docs def' = Def.Docs def)
           /\ (forall l1 d l2,
                 Output.Docs data = l1 ++ d :: l2 ->
                 Doc.Path d = Def.Path def ->
                 (forall d', d' ∈ l1 ++ l2 -> Doc.Path d' <> Def.Path def) ->
                 Def.Docs def'
                 = Def.Docs def ++ [DefDoc.mk (Doc.Format d) (Doc.Data d)])
           /\ (forall l1 d l2,
                 Output.Docs data = l1 ++ d :: l2 ->
                 Doc.Path d = Def.Path def ->
                 (forall d', d' ∈ l2 -> Doc.Path d' <> Def.Path def) ->
                 Def.Docs def'
                 = Def.Docs def ++ [DefDoc.mk (Doc.Format d) (Doc.Data d)]).
Proof.
  intros Hsample Hin.
  destruct (imports_come_from_survivors storeCmd c call Hsample Hin)
    as (s & bdfs & label & rules & g & _ & _ & _ & _ & Hfor).
  destruct (callFor_data c s bdfs g call Hfor) as (data & Hread & Hdata).
  exists bdfs, g, data. rewrite Hdata. split; [done|]. split; [done|].
  split; [apply transferDocs_frame|]. intros i def. apply transferDocs_def.
Qed.

(** C4.  In an import (outside sample mode) every importer call is the
    planned call of a graph rule of the makefile that passes the filter;
    a rule exposing no source unit never passes when --unit or --unit-type
    is set; with both set, a source-unit rule passes exactly when its
    unit's name and type equal them (so of R1 = (t1, u1) and R2 = (t2, u2)
    under the filter t1, u1 only R1 is imported); and when nothing fails,
    the data of every passing graph rule is imported, in makefile order. *)
Theorem import_rule_filtering (storeCmd : StoreCmd.t) (c : StoreImportCmd.t) :
  StoreImportCmd.Sample c = false ->
  (forall call, call ∈ importsOf (trace (StoreImportCmd_Execute storeCmd c)) ->
     exists s bdfs label rules rule g,
       StoreCmd_store storeCmd = inr s /\ buildData c bdfs label rules
       /\ rule ∈ rules /\ passes c rule /\ Rule.Graph rule = Some g
       /\ callFor c s bdfs g = Some call)
  /\ (forall rule,
        Rule.SourceUnit rule = None ->
        StoreImportCmd.Unit c <> "" \/ StoreImportCmd.UnitType c <> "" ->
        ~ passes c rule)
  /\ (forall rule u,
        Rule.SourceUnit rule = Some u ->
        StoreImportCmd.Unit c <> "" -> StoreImportCmd.UnitType c <> "" ->
        (passes c rule
         <-> SourceUnit.Name u = StoreImportCmd.Unit c
             /\ SourceUnit.Type_ u = StoreImportCmd.UnitType c))
  /\ (forall s bdfs label rules,
        StoreCmd_store storeCmd = inr s -> buildData c bdfs label rules ->
        StoreImportCmd.DryRun c = false ->
        (forall g, g ∈ graphSurvivors c rules -> is_Some (callFor c s bdfs g)) ->
        (forall hist call, imp_Import s hist call = None) ->
        importsOf (trace (StoreImportCmd_Execute storeCmd c))
        = omap (callFor c s bdfs) (graphSurvivors c rules)
        /\ result (StoreImportCmd_Execute storeCmd c) = Returned None).
Proof.
  intros Hsample. split; [|split; [|split]].
  - intros call Hin.
    destruct (imports_come_from_survivors storeCmd c call Hsample Hin)
      as (s & bdfs & label & rules & g & Hs & Hbd & _ & Hg & Hfor).
    apply elem_of_graphSurvivors in Hg as (rule & Hrule & Hpass & Hgraph).
    exists s, bdfs, label, rules, rule, g. done.
  - intros rule Hnone Hset [[Hu Ht] | (u & Hsome & _)]; [tauto | congruence].
  - intros rule u Hu Hunit Htype. unfold passes. split.
    + intros [[Hu' _] | (u' & Hsome & Hn & Ht)]; [done|].
      rewrite Hu in Hsome. injection Hsome as <-. auto.
    + intros [Hn Ht]. right. exists u. auto.
  - intros s bdfs label rules Hs Hbd Hdry Hall Himp.
    rewrite (Execute_loop storeCmd c s bdfs label rules Hsample Hs Hbd).
    destruct (importRules_all c s bdfs rules Hdry Hall Himp (prelude c label))
      as (tr' & -> & Himps).
    simpl. rewrite importsOf_app, Himps, prelude_no_imports. simpl.
    by rewrite app_nil_r.
Qed.

Lemma prelude_events (c : StoreImportCmd.t) (label : string) (e : ImportEvent) :
  e ∈ prelude c label ->
  match e with ReadFile _ | Logged _ => True | _ => False end.
Proof.
  unfold prelude. destruct GlobalOpt_Verbose.
  - by intros ->%list_elem_of_singleton.
  - by intros ?%elem_of_nil.
Qed.

Lemma dryRunTrace_readable (bdfs : BuildDataFS) (gs : list GraphUnitRule.t)
    (dataOf : GraphUnitRule.t -> Output.t) :
  (forall g, g ∈ gs -> readJSONFileFS bdfs (GraphUnitRule.Target g) = inr (dataOf g)) ->
  dryRunTrace bdfs gs
  = (flat_map (fun g => [ReadFile (GraphUnitRule.Target g); graphLog (dataOf g) g]) gs,
     None).
Proof.
  induction gs as [|g gs IH]; intros Hall; [done|].
  simpl. rewrite (Hall g) by (by left). rewrite IH; [done|].
  intros g' Hg'. apply Hall. by right.
Qed.

Lemma dryRunTrace_events (bdfs : BuildDataFS) (gs : list GraphUnitRule.t)
    (e : ImportEvent) :
  e ∈ (dryRunTrace bdfs gs).1 ->
  match e with ReadFile _ | Logged _ => True | _ => False end.
Proof.
  induction gs as [|g gs IH]; simpl; [by intros ?%elem_of_nil|].
  destruct (readJSONFileFS bdfs (GraphUnitRule.Target g)); simpl.
  - by intros ->%list_elem_of_singleton.
  - rewrite !elem_of_cons. unfold graphLog.
    intros [->|[->|Hin]]; [done | done | by apply IH].
Qed.

(** C8 (amended).  A dry run outside sample mode never invokes an importer
    and runs no command, so the store is left as it was.  Once the build
    data and the makefile are there it reads the target of each surviving
    graph rule, in order, and logs that rule's def/ref/doc/annotation
    counts; the first read that fails ends the run with its error.  The
    loaded data is counted, not transformed. *)
Theorem dry_run_reads_and_logs_only (storeCmd : StoreCmd.t) (c : StoreImportCmd.t) :
  StoreImportCmd.DryRun c = true ->
  StoreImportCmd.Sample c = false ->
  importsOf (trace (StoreImportCmd_Execute storeCmd c)) = []
  /\ (forall e, e ∈ trace (StoreImportCmd_Execute storeCmd c) ->
        match e with ReadFile _ | Logged _ => True | _ => False end)
  /\ (forall s bdfs label rules,
        StoreCmd_store storeCmd = inr s -> buildData c bdfs label rules ->
        trace (StoreImportCmd_Execute storeCmd c)
        = prelude c label ++ (dryRunTrace bdfs (graphSurvivors c rules)).1
          ++ match (dryRunTrace bdfs (graphSurvivors c rules)).2 with
             | Some _ => []
             | None => [Logged LogImportCompleted]
             end
        /\ result (StoreImportCmd_Execute storeCmd c)
           = Returned (dryRunTrace bdfs (graphSurvivors c rules)).2)
  /\ (forall bdfs gs dataOf,
        (forall g, g ∈ gs ->
           readJSONFileFS bdfs (GraphUnitRule.Target g) = inr (dataOf g)) ->
        dryRunTrace bdfs gs
        = (flat_map (fun g => [ReadFile (GraphUnitRule.Target g);
                               graphLog (dataOf g) g]) gs,
           None)).
Proof.
  intros Hdry Hsample. split; [|split; [|split]].
  - destruct (importsOf (trace (StoreImportCmd_Execute storeCmd c))) as [|call l] eqn:Himps;
      [done|].
    destruct (imports_come_from_survivors storeCmd c call Hsample)
      as (s & bdfs & label & rules & g & _ & _ & Hnot & _).
    { rewrite Himps. by left. }
    congruence.
  - intros e.
    destruct (Execute_cases storeCmd c Hsample)
      as [(err & _ & [-> | [label ->]]) | (s & bdfs & label & rules & Hs & Hbd)].
    { by intros ?%elem_of_nil. }
    { by intros ?%prelude_events. }
    rewrite (Execute_loop storeCmd c s bdfs label rules Hsample Hs Hbd).
    rewrite importRules_dry by done.
    destruct (dryRunTrace bdfs (graphSurvivors c rules)).2 eqn:Hres; simpl;
      rewrite !elem_of_app.
    + intros [Hin|Hin];
        [by apply prelude_events in Hin | by apply dryRunTrace_events in Hin].
    + intros [[Hin|Hin]|Hin];
        [by apply prelude_events in Hin | by apply dryRunTrace_events in Hin |].
      by apply list_elem_of_singleton in Hin as ->.
  - intros s bdfs label rules Hs Hbd.
    rewrite (Execute_loop storeCmd c s bdfs label rules Hsample Hs Hbd).
    rewrite importRules_dry by done.
    destruct (dryRunTrace bdfs (graphSurvivors c rules)).2; simpl.
    + by rewrite app_nil_r.
    + by rewrite <- app_assoc.
  - apply dryRunTrace_readable.
Qed.

(** Sample mode with an importer-less store: once the sample data is
    encoded, the command fails on the missing capability. *)
Lemma sample_no_importer (c : StoreImportCmd.t) (s : StoreValue) (size : Z)
    (tr : list ImportEvent) :
  implements RepoImporter s = false ->
  implements MultiRepoImporter s = false ->
  Codec_Encode (makeGraphData (StoreImportCmd.SampleDefs c) (StoreImportCmd.SampleRefs c))
  = inr size ->
  exists tr', StoreImportCmd_sample c s tr
              = (tr', inl (Returned (Some (notImplemented s "importing"))))
              /\ importsOf tr' = importsOf tr.
Proof.
  intros Hr Hm Henc. unfold StoreImportCmd_sample. run_monad.
  rewrite Henc, Hr, Hm. run_monad. eexists. split; [done|].
  rewrite !importsOf_app. simpl. by rewrite !app_nil_r.
Qed.

(** C6 (amended).  Each listing command type-asserts the backend right
    after building it and, if the capability is missing, returns
    "store (type T) does not implement <operation>" before building
    filters or querying.  Import makes the check only when a rule's data
    is about to be imported: without an importer, a non-dry run over its
    build data fails with "... does not implement importing" when the
    first surviving graph rule's data has been read, returns the read
    error if that read fails, and succeeds if no graph rule survives; it
    never invokes an importer.  Sample mode fails the same way once the
    sample data is encoded. *)
Theorem capability_not_implemented (storeCmd : StoreCmd.t) (s : StoreValue) :
  StoreCmd_store storeCmd = inr s ->
  (implements MultiRepoStore s = false -> forall c,
     StoreReposCmd_Execute storeCmd c
     = mkRun [] (Returned (Some (notImplemented s "listing repositories"))))
  /\ (implements RepoStore s = false -> forall c,
     StoreVersionsCmd_Execute storeCmd c
     = mkRun [] (Returned (Some (notImplemented s "listing versions"))))
  /\ (implements TreeStore s = false -> forall c,
     StoreUnitsCmd_Execute storeCmd c
     = mkRun [] (Returned (Some (notImplemented s "listing source units"))))
  /\ (implements UnitStore s = false -> forall c,
     StoreDefsCmd_Execute storeCmd c
     = mkRun [] (Returned (Some (notImplemented s "listing defs"))))
  /\ (implements UnitStore s = false -> forall c,
     StoreRefsCmd_Execute storeCmd c
     = mkRun [] (Returned (Some (notImplemented s "listing refs"))))
  /\ (implements RepoImporter s = false -> implements MultiRepoImporter s = false ->
      forall c bdfs label rules,
        StoreImportCmd.Sample c = false -> StoreImportCmd.DryRun c = false ->
        buildData c bdfs label rules ->
        importsOf (trace (StoreImportCmd_Execute storeCmd c)) = []
        /\ result (StoreImportCmd_Execute storeCmd c)
           = match graphSurvivors c rules with
             | [] => Returned None
             | g :: _ =>
                 match readJSONFileFS bdfs (GraphUnitRule.Target g) with
                 | inl err => Returned (Some err)
                 | inr _ => Returned (Some (notImplemented s "importing"))
                 end
             end)
  /\ (implements RepoImporter s = false -> implements MultiRepoImporter s = false ->
      forall c size,
        StoreImportCmd.Sample c = true ->
        Codec_Encode (makeGraphData (StoreImportCmd.SampleDefs c)
                                    (StoreImportCmd.SampleRefs c)) = inr size ->
        importsOf (trace (StoreImportCmd_Execute storeCmd c)) = []
        /\ result (StoreImportCmd_Execute storeCmd c)
           = Returned (Some (notImplemented s "importing"))).
Proof.
  intros Hs.
  destruct (listing_not_implemented storeCmd s Hs) as (Hrepos & Hvers & Hunits & Hdefs & Hrefs).
  repeat (split; [done|]). split.
  - intros Hr Hm c bdfs label rules Hsample Hdry Hbd.
    rewrite (Execute_loop storeCmd c s bdfs label rules Hsample Hs Hbd).
    rewrite (importRules_no_importer c s bdfs rules Hdry Hr Hm).
    destruct (graphSurvivors c rules) as [|g gs]; simpl.
    { by rewrite importsOf_app, prelude_no_imports. }
    destruct (readJSONFileFS bdfs (GraphUnitRule.Target g)) as [err|data]; simpl;
      rewrite !importsOf_app, prelude_no_imports; simpl; [done|].
    by destruct GlobalOpt_Verbose.
  - intros Hr Hm c size Hsample Henc.
    unfold StoreImportCmd_Execute, runM. rewrite Hs, Hsample. run_monad.
    destruct (sample_no_importer c s size [] Hr Hm Henc) as (tr' & -> & Himps).
    done.
Qed.
End ImportTheorems.

(** *** The import command on concrete build data *)

(** With --unit-type GoPackage --unit a, only package a's graph data
    reaches the importer, carrying the last of its two docs for "a/b". *)
Lemma import_rule_filtering_witness :
  importsOf (trace (StoreImportCmd_Execute (H := Imports.ext) (H0 := Imports.world)
                      Demo.repoStoreCmd (Demo.importCmd false "a" "GoPackage")))
  = [RepoImport "c0ffee" Demo.srcA (transferDocs Demo.outputA)]
  /\ result (StoreImportCmd_Execute (H := Imports.ext) (H0 := Imports.world)
               Demo.repoStoreCmd (Demo.importCmd false "a" "GoPackage"))
     = Returned None.
Proof.
  destruct (import_rule_filtering (H := Imports.ext) (H0 := Imports.world)
              Demo.repoStoreCmd (Demo.importCmd false "a" "GoPackage") eq_refl)
    as (_ & _ & _ & Hall).
  apply (Hall (FSRepoStore (OS "./store") true) Demo.files "local"
              [Demo.ruleA; Demo.ruleB; Demo.rulePlain; Demo.ruleDeps]).
  - reflexivity.
  - exists "git", tt. repeat split.
  - reflexivity.
  - intros g Hg. apply list_elem_of_singleton in Hg as ->. eexists. reflexivity.
  - reflexivity.
Defined.

(** The example run's imports, by evaluation. *)
Example demo_import_trace :
  importsOf (trace (StoreImportCmd_Execute (H := Imports.ext) (H0 := Imports.world)
                      Demo.repoStoreCmd (Demo.importCmd false "a" "GoPackage")))
  = [RepoImport "c0ffee" Demo.srcA (transferDocs Demo.outputA)].
Proof. vm_compute. reflexivity. Qed.

Lemma imported_defs_carry_docs_witness :
  exists bdfs g data,
    readJSONFileFS (ImportWorld := Imports.world) bdfs (GraphUnitRule.Target g) = inr data
    /\ transferDocs Demo.outputA = transferDocs data.
Proof.
  destruct (imported_defs_carry_docs (H := Imports.ext) (H0 := Imports.world)
              Demo.repoStoreCmd (Demo.importCmd false "a" "GoPackage")
              (RepoImport "c0ffee" Demo.srcA (transferDocs Demo.outputA)) eq_refl)
    as (bdfs & g & data & Hread & Hdata & _).
  - rewrite demo_import_trace. by apply list_elem_of_singleton.
  - exists bdfs, g, data. split; [exact Hread | exact Hdata].
Defined.

Example transferDocs_outputA :
  map Def.Docs (Output.Defs (transferDocs Demo.outputA))
  = [[DefDoc.mk "text/html" "second"]; []].
Proof. vm_compute. reflexivity. Qed.

(** C6 as stated fails for import: against a backend with no importer, an
    import whose makefile has no graph rule completes with a nil error. *)
Lemma import_without_importer_succeeds :
  StoreCmd_store (H := Imports.bare) Demo.repoStoreCmd
    = inr (FSRepoStore (OS "./store") true)
  /\ implements (External := Imports.bare) RepoImporter
       (FSRepoStore (OS "./store") true) = false
  /\ implements (External := Imports.bare) MultiRepoImporter
       (FSRepoStore (OS "./store") true) = false
  /\ StoreImportCmd_Execute (H := Imports.bare) (H0 := Imports.worldNoGraph)
       Demo.repoStoreCmd (Demo.importCmd false "" "")
     = mkImportRun [Logged LogImportCompleted] (Returned None).
Proof. repeat split. Qed.

Lemma capability_not_implemented_witness :
  StoreReposCmd_Execute (H := Imports.ext) Demo.repoStoreCmd (StoreReposCmd.mk "")
  = mkRun [] (Returned (Some
      "store (type *store.fsRepoStore) does not implement listing repositories")).
Proof.
  exact (proj1 (capability_not_implemented (H := Imports.ext) (H0 := Imports.world)
                  Demo.repoStoreCmd (FSRepoStore (OS "./store") true) eq_refl)
               eq_refl (StoreReposCmd.mk "")).
Defined.

(** C8 as stated fails: a dry run does load each surviving rule's graph
    output (it has to, to count), and a target that cannot be read makes
    the dry run fail. *)
Lemma dry_run_loads_graph_output :
  readsOf (trace (StoreImportCmd_Execute (H := Imports.ext) (H0 := Imports.world)
                    Demo.repoStoreCmd (Demo.importCmd true "a" "GoPackage")))
  = ["a.graph.json"]
  /\ result (StoreImportCmd_Execute (H := Imports.ext) (H0 := Imports.worldNoFiles)
               Demo.repoStoreCmd (Demo.importCmd true "a" "GoPackage"))
     = Returned (Some "open a.graph.json: file does not exist").
Proof. split; vm_compute; reflexivity. Qed.

Lemma dry_run_reads_and_logs_only_witness :
  trace (StoreImportCmd_Execute (H := Imports.ext) (H0 := Imports.world)
           Demo.repoStoreCmd (Demo.importCmd true "" ""))
  = [ReadFile "a.graph.json"; Logged (LogImportingGraphData 2 0 2 0 "GoPackage" "a");
     ReadFile "b.graph.json"; Logged (LogImportingGraphData 1 0 0 0 "GoPackage" "b");
     Logged LogImportCompleted]
  /\ result (StoreImportCmd_Execute (H := Imports.ext) (H0 := Imports.world)
               Demo.repoStoreCmd (Demo.importCmd true "" ""))
     = Returned None.
Proof.
  refine (proj1 (proj2 (proj2
    (dry_run_reads_and_logs_only (H := Imports.ext) (H0 := Imports.world)
       Demo.repoStoreCmd (Demo.importCmd true "" "") eq_refl eq_refl)))
    (FSRepoStore (OS "./store") true) Demo.files "local"
    [Demo.ruleA; Demo.ruleB; Demo.rulePlain; Demo.ruleDeps] eq_refl _).
  exists "git", tt. repeat split.
Defined.

(** Sample mode does not look at --dry-run: the sample data is imported. *)
Example sample_ignores_dry_run :
  length (importsOf (trace (StoreImportCmd_Execute (H := Imports.ext)
                              (H0 := Imports.world)
                              Demo.repoStoreCmd (Demo.sampleCmd true)))) = 1%nat.
Proof. vm_compute. reflexivity. Qed.

(** ** Byte-range bounds of the refs query *)

Section RefBounds.
Context `{External}.
Variable lib : Filter -> Ref.t -> bool.

Lemma forallb_when (sel : Filter -> bool) (cond : bool) (f : Filter) :
  forallb sel (when cond f) = if cond then sel f else true.
Proof. destruct cond; simpl; [apply andb_true_r | done]. Qed.

(** The filter list of a refs query is that of the same query without
    bounds, with the bound filters (if any) put in. *)
Lemma refs_filters_select (c : StoreRefsCmd.t) (fs : list Filter) :
  StoreRefsCmd_filters c = Ok fs ->
  exists fs0,
    StoreRefsCmd_filters (withoutBounds c) = Ok fs0
    /\ forall ref,
         forallb (fun f => SelectRef lib f ref) fs
         = forallb (fun f => SelectRef lib f ref) fs0
           && (if (StoreRefsCmd.Start c =? 0)%N then true
               else (StoreRefsCmd.Start c <=? Ref.Start ref)%N)
           && (if (StoreRefsCmd.End_ c =? 0)%N then true
               else (Ref.End_ ref <=? StoreRefsCmd.End_ c)%N).
Proof.
  unfold StoreRefsCmd_filters, defTuplePartial, defTupleFull. simpl.
  destruct (oneOfPair _ _); [done|].
  destruct (_ && _) eqn:Hpartial in |- *; [done|].
  intros [= <-]. eexists. split; [done|]. intros ref.
  rewrite !forallb_app, !forallb_when. simpl.
  destruct (StoreRefsCmd.Start c =? 0)%N, (StoreRefsCmd.End_ c =? 0)%N; simpl;
    repeat (match goal with |- context [if ?b then _ else _] => destruct b end);
    simpl; rewrite ?andb_true_r, ?andb_false_r; try done;
    repeat (match goal with |- context [(?a <=? ?b)%N] => destruct (a <=? b)%N end);
    repeat (match goal with |- context [lib ?f ref] => destruct (lib f ref) end);
    done.
Qed.

(** C10.  For a refs query whose flags are accepted, a ref is returned
    exactly when the same query without byte-range flags returns it and,
    if --start is not 0, its Start is at least --start and, if --end is
    not 0, its End is at most --end.  A bound of 0 therefore constrains
    nothing. *)
Theorem refs_byte_range_bounds (c : StoreRefsCmd.t) (fs : list Filter) :
  StoreRefsCmd_filters c = Ok fs ->
  exists fs0,
    StoreRefsCmd_filters (withoutBounds c) = Ok fs0
    /\ forall stored ref,
         ref ∈ refsQuery lib fs stored
         <-> ref ∈ refsQuery lib fs0 stored
             /\ (StoreRefsCmd.Start c <> 0%N ->
                 (StoreRefsCmd.Start c <= Ref.Start ref)%N)
             /\ (StoreRefsCmd.End_ c <> 0%N ->
                 (Ref.End_ ref <= StoreRefsCmd.End_ c)%N).
Proof.
  intros Hfs. destruct (refs_filters_select c fs Hfs) as (fs0 & Hfs0 & Hsel).
  exists fs0. split; [done|]. intros stored ref.
  unfold refsQuery. rewrite !list_elem_of_In, !filter_In, Hsel, !andb_true_iff.
  destruct (N.eqb_spec (StoreRefsCmd.Start c) 0) as [Hs|Hs],
    (N.eqb_spec (StoreRefsCmd.End_ c) 0) as [He|He];
    rewrite ?N.leb_le; intuition.
Qed.
End RefBounds.

(** With --end 0 a ref ending at byte 7 is returned; with --start 5 a ref
    starting at byte 3 is not. *)
Lemma refs_byte_range_bounds_witness :
  exists fs0,
    StoreRefsCmd_filters (H := Demo.external false)
      (withoutBounds (StoreRefsCmd.mk "" "" "" "" "" 5 0 "" "" "" "")) = Ok fs0
    /\ forall stored ref,
         ref ∈ refsQuery (fun _ _ => true)
                 [RefFilterFunc (fun ref => (5 <=? Ref.Start ref)%N)] stored
         <-> ref ∈ refsQuery (fun _ _ => true) fs0 stored
             /\ (5%N <> 0%N -> (5 <= Ref.Start ref)%N)
             /\ (0%N <> 0%N -> (Ref.End_ ref <= 0)%N).
Proof.
  exact (refs_byte_range_bounds (H := Demo.external false) (fun _ _ => true)
           (StoreRefsCmd.mk "" "" "" "" "" 5 0 "" "" "" "")
           [RefFilterFunc (fun ref => (5 <=? Ref.Start ref)%N)] eq_refl).
Defined.

Example refs_end_zero_keeps_everything :
  refsQuery (fun _ _ => true)
    (match StoreRefsCmd_filters (H := Demo.external false)
             (StoreRefsCmd.mk "" "" "" "" "" 5 0 "" "" "" "") with
     | Ok fs => fs
     | Fatal _ => []
     end)
    [Ref.mk "" "" "" "p" false 3 4 "f.go"; Ref.mk "" "" "" "q" false 6 7 "f.go"]
  = [Ref.mk "" "" "" "q" false 6 7 "f.go"].
Proof. reflexivity. Qed.

(** * Further properties of the commands *)

(** ** Strings *)

Lemma substring_prefix (p q : string) :
  String.substring 0 (String.length p) (p +:+ q) = p.
Proof. induction p as [|a p IH]; simpl; [by destruct q | by rewrite IH]. Qed.

(** [HasPrefix s prefix] holds exactly when [s] starts with [prefix]. *)
Lemma HasPrefix_spec (s prefix : string) :
  HasPrefix s prefix = true <-> exists q, s = prefix +:+ q.
Proof.
  unfold HasPrefix. rewrite andb_true_iff, Nat.leb_le, String.eqb_eq. split.
  - intros [Hle Hsub].
    exists (String.substring (String.length prefix)
              (String.length s - String.length prefix) s).
    rewrite (substring_split s (String.length prefix)) at 1 by lia.
    by rewrite Hsub.
  - intros [q ->]. rewrite length_append, substring_prefix. split; [lia | done].
Qed.

(** [Contains s substr] holds exactly when [substr] occurs in [s]. *)
Lemma Contains_spec (s substr : string) :
  Contains s substr = true <-> exists p q, s = p +:+ substr +:+ q.
Proof.
  split.
  - induction s as [|a s IH]; simpl; rewrite orb_true_iff.
    + intros [Hp|[=]]. apply HasPrefix_spec in Hp as [q ->]. by exists "", q.
    + intros [Hp|Hc].
      * apply HasPrefix_spec in Hp as [q ->]. by exists "", q.
      * destruct (IH Hc) as (p & q & ->). by exists (String a p), q.
  - intros (p & q & ->). induction p as [|a p IH].
    + assert (HasPrefix (substr +:+ q) substr = true) as Hp
        by (apply HasPrefix_spec; eauto).
      simpl. destruct (substr +:+ q); simpl; by rewrite Hp.
    + change (String a p +:+ substr +:+ q) with (String a (p +:+ substr +:+ q)).
      simpl. rewrite IH. apply orb_true_r.
Qed.

(** ** Building the backend *)

Section StoreOutcomes.
Context `{External}.

(** X1.  [store()] builds a backend exactly when --type is "RepoStore", or
    is "MultiRepoStore" with --config empty or decodable.  With "RepoStore"
    the --config value is never looked at. *)
Theorem store_succeeds_iff (c : StoreCmd.t) :
  ((exists s, StoreCmd_store c = inr s)
   <-> StoreCmd.Type_ c = "RepoStore"
       \/ (StoreCmd.Type_ c = "MultiRepoStore"
           /\ (StoreCmd.Config c = ""
               \/ exists repoPaths, unmarshalConf (StoreCmd.Config c) = inr repoPaths)))
  /\ (StoreCmd.Type_ c = "RepoStore" ->
      forall config, StoreCmd_store (withConfig config c) = StoreCmd_store c).
Proof.
  unfold StoreCmd_store, withConfig. simpl. split.
  - destruct (String.eqb_spec (StoreCmd.Type_ c) "RepoStore") as [Hr|Hr].
    { split; eauto. }
    destruct (String.eqb_spec (StoreCmd.Type_ c) "MultiRepoStore") as [Hm|Hm].
    + destruct (nonempty (StoreCmd.Config c)) eqn:Hc.
      * apply nonempty_true in Hc.
        destruct (unmarshalConf (StoreCmd.Config c)) as [err|rp] eqn:Hu.
        -- split; [by intros [s [=]]|].
           intros [?|[_ [?|[rp' [=]]]]]; done.
        -- split; eauto 10.
      * apply nonempty_false in Hc. split; eauto.
    + split; [by intros [s [=]]|]. intros [?|[? _]]; done.
  - intros -> config. done.
Qed.

(** X2.  A decodable --config whose RepoPaths is anything but
    "EvenlyDistributedRepoPaths" is accepted without complaint and builds
    the same multi-repo store as no --config at all. *)
Theorem unknown_repo_paths_ignored (c : StoreCmd.t) (repoPaths : string) :
  StoreCmd.Type_ c = "MultiRepoStore" ->
  unmarshalConf (StoreCmd.Config c) = inr repoPaths ->
  repoPaths <> "EvenlyDistributedRepoPaths" ->
  StoreCmd_store c = StoreCmd_store (withConfig "" c)
  /\ exists fs createParents,
       StoreCmd_store c = inr (FSMultiRepoStore fs createParents None).
Proof.
  intros Ht Hu Hne. unfold StoreCmd_store, withConfig. simpl. rewrite Ht, Hu. simpl.
  apply String.eqb_neq in Hne. rewrite Hne.
  destruct (nonempty (StoreCmd.Config c)); eauto.
Qed.
End StoreOutcomes.

Lemma unknown_repo_paths_ignored_witness :
  StoreCmd_store (H := Demo.external false) (StoreCmd.mk "MultiRepoStore" "./stores" "Flat")
  = StoreCmd_store (H := Demo.external false) (StoreCmd.mk "MultiRepoStore" "./stores" "").
Proof.
  exact (proj1 (unknown_repo_paths_ignored (H := Demo.external false)
                  (StoreCmd.mk "MultiRepoStore" "./stores" "Flat") "Flat"
                  eq_refl eq_refl ltac:(discriminate))).
Defined.

(** ** Filter builders *)

Lemma oneOfPair_false (a b : string) : oneOfPair a b = false <-> ~ exactlyOne a b.
Proof. rewrite <- oneOfPair_spec. by destruct (oneOfPair a b). Qed.

Lemma defTuplePartial_false (c : StoreRefsCmd.t) :
  defTuplePartial c = false
  <-> ~ someNotAll (StoreRefsCmd.DefRepo c) (StoreRefsCmd.DefUnitType c)
                   (StoreRefsCmd.DefUnit c) (StoreRefsCmd.DefPath c).
Proof. rewrite <- defTuplePartial_spec. by destruct (defTuplePartial c). Qed.

Lemma when_nil (cond : bool) (f : Filter) : when cond f = [] <-> cond = false.
Proof. by destruct cond. Qed.

Section FilterBuilders.
Context `{External}.

(** X3.  The filter builders accept exactly the flag sets that are not
    partially specified: units, defs and refs die in [log.Fatal] only for
    a half-given unit pair (refs also for a partly given def target), and
    the index criteria only for a half-given unit pair or --stale together
    with --not-stale.  Complete and empty flag sets always yield a list. *)
Theorem filters_accept_iff_not_partial :
  (forall c, (exists fs, StoreUnitsCmd_filters c = Ok fs)
             <-> ~ exactlyOne (StoreUnitsCmd.Type_ c) (StoreUnitsCmd.Name c))
  /\ (forall c, (exists fs, StoreDefsCmd_filters c = Ok fs)
                <-> ~ exactlyOne (StoreDefsCmd.UnitType c) (StoreDefsCmd.Unit c))
  /\ (forall c, (exists fs, StoreRefsCmd_filters c = Ok fs)
                <-> ~ exactlyOne (StoreRefsCmd.UnitType c) (StoreRefsCmd.Unit c)
                    /\ ~ someNotAll (StoreRefsCmd.DefRepo c) (StoreRefsCmd.DefUnitType c)
                                    (StoreRefsCmd.DefUnit c) (StoreRefsCmd.DefPath c))
  /\ (forall c, (exists crit, storeIndexCriteria_IndexCriteria c = Ok crit)
                <-> ~ (storeIndexCriteria.Stale c = true
                       /\ storeIndexCriteria.NotStale c = true)
                    /\ ~ exactlyOne (storeIndexCriteria.UnitType c)
                                    (storeIndexCriteria.Unit c)).
Proof.
  split; [|split; [|split]]; intros c.
  - rewrite <- oneOfPair_false. unfold StoreUnitsCmd_filters.
    destruct (oneOfPair _ _); split; eauto; [by intros [fs [=]] | done].
  - rewrite <- oneOfPair_false. unfold StoreDefsCmd_filters.
    destruct (oneOfPair _ _); split; eauto; [by intros [fs [=]] | done].
  - rewrite <- oneOfPair_false, <- defTuplePartial_false. unfold StoreRefsCmd_filters.
    destruct (oneOfPair _ _); [split; [by intros [fs [=]] | by intros [? _]]|].
    destruct (defTuplePartial c); split; eauto; [by intros [fs [=]] | by intros [_ ?]].
  - split.
    + intros [crit Hcrit]. split.
      * intros Hs. destruct (index_criteria_fatal c (or_introl Hs)) as [msg Hmsg].
        congruence.
      * intros Hp. destruct (index_criteria_fatal c (or_intror Hp)) as [msg Hmsg].
        congruence.
    + intros [Hs Hp]. apply oneOfPair_false in Hp.
      unfold storeIndexCriteria_IndexCriteria, oneOfPair in *.
      destruct (storeIndexCriteria.Stale c), (storeIndexCriteria.NotStale c);
        try (exfalso; by apply Hs); simpl;
        destruct (nonempty (storeIndexCriteria.UnitType c)),
          (nonempty (storeIndexCriteria.Unit c)); simpl in *; try done; eauto.
Qed.

(** X4.  A query command given no filter flag builds the empty filter
    list, and only then: every flag that is set (non-empty, or non-zero
    for --limit, --start and --end) contributes a filter. *)
Theorem filters_empty_iff_no_flags :
  (forall c, StoreReposCmd_filters c = [] <-> StoreReposCmd.IDContains c = "")
  /\ (forall c, StoreVersionsCmd_filters c = []
                <-> StoreVersionsCmd.Repo c = "" /\ StoreVersionsCmd.CommitIDPrefix c = "")
  /\ (forall c, StoreUnitsCmd_filters c = Ok []
                <-> StoreUnitsCmd.Type_ c = "" /\ StoreUnitsCmd.Name c = ""
                    /\ StoreUnitsCmd.CommitID c = "" /\ StoreUnitsCmd.Repo c = ""
                    /\ StoreUnitsCmd.File c = "")
  /\ (forall c, StoreDefsCmd_filters c = Ok []
                <-> StoreDefsCmd.UnitType c = "" /\ StoreDefsCmd.Unit c = ""
                    /\ StoreDefsCmd.CommitID c = "" /\ StoreDefsCmd.Repo c = ""
                    /\ StoreDefsCmd.Path c = "" /\ StoreDefsCmd.File c = ""
                    /\ StoreDefsCmd.FilePathPrefix c = ""
                    /\ StoreDefsCmd.NamePrefix c = "" /\ StoreDefsCmd.Limit c = 0)
  /\ (forall c, StoreRefsCmd_filters c = Ok []
                <-> StoreRefsCmd.UnitType c = "" /\ StoreRefsCmd.Unit c = ""
                    /\ StoreRefsCmd.CommitID c = "" /\ StoreRefsCmd.Repo c = ""
                    /\ StoreRefsCmd.File c = ""
                    /\ StoreRefsCmd.Start c = 0%N /\ StoreRefsCmd.End_ c = 0%N
                    /\ StoreRefsCmd.DefRepo c = "" /\ StoreRefsCmd.DefUnitType c = ""
                    /\ StoreRefsCmd.DefUnit c = "" /\ StoreRefsCmd.DefPath c = "").
Proof.
  split; [|split; [|split; [|split]]]; intros c.
  - unfold StoreReposCmd_filters. by rewrite when_nil, nonempty_false.
  - unfold StoreVersionsCmd_filters.
    rewrite app_nil, !when_nil, !nonempty_false. tauto.
  - unfold StoreUnitsCmd_filters, oneOfPair.
    destruct (nonempty (StoreUnitsCmd.Type_ c)) eqn:Ht,
      (nonempty (StoreUnitsCmd.Name c)) eqn:Hn; simpl;
      rewrite ?nonempty_true, ?nonempty_false in *;
      try (split; [by intros [=] | by intros (? & ? & _)]).
    split.
    + intros [= Hfs]. repeat apply app_nil in Hfs as [?%when_nil%nonempty_false Hfs].
      apply when_nil, nonempty_false in Hfs. done.
    + intros (_ & _ & -> & -> & ->). done.
  - unfold StoreDefsCmd_filters, oneOfPair.
    destruct (nonempty (StoreDefsCmd.UnitType c)) eqn:Ht,
      (nonempty (StoreDefsCmd.Unit c)) eqn:Hn; simpl;
      rewrite ?nonempty_true, ?nonempty_false in *;
      try (split; [by intros [=] | by intros (? & ? & _)]).
    split.
    + intros [= Hfs].
      repeat apply app_nil in Hfs as [?%when_nil%nonempty_false Hfs].
      apply when_nil, negb_false_iff, Z.eqb_eq in Hfs. done.
    + intros (_ & _ & -> & -> & -> & -> & -> & -> & ->). done.
  - unfold StoreRefsCmd_filters.
    destruct (oneOfPair _ _) eqn:Hone.
    { split; [by intros [=]|]. intros (Ha & Hb & _).
      apply oneOfPair_spec in Hone as [[? ?]|[? ?]]; congruence. }
    destruct (defTuplePartial c) eqn:Hpart.
    { split; [by intros [=]|]. intros (_ & _ & _ & _ & _ & _ & _ & ? & ? & ? & ?).
      apply defTuplePartial_spec in Hpart as [[?|[?|[?|?]]] _]; congruence. }
    split.
    + intros [= Hfs].
      apply app_nil in Hfs as [Hunit%when_nil Hfs].
      apply app_nil in Hfs as [?%when_nil%nonempty_false Hfs].
      apply app_nil in Hfs as [?%when_nil%nonempty_false Hfs].
      apply app_nil in Hfs as [?%when_nil%nonempty_false Hfs].
      apply app_nil in Hfs as [?%when_nil%negb_false_iff%N.eqb_eq Hfs].
      apply app_nil in Hfs as [?%when_nil%negb_false_iff%N.eqb_eq Hfull%when_nil].
      unfold oneOfPair, defTuplePartial, defTupleFull in *.
      destruct (nonempty (StoreRefsCmd.UnitType c)) eqn:Ht,
        (nonempty (StoreRefsCmd.Unit c)) eqn:Hn; try done.
      destruct (nonempty (StoreRefsCmd.DefRepo c)) eqn:Hd1,
        (nonempty (StoreRefsCmd.DefUnitType c)) eqn:Hd2,
        (nonempty (StoreRefsCmd.DefUnit c)) eqn:Hd3,
        (nonempty (StoreRefsCmd.DefPath c)) eqn:Hd4; try done.
      rewrite ?nonempty_false in *. done.
    + intros (Ha & Hb & -> & -> & -> & -> & -> & Hc & Hd & He & Hf).
      unfold defTupleFull. rewrite Ha, Hb, Hc, Hd, He, Hf. done.
Qed.

(** X5.  --file-path-prefix is not a prefix match: it contributes the
    same exact-file filter, [ByFiles] of the cleaned path, as --file, so
    giving a path through either flag builds the same filter list. *)
Theorem file_path_prefix_is_file_filter (c : StoreDefsCmd.t) (p : string) :
  StoreDefsCmd_filters (defsWithFiles "" p c) = StoreDefsCmd_filters (defsWithFiles p "" c).
Proof.
  unfold StoreDefsCmd_filters, defsWithFiles. simpl.
  by destruct (oneOfPair _ _).
Qed.

(** X6.  --id-contains keeps the repositories whose identifier contains
    the given text anywhere, and --commit (of versions) the versions whose
    commit ID starts with the given text; both match case-sensitively on
    the raw strings. *)
Theorem substring_filters_select :
  (forall c, StoreReposCmd.IDContains c <> "" ->
     exists f, StoreReposCmd_filters c = [RepoFilterFunc f]
               /\ forall repo, f repo = true
                    <-> exists p q, repo = p +:+ StoreReposCmd.IDContains c +:+ q)
  /\ (forall c, StoreVersionsCmd.CommitIDPrefix c <> "" ->
     exists f, StoreVersionsCmd_filters c
               = when (nonempty (StoreVersionsCmd.Repo c)) (ByRepo (StoreVersionsCmd.Repo c))
                 ++ [VersionFilterFunc f]
               /\ forall v, f v = true
                    <-> exists q, Version.CommitID v
                                  = StoreVersionsCmd.CommitIDPrefix c +:+ q).
Proof.
  split; intros c Hset; apply nonempty_true in Hset.
  - unfold StoreReposCmd_filters. rewrite Hset. eexists. split; [done|].
    intros repo. apply Contains_spec.
  - unfold StoreVersionsCmd_filters. rewrite Hset. eexists. split; [done|].
    intros v. apply HasPrefix_spec.
Qed.

(** X7.  Accepted index flags become criteria as follows: repository,
    commit, name and type are copied; staleness is "stale" for --stale,
    "not stale" for --not-stale and unconstrained otherwise; the unit is
    constrained exactly when both unit flags are given. *)
Theorem index_criteria_fields (c : storeIndexCriteria.t) (crit : IndexCriteria.t) :
  storeIndexCriteria_IndexCriteria c = Ok crit ->
  IndexCriteria.Repo crit = storeIndexCriteria.Repo c
  /\ IndexCriteria.CommitID crit = storeIndexCriteria.CommitID c
  /\ IndexCriteria.Name crit = storeIndexCriteria.Name c
  /\ IndexCriteria.Type_ crit = storeIndexCriteria.Type_ c
  /\ (IndexCriteria.Stale crit = Some true <-> storeIndexCriteria.Stale c = true)
  /\ (IndexCriteria.Stale crit = Some false <-> storeIndexCriteria.NotStale c = true)
  /\ (IndexCriteria.Stale crit = None
      <-> storeIndexCriteria.Stale c = false /\ storeIndexCriteria.NotStale c = false)
  /\ ((storeIndexCriteria.UnitType c <> "" /\ storeIndexCriteria.Unit c <> ""
       /\ IndexCriteria.Unit crit
          = Some (ID2.mk (storeIndexCriteria.UnitType c) (storeIndexCriteria.Unit c)))
      \/ (storeIndexCriteria.UnitType c = "" /\ storeIndexCriteria.Unit c = ""
          /\ IndexCriteria.Unit crit = None)).
Proof.
  unfold storeIndexCriteria_IndexCriteria.
  destruct (storeIndexCriteria.Stale c), (storeIndexCriteria.NotStale c); simpl;
    try done;
    destruct (nonempty (storeIndexCriteria.UnitType c)) eqn:Ht,
      (nonempty (storeIndexCriteria.Unit c)) eqn:Hu; simpl; try done;
    rewrite ?nonempty_true, ?nonempty_false in *;
    intros [= <-]; simpl; repeat split; try done; try (by intros [? ?]); auto.
Qed.
End FilterBuilders.

Lemma index_criteria_fields_witness :
  IndexCriteria.Stale
    (IndexCriteria.mk "r" "c" (Some (ID2.mk "GoPackage" "a")) "" "" (Some false))
  = Some false <-> true = true.
Proof.
  exact (proj1 (proj2 (proj2 (proj2 (proj2 (proj2
    (index_criteria_fields
       (storeIndexCriteria.mk "r" "c" "GoPackage" "a" "" "" false true)
       (IndexCriteria.mk "r" "c" (Some (ID2.mk "GoPackage" "a")) "" "" (Some false))
       eq_refl))))))).
Defined.

(** ** The index pipeline, further *)

Section PipelineMore.
Context `{External}.

(** X8.  When the backend cannot be built, or --output is neither "json"
    nor "text", [doStoreIndexesCmd] returns the error at once: the backend
    call is never made, so no status is sent and nothing is printed. *)
Theorem index_pipeline_early_exit (storeCmd : StoreCmd.t) (crit : IndexCriteria.t)
    (opt : storeIndexOptions.t) (f : StoreValue -> IndexCriteria.t -> Script)
    (st : PState) :
  (exists e, StoreCmd_store storeCmd = inl e)
  \/ (storeIndexOptions.Output opt <> "json" /\ storeIndexOptions.Output opt <> "text") ->
  rtc step (doStoreIndexesCmd storeCmd crit opt f) st ->
  sent st = [] /\ rendered st = [] /\ out st = []
  /\ exists err,
       returned st = Some (Some err)
       /\ (forall e, StoreCmd_store storeCmd = inl e -> err = e)
       /\ (forall s, StoreCmd_store storeCmd = inr s ->
             err = "unexpected --output value: " +:+ quote (storeIndexOptions.Output opt)).
Proof.
  intros Hwhy Hr. unfold doStoreIndexesCmd in Hr.
  destruct (StoreCmd_store storeCmd) as [e|s] eqn:Hs.
  - apply failedEarly_stuck in Hr as ->. simpl. repeat split.
    exists e. split; [done|]. split; [by intros e' [= ->] | by intros s [=]].
  - destruct Hwhy as [[e [=]] | [Hj Ht]].
    apply String.eqb_neq in Hj, Ht. rewrite Hj, Ht in Hr.
    apply failedEarly_stuck in Hr as ->. simpl. repeat split.
    eexists. split; [done|]. split; [by intros e [=] | done].
Qed.

(** X9.  An error returned by the backend call is what the command
    returns, in both output modes and on every schedule, whether or not
    statuses carried errors. *)
Theorem backend_error_has_precedence (storeCmd : StoreCmd.t) (crit : IndexCriteria.t)
    (opt : storeIndexOptions.t) (f : StoreValue -> IndexCriteria.t -> Script)
    (s : StoreValue) (st : PState) (e : string) :
  StoreCmd_store storeCmd = inr s ->
  storeIndexOptions.Output opt = "json" \/ storeIndexOptions.Output opt = "text" ->
  ferr (f s crit) = Some e ->
  rtc step (doStoreIndexesCmd storeCmd crit opt f) st ->
  is_Some (returned st) ->
  returned st = Some (Some e).
Proof.
  intros Hs Hmode Hferr Hr [r Hret]. rewrite Hret. f_equal.
  destruct (doStoreIndexesCmd_cases storeCmd crit opt f)
    as [(err & Hstart & Hwhy) | (s' & m & Hs' & Hstart)].
  { destruct (Hwhy s Hs). tauto. }
  rewrite Hstart in Hr. rewrite Hs in Hs'. injection Hs' as <-.
  apply Inv_reach in Hr. destruct Hr as [_ _ _ _ _ _ _ Hres].
  unfold returned in Hret. destruct (main st); try done.
  injection Hret as ->. destruct Hres as (k & _ & ->). by rewrite Hferr.
Qed.

(** X10.  In text mode the returned value is computed from the error flag
    either of all statuses or of all but the last one, never from fewer;
    so when no status carries an error the command returns exactly the
    backend call's error (no false alarm). *)
Theorem text_mode_result (storeCmd : StoreCmd.t) (crit : IndexCriteria.t)
    (f : StoreValue -> IndexCriteria.t -> Script)
    (s : StoreValue) (st : PState) (r : option string) :
  StoreCmd_store storeCmd = inr s ->
  rtc step (doStoreIndexesCmd storeCmd crit (storeIndexOptions.mk "text") f) st ->
  returned st = Some r ->
  (r = returnValue (ferr (f s crit)) (existsb carriesError (emits (f s crit)))
   \/ exists pre x,
        emits (f s crit) = pre ++ [x]
        /\ r = returnValue (ferr (f s crit)) (existsb carriesError pre))
  /\ (existsb carriesError (emits (f s crit)) = false -> r = ferr (f s crit)).
Proof.
  intros Hs Hr Hret. rewrite (doStoreIndexesCmd_text _ _ _ _ Hs) in Hr.
  apply Inv_reach in Hr. destruct Hr as [_ _ _ _ _ _ _ Hres].
  unfold returned in Hret. destruct (main st); try done.
  injection Hret as ->. destruct Hres as (k & Hk & ->). simpl.
  set (evs := emits (f s crit)) in *.
  assert (take k evs = evs
          \/ exists pre x, evs = pre ++ [x] /\ take k evs = pre) as Htake.
  { destruct (decide (length evs <= k)%nat) as [Hle|Hgt].
    - left. by apply take_ge.
    - right. destruct (drop k evs) as [|x [|y l]] eqn:Hdrop.
      + apply (f_equal length) in Hdrop. rewrite length_drop in Hdrop. simpl in *. lia.
      + exists (take k evs), x. by rewrite <- Hdrop, take_drop.
      + apply (f_equal length) in Hdrop. rewrite length_drop in Hdrop. simpl in *. lia. }
  split.
  - destruct Htake as [-> | (pre & x & Hev & ->)]; [by left | right; eauto].
  - intros Hnone.
    assert (existsb carriesError (take k evs) = false) as ->.
    { destruct Htake as [-> | (pre & x & Hev & ->)]; [done|].
      rewrite Hev, existsb_app in Hnone. by apply orb_false_iff in Hnone as [? _]. }
    unfold returnValue. by destruct (ferr (f s crit)).
Qed.

(** X11.  What has been printed, and the value of [hasError], when the
    command returns do not depend on the schedule: the report is the
    consumer loop run over all statuses in emission order, and the flag
    tells whether any status carried an error (it is never set in json
    mode).  Only the returned value can have missed the last status. *)
Theorem report_independent_of_schedule (storeCmd : StoreCmd.t) (crit : IndexCriteria.t)
    (opt : storeIndexOptions.t) (f : StoreValue -> IndexCriteria.t -> Script)
    (s : StoreValue) (st : PState) :
  StoreCmd_store storeCmd = inr s ->
  rtc step (doStoreIndexesCmd storeCmd crit opt f) st ->
  is_Some (returned st) ->
  (storeIndexOptions.Output opt = "json" ->
     out st = flat_map renderJSON (emits (f s crit)) /\ hasError st = false)
  /\ (storeIndexOptions.Output opt = "text" ->
     out st = renderAll (implements MultiRepoStore s) noLast (emits (f s crit))
     /\ hasError st = existsb carriesError (emits (f s crit)))
  /\ (forall st', rtc step (doStoreIndexesCmd storeCmd crit opt f) st' ->
        is_Some (returned st') ->
        out st' = out st /\ rendered st' = rendered st /\ hasError st' = hasError st).
Proof.
  intros Hs Hr Hret. split; [|split].
  - intros Hj. destruct opt as [o]. simpl in Hj. subst o.
    rewrite (doStoreIndexesCmd_json _ _ _ _ Hs) in Hr. apply Inv_reach in Hr.
    destruct (Inv_returned _ _ _ Hr Hret) as [Hrend _].
    destruct Hr as [_ _ _ _ Hflag Hout _ _]. by rewrite Hout, Hflag, Hrend.
  - intros Ht. destruct opt as [o]. simpl in Ht. subst o.
    rewrite (doStoreIndexesCmd_text _ _ _ _ Hs) in Hr. apply Inv_reach in Hr.
    destruct (Inv_returned _ _ _ Hr Hret) as [Hrend _].
    destruct Hr as [_ _ _ _ Hflag Hout _ _]. by rewrite Hout, Hflag, Hrend.
  - intros st' Hr' Hret'.
    destruct (doStoreIndexesCmd_cases storeCmd crit opt f)
      as [(err & Hstart & _) | (s' & m & Hs' & Hstart)]; rewrite Hstart in Hr, Hr'.
    + apply failedEarly_stuck in Hr as ->. by apply failedEarly_stuck in Hr' as ->.
    + apply Inv_reach in Hr, Hr'.
      destruct (Inv_returned _ _ _ Hr Hret) as [Hrend _].
      destruct (Inv_returned _ _ _ Hr' Hret') as [Hrend' _].
      destruct Hr as [_ _ _ _ Hflag Hout _ _], Hr' as [_ _ _ _ Hflag' Hout' _ _].
      by rewrite Hout, Hout', Hflag, Hflag', Hrend, Hrend'.
Qed.

Lemma countKind_app (k : LineKind) (ls ls' : list Line) :
  countKind k (ls ++ ls') = (countKind k ls + countKind k ls')%nat.
Proof. unfold countKind. by rewrite List.filter_app, length_app. Qed.

Lemma countKind_cons (k : LineKind) (k' : LineKind) (txt : string) (ls : list Line) :
  countKind k (mkLine k' txt :: ls)
  = ((if bool_decide (k' = k) then 1 else 0) + countKind k ls)%nat.
Proof. unfold countKind. simpl. by destruct (bool_decide (k' = k)). Qed.

Lemma renderText_counts (isMultiRepo : bool) (l : Last) (x : IndexStatus.t) :
  countKind KDetail (renderText isMultiRepo l x) = 1%nat
  /\ (countKind KRepo (renderText isMultiRepo l x) <= 1)%nat
  /\ (isMultiRepo = false -> countKind KRepo (renderText isMultiRepo l x) = 0%nat)
  /\ (countKind KCommit (renderText isMultiRepo l x) <= 1)%nat
  /\ (countKind KUnit (renderText isMultiRepo l x) <= 1)%nat.
Proof.
  unfold renderText, repoLines, commitLines, unitLines, detailLine.
  repeat split; try intros ->; cbn [andb];
    repeat case_match;
    rewrite ?countKind_app, ?countKind_cons; cbn [app];
    rewrite ?countKind_cons;
    repeat (case_bool_decide; try done); cbv [countKind List.filter length]; lia.
Qed.

(** X12.  The text report has exactly one detail line per status and at
    most one repository header, commit line and unit header per status; on
    a store that is not multi-repo it has no repository header at all.
    The json report has exactly one record per status. *)
Theorem report_line_counts (isMultiRepo : bool) (evs : list IndexStatus.t) :
  countKind KDetail (printed (Text isMultiRepo) evs) = length evs
  /\ (countKind KRepo (printed (Text isMultiRepo) evs) <= length evs)%nat
  /\ countKind KRepo (printed (Text false) evs) = 0%nat
  /\ (countKind KCommit (printed (Text isMultiRepo) evs) <= length evs)%nat
  /\ (countKind KUnit (printed (Text isMultiRepo) evs) <= length evs)%nat
  /\ countKind KJSON (printed JSON evs) = length evs
  /\ length (printed JSON evs) = length evs.
Proof.
  assert (forall b l,
    countKind KDetail (renderAll b l evs) = length evs
    /\ (countKind KRepo (renderAll b l evs) <= length evs)%nat
    /\ (b = false -> countKind KRepo (renderAll b l evs) = 0%nat)
    /\ (countKind KCommit (renderAll b l evs) <= length evs)%nat
    /\ (countKind KUnit (renderAll b l evs) <= length evs)%nat) as Htext.
  { induction evs as [|x evs IH]; intros b l; simpl; [done|].
    rewrite !countKind_app.
    destruct (renderText_counts b l x) as (Hd & Hr & Hr0 & Hc & Hu).
    destruct (IH b (lastOf x)) as (Hd' & Hr' & Hr0' & Hc' & Hu').
    repeat split; try lia. intros Hb. rewrite Hr0, Hr0' by done. done. }
  destruct (Htext isMultiRepo noLast) as (Hd & Hr & _ & Hc & Hu).
  destruct (Htext false noLast) as (_ & _ & Hr0 & _ & _).
  assert (countKind KJSON (flat_map renderJSON evs) = length evs
          /\ length (flat_map renderJSON evs) = length evs) as [Hj Hn].
  { clear. induction evs as [|x evs [IH IH']]; [done|].
    cbn [flat_map]. unfold renderJSON at 1 3. cbn [app length]. rewrite countKind_cons, IH, IH'.
    by case_bool_decide. }
  simpl. repeat split; try done. by apply Hr0.
Qed.
End PipelineMore.

Lemma index_pipeline_early_exit_witness :
  sent MoreRuns.yamlBoom = [] /\ rendered MoreRuns.yamlBoom = []
  /\ out MoreRuns.yamlBoom = []
  /\ exists err,
       returned MoreRuns.yamlBoom = Some (Some err)
       /\ (forall e, StoreCmd_store (H := Runs.ext) Demo.repoStoreCmd = inl e -> err = e)
       /\ (forall s, StoreCmd_store (H := Runs.ext) Demo.repoStoreCmd = inr s ->
             err = "unexpected --output value: " +:+ quote (External := Runs.ext) "yaml").
Proof.
  apply (index_pipeline_early_exit (H := Runs.ext) Demo.repoStoreCmd Demo.noCriteria
           (storeIndexOptions.mk "yaml") (Demo.backend [Demo.boom] None)).
  - right. split; discriminate.
  - apply rtc_refl.
Defined.

Lemma backend_error_has_precedence_witness :
  returned
    (Demo.after (H := Runs.ext) (Demo.firstEnabled 6) MoreRuns.jsonFailing)
  = Some (Some "backend failed").
Proof.
  apply (backend_error_has_precedence (H := Runs.ext) Demo.repoStoreCmd Demo.noCriteria
           Demo.jsonOpt (Demo.backend [Demo.boom] (Some "backend failed"))
           (FSRepoStore (OS "./store") true)).
  - reflexivity.
  - left. reflexivity.
  - reflexivity.
  - apply (runSchedule_rtc (H := Runs.ext) (Demo.firstEnabled 6)).
    vm_compute. reflexivity.
  - eexists. vm_compute. reflexivity.
Defined.

Lemma text_mode_result_witness :
  (Some errorMsgIndexes = returnValue None (existsb carriesError [Demo.boom])
   \/ exists pre x,
        [Demo.boom] = pre ++ [x]
        /\ Some errorMsgIndexes = returnValue None (existsb carriesError pre))
  /\ (existsb carriesError [Demo.boom] = false -> Some errorMsgIndexes = None).
Proof.
  apply (text_mode_result (H := Runs.ext) Demo.repoStoreCmd Demo.noCriteria
           (Demo.backend [Demo.boom] None) (FSRepoStore (OS "./store") true)
           (Demo.after (H := Runs.ext) [0; 1; 0; 0; 0; 0]%nat Runs.textBoom)).
  - reflexivity.
  - apply (runSchedule_rtc (H := Runs.ext) [0; 1; 0; 0; 0; 0]%nat).
    vm_compute. reflexivity.
  - vm_compute. reflexivity.
Defined.

Lemma report_independent_of_schedule_witness :
  ("text" = "json" ->
     out MoreRuns.threeDone = flat_map (renderJSON (H := Runs.ext)) Demo.threeStatuses
     /\ hasError MoreRuns.threeDone = false)
  /\ ("text" = "text" ->
     out MoreRuns.threeDone = renderAll (H := Runs.ext) false noLast Demo.threeStatuses
     /\ hasError MoreRuns.threeDone = existsb carriesError Demo.threeStatuses)
  /\ (forall st', rtc (step (H := Runs.ext)) Runs.textThree st' ->
        is_Some (returned st') ->
        out st' = out MoreRuns.threeDone /\ rendered st' = rendered MoreRuns.threeDone
        /\ hasError st' = hasError MoreRuns.threeDone).
Proof.
  apply (report_independent_of_schedule (H := Runs.ext) Demo.repoStoreCmd Demo.noCriteria
           Demo.textOpt (Demo.backend Demo.threeStatuses (Some "backend failed"))
           (FSRepoStore (OS "./store") true)).
  - reflexivity.
  - apply (runSchedule_rtc (H := Runs.ext) (Demo.firstEnabled 10)).
    vm_compute. reflexivity.
  - eexists. vm_compute. reflexivity.
Defined.

(** ** The listing commands as a whole *)

Section Listings.
Context `{External}.

Lemma queriesOf_prints (txts : list string) : queriesOf (map EPrint txts) = [].
Proof. induction txts as [|t txts IH]; [done|]. simpl. apply IH. Qed.

Lemma afterQuery_spec {A} (q : Query) (r : string + A) (print : A -> list string) :
  orderly (afterQuery q r print)
  /\ (exit (afterQuery q r print) = Returned None <-> exists v, r = inr v)
  /\ queriesOf (effects (afterQuery q r print)) = [q].
Proof.
  unfold orderly, afterQuery. destruct r as [err|v]; simpl.
  - split; [split; [|split]|split].
    + intros txt Hin. apply list_elem_of_singleton in Hin. done.
    + lia.
    + intros q' Hin. apply list_elem_of_singleton in Hin. injection Hin as ->. eauto.
    + split; [done | by intros [v [=]]].
    + done.
  - rewrite queriesOf_prints. split; [split; [|split]|split].
    + done.
    + simpl. lia.
    + intros q' Hin. apply elem_of_cons in Hin as [[= ->]|Hin]; [eauto|].
      apply list_elem_of_fmap in Hin as (txt & [=] & _).
    + split; [eauto | done].
    + done.
Qed.

Lemma orderly_silent (e : Exit) : orderly (mkRun [] e).
Proof.
  unfold orderly. simpl. split; [|split].
  - intros txt Hin. by apply elem_of_nil in Hin.
  - lia.
  - intros q Hin. by apply elem_of_nil in Hin.
Qed.

(** X13.  Each of the five listing commands succeeds exactly when the
    store is built, has the capability the command asserts, the flags are
    accepted and the query succeeds; the query is then made with exactly
    the filters built from the flags.  In every case the run is orderly:
    nothing is printed unless it succeeds, and the store is queried at
    most once, before any output. *)
Theorem listing_succeeds_iff (storeCmd : StoreCmd.t) :
  (forall c,
     orderly (StoreReposCmd_Execute storeCmd c)
     /\ (exit (StoreReposCmd_Execute storeCmd c) = Returned None <->
         exists s v, StoreCmd_store storeCmd = inr s
           /\ implements MultiRepoStore s = true
           /\ store_Repos s (StoreReposCmd_filters c) = inr v
           /\ queriesOf (effects (StoreReposCmd_Execute storeCmd c))
              = [QRepos (StoreReposCmd_filters c)]))
  /\ (forall c,
     orderly (StoreVersionsCmd_Execute storeCmd c)
     /\ (exit (StoreVersionsCmd_Execute storeCmd c) = Returned None <->
         exists s v, StoreCmd_store storeCmd = inr s
           /\ implements RepoStore s = true
           /\ store_Versions s (StoreVersionsCmd_filters c) = inr v
           /\ queriesOf (effects (StoreVersionsCmd_Execute storeCmd c))
              = [QVersions (StoreVersionsCmd_filters c)]))
  /\ (forall c,
     orderly (StoreUnitsCmd_Execute storeCmd c)
     /\ (exit (StoreUnitsCmd_Execute storeCmd c) = Returned None <->
         exists s fs v, StoreCmd_store storeCmd = inr s
           /\ implements TreeStore s = true
           /\ StoreUnitsCmd_filters c = Ok fs
           /\ store_Units s fs = inr v
           /\ queriesOf (effects (StoreUnitsCmd_Execute storeCmd c)) = [QUnits fs]))
  /\ (forall c,
     orderly (StoreDefsCmd_Execute storeCmd c)
     /\ (exit (StoreDefsCmd_Execute storeCmd c) = Returned None <->
         exists s fs v, StoreCmd_store storeCmd = inr s
           /\ implements UnitStore s = true
           /\ StoreDefsCmd_filters c = Ok fs
           /\ store_Defs s fs = inr v
           /\ queriesOf (effects (StoreDefsCmd_Execute storeCmd c)) = [QDefs fs]))
  /\ (forall c,
     orderly (StoreRefsCmd_Execute storeCmd c)
     /\ (exit (StoreRefsCmd_Execute storeCmd c) = Returned None <->
         exists s fs v, StoreCmd_store storeCmd = inr s
           /\ implements UnitStore s = true
           /\ StoreRefsCmd_filters c = Ok fs
           /\ store_Refs s fs = inr v
           /\ queriesOf (effects (StoreRefsCmd_Execute storeCmd c)) = [QRefs fs])).
Proof.
  unfold StoreReposCmd_Execute, StoreVersionsCmd_Execute, StoreUnitsCmd_Execute,
    StoreDefsCmd_Execute, StoreRefsCmd_Execute.
  destruct (StoreCmd_store storeCmd) as [err|s].
  { repeat (split; [intros c; split; [apply orderly_silent |]; split; [done|];
                     first [ by intros (? & ? & [=] & _)
                           | by intros (? & ? & ? & [=] & _) ]|]).
    intros c. split; [apply orderly_silent|].
    split; [done|]. by intros (? & ? & ? & [=] & _). }
  repeat (split; [intros c|]); [| | | |intros c].
  - destruct (implements MultiRepoStore s) eqn:Himp.
    + destruct (afterQuery_spec (QRepos (StoreReposCmd_filters c))
        (store_Repos s (StoreReposCmd_filters c)) (map (fun repo => repo +:+ nl)))
        as (Ho & Hex & Hq).
      split; [done|]. rewrite Hex. split.
      * intros [v Hv]. exists s, v. repeat split; done.
      * intros (s' & v & [= <-] & _ & Hv & _). eauto.
    + split; [apply orderly_silent|]. split; [done|].
      intros (s' & v & [= <-] & Himp' & _); congruence.
  - destruct (implements RepoStore s) eqn:Himp.
    + destruct (afterQuery_spec (QVersions (StoreVersionsCmd_filters c))
        (store_Versions s (StoreVersionsCmd_filters c)) (map printVersion))
        as (Ho & Hex & Hq).
      split; [done|]. rewrite Hex. split.
      * intros [v Hv]. exists s, v. repeat split; done.
      * intros (s' & v & [= <-] & _ & Hv & _). eauto.
    + split; [apply orderly_silent|]. split; [done|].
      intros (s' & v & [= <-] & Himp' & _); congruence.
  - destruct (implements TreeStore s) eqn:Himp.
    + destruct (StoreUnitsCmd_filters c) as [msg|fs].
      { split; [apply orderly_silent|]. split; [done|].
        by intros (s' & fs & v & _ & _ & ? & _). }
      destruct (afterQuery_spec (QUnits fs) (store_Units s fs)
        (fun units => [PrintJSON _ units "  "])) as (Ho & Hex & Hq).
      split; [done|]. rewrite Hex. split.
      * intros [v Hv]. exists s, fs, v. repeat split; done.
      * intros (s' & fs' & v & [= <-] & _ & [= <-] & Hv & _). eauto.
    + split; [apply orderly_silent|]. split; [done|].
      intros (s' & fs & v & [= <-] & Himp' & _); congruence.
  - destruct (implements UnitStore s) eqn:Himp.
    + destruct (StoreDefsCmd_filters c) as [msg|fs].
      { split; [apply orderly_silent|]. split; [done|].
        by intros (s' & fs & v & _ & _ & ? & _). }
      destruct (afterQuery_spec (QDefs fs) (store_Defs s fs)
        (fun defs => [PrintJSON _ defs "  "])) as (Ho & Hex & Hq).
      split; [done|]. rewrite Hex. split.
      * intros [v Hv]. exists s, fs, v. repeat split; done.
      * intros (s' & fs' & v & [= <-] & _ & [= <-] & Hv & _). eauto.
    + split; [apply orderly_silent|]. split; [done|].
      intros (s' & fs & v & [= <-] & Himp' & _); congruence.
  - destruct (implements UnitStore s) eqn:Himp.
    + destruct (StoreRefsCmd_filters c) as [msg|fs].
      { split; [apply orderly_silent|]. split; [done|].
        by intros (s' & fs & v & _ & _ & ? & _). }
      destruct (afterQuery_spec (QRefs fs) (store_Refs s fs)
        (fun refs => [PrintJSON _ refs "  "])) as (Ho & Hex & Hq).
      split; [done|]. rewrite Hex. split.
      * intros [v Hv]. exists s, fs, v. repeat split; done.
      * intros (s' & fs' & v & [= <-] & _ & [= <-] & Hv & _). eauto.
    + split; [apply orderly_silent|]. split; [done|].
      intros (s' & fs & v & [= <-] & Himp' & _); congruence.
Qed.
End Listings.

(** ** The import command, further *)

Section ImportMore.
Context `{External} `{ImportWorld}.

Lemma importRules_remote (repo : string) (c : StoreImportCmd.t) (s : StoreValue)
    (bdfs : BuildDataFS) (rules : list Rule.t) (tr : list ImportEvent) :
  importRules (withRemoteBuildDataRepo repo c) s bdfs rules tr
  = importRules c s bdfs rules tr.
Proof.
  revert tr. induction rules as [|rule rest IH]; intros tr; [done|].
  rewrite !importRules_cons.
  change (importRule (withRemoteBuildDataRepo repo c) s bdfs rule tr)
    with (importRule c s bdfs rule tr).
  destruct (importRule c s bdfs rule tr) as [tr' [e|[]]]; [done | apply IH].
Qed.

(** X14.  Leaving --remote-build-data-repo empty is the same as passing
    the value of --repo: the two commands run identically. *)
Theorem remote_build_data_repo_defaults_to_repo (storeCmd : StoreCmd.t)
    (c : StoreImportCmd.t) :
  StoreImportCmd_Execute storeCmd (withRemoteBuildDataRepo "" c)
  = StoreImportCmd_Execute storeCmd (withRemoteBuildDataRepo (StoreImportCmd.Repo c) c).
Proof.
  unfold StoreImportCmd_Execute, runM, mbind, M_bind, try, mret, M_ret, leave.
  destruct (StoreCmd_store storeCmd) as [err|s]; [done|].
  cbn [StoreImportCmd.Sample StoreImportCmd.RemoteBuildDataRepo StoreImportCmd.Repo
       StoreImportCmd.RemoteBuildData StoreImportCmd.CommitID withRemoteBuildDataRepo
       nonempty].
  destruct (StoreImportCmd.Sample c); [reflexivity|].
  destruct openLocalRepo as [err|vcsType]; [done|].
  assert ((if nonempty (StoreImportCmd.Repo c) then StoreImportCmd.Repo c
           else StoreImportCmd.Repo c) = StoreImportCmd.Repo c) as ->
    by (by destruct (nonempty _)).
  destruct (getBuildDataFS _ _ _) as [err|bl]; [done|].
  destruct (if GlobalOpt_Verbose then _ else _) as [tr1 [e|[]]]; [done|].
  destruct (config_ReadCached _) as [err|treeConfig]; [done|].
  destruct (plan_CreateMakefile _ _) as [err|rules]; [done|].
  by rewrite !importRules_remote.
Qed.

Lemma importRules_app (c : StoreImportCmd.t) (s : StoreValue) (bdfs : BuildDataFS)
    (rules1 rules2 : list Rule.t) (tr : list ImportEvent) :
  importRules c s bdfs (rules1 ++ rules2) tr
  = match importRules c s bdfs rules1 tr with
    | (tr', inl e) => (tr', inl e)
    | (tr', inr _) => importRules c s bdfs rules2 tr'
    end.
Proof.
  revert tr. induction rules1 as [|rule rest IH]; intros tr; [done|].
  cbn [app]. rewrite !importRules_cons.
  destruct (importRule c s bdfs rule tr) as [tr' [e|[]]]; [done | apply IH].
Qed.

(** X15.  The rule loop stops at the first rule that fails: when it fails
    within a prefix of the makefile's rules, the command ends with that
    trace and that error, whatever rules follow. *)
Theorem import_stops_at_first_failure (storeCmd : StoreCmd.t) (c : StoreImportCmd.t)
    (s : StoreValue) (bdfs : BuildDataFS) (label : string)
    (rules1 rules2 : list Rule.t) (tr : list ImportEvent) (e : Exit) :
  StoreImportCmd.Sample c = false ->
  StoreCmd_store storeCmd = inr s ->
  buildData c bdfs label (rules1 ++ rules2) ->
  importRules c s bdfs rules1 (prelude c label) = (tr, inl e) ->
  StoreImportCmd_Execute storeCmd c = mkImportRun tr e.
Proof.
  intros Hsample Hs Hbd Hfail.
  rewrite (Execute_loop _ _ _ _ _ _ Hsample Hs Hbd).
  by rewrite importRules_app, Hfail.
Qed.

Lemma readsOf_app (tr tr' : list ImportEvent) :
  readsOf (tr ++ tr') = readsOf tr ++ readsOf tr'.
Proof. apply omap_app. Qed.

(** What the loop adds to the trace: loop events only; the targets read
    are those of a prefix of the surviving graph rules, all of them when
    the loop finishes; every import follows a read; a failure is an
    error return. *)
Lemma importRules_shape (c : StoreImportCmd.t) (s : StoreValue) (bdfs : BuildDataFS)
    (rules : list Rule.t) (tr : list ImportEvent) :
  exists evs k,
    (importRules c s bdfs rules tr).1 = tr ++ evs
    /\ forallb loopEvent evs = true
    /\ readsOf evs = map GraphUnitRule.Target (take k (graphSurvivors c rules))
    /\ (length (importsOf evs) <= k)%nat
    /\ (k <= length (graphSurvivors c rules))%nat
    /\ (forall e, (importRules c s bdfs rules tr).2 = inl e ->
          exists err, e = Returned (Some err))
    /\ (forall u, (importRules c s bdfs rules tr).2 = inr u ->
          k = length (graphSurvivors c rules)).
Proof.
  revert tr. induction rules as [|rule rest IH]; intros tr.
  - exists [], 0%nat. simpl. rewrite app_nil_r. repeat split; try done.
  - rewrite importRules_cons, importRule_eq, graphSurvivors_cons.
    destruct (skipRule c rule); [apply IH|].
    destruct (Rule.Graph rule) as [g|]; [|apply IH].
    destruct (readJSONFileFS bdfs (GraphUnitRule.Target g)) as [err|data] eqn:Hread.
    { exists [ReadFile (GraphUnitRule.Target g)], 1%nat. simpl.
      repeat split; try done; try lia.
      intros e [= <-]. eauto. }
    cbn zeta.
    set (log := if StoreImportCmd.DryRun c || GlobalOpt_Verbose
                then [graphLog data g] else []).
    assert (forallb loopEvent log = true /\ readsOf log = [] /\ importsOf log = [])
      as (Hlog1 & Hlog2 & Hlog3).
    { unfold log. by destruct (StoreImportCmd.DryRun c || GlobalOpt_Verbose). }
    destruct (StoreImportCmd.DryRun c).
    { destruct (IH ((tr ++ [ReadFile (GraphUnitRule.Target g)]) ++ log))
        as (evs & k & Htr & Hev & Hreads & Himps & Hk & Hfail & Hok).
      exists (ReadFile (GraphUnitRule.Target g) :: log ++ evs), (S k).
      rewrite Htr. cbn [length take map].
      split; [by rewrite <- !app_assoc|].
      split; [cbn [forallb loopEvent andb]; by rewrite forallb_app, Hlog1, Hev|].
      split; [change (ReadFile (GraphUnitRule.Target g) :: log ++ evs)
                with ([ReadFile (GraphUnitRule.Target g)] ++ log ++ evs);
              rewrite !readsOf_app, Hlog2, Hreads; done|].
      split; [change (ReadFile (GraphUnitRule.Target g) :: log ++ evs)
                with ([ReadFile (GraphUnitRule.Target g)] ++ log ++ evs);
              rewrite !importsOf_app, Hlog3; simpl; lia|].
      split; [lia|]. split; [done|]. intros u Hu. by rewrite (Hok u Hu). }
    destruct (importerCall _ _ _ _ _) as [err|call].
    { exists (ReadFile (GraphUnitRule.Target g) :: log), 1%nat.
      cbn [fst snd length take map].
      split; [by rewrite <- !app_assoc|].
      split; [done|].
      split; [change (ReadFile (GraphUnitRule.Target g) :: log)
                with ([ReadFile (GraphUnitRule.Target g)] ++ log);
              rewrite readsOf_app, Hlog2; done|].
      split; [change (ReadFile (GraphUnitRule.Target g) :: log)
                with ([ReadFile (GraphUnitRule.Target g)] ++ log);
              rewrite importsOf_app, Hlog3; simpl; lia|].
      split; [lia|]. split; [|done]. intros e [= <-]. eauto. }
    set (tr1 := (tr ++ [ReadFile (GraphUnitRule.Target g)]) ++ log).
    destruct (imp_Import s (importsOf tr1) call) as [err|].
    { exists (ReadFile (GraphUnitRule.Target g) :: log ++ [Imported call]), 1%nat.
      cbn [fst snd length take map]. unfold tr1.
      split; [by rewrite <- !app_assoc|].
      split; [cbn [forallb loopEvent andb]; rewrite forallb_app, Hlog1; simpl; done|].
      split; [change (ReadFile (GraphUnitRule.Target g) :: log ++ [Imported call])
                with ([ReadFile (GraphUnitRule.Target g)] ++ log ++ [Imported call]);
              rewrite !readsOf_app, Hlog2; done|].
      split; [change (ReadFile (GraphUnitRule.Target g) :: log ++ [Imported call])
                with ([ReadFile (GraphUnitRule.Target g)] ++ log ++ [Imported call]);
              rewrite !importsOf_app, Hlog3; simpl; lia|].
      split; [lia|]. split; [|done]. intros e [= <-]. eauto. }
    destruct (IH (tr1 ++ [Imported call]))
      as (evs & k & Htr & Hev & Hreads & Himps & Hk & Hfail & Hok).
    exists (ReadFile (GraphUnitRule.Target g) :: log ++ Imported call :: evs), (S k).
    rewrite Htr. cbn [length take map]. unfold tr1.
    split; [by rewrite <- !app_assoc|].
    split; [cbn [forallb loopEvent andb]; rewrite forallb_app, Hlog1; simpl; done|].
    split; [change (ReadFile (GraphUnitRule.Target g) :: log ++ Imported call :: evs)
              with ([ReadFile (GraphUnitRule.Target g)] ++ log ++ [Imported call] ++ evs);
            rewrite !readsOf_app, Hlog2, Hreads; done|].
    split; [change (ReadFile (GraphUnitRule.Target g) :: log ++ Imported call :: evs)
              with ([ReadFile (GraphUnitRule.Target g)] ++ log ++ [Imported call] ++ evs);
            rewrite !importsOf_app, Hlog3; simpl; lia|].
    split; [lia|]. split; [done|]. intros u Hu. by rewrite (Hok u Hu).
Qed.

Lemma loop_events_not_completed (evs : list ImportEvent) :
  forallb loopEvent evs = true -> Logged LogImportCompleted ∉ evs.
Proof.
  intros Hall Hin. apply list_elem_of_In in Hin.
  by apply (proj1 (forallb_forall _ _) Hall) in Hin.
Qed.

Lemma prelude_not_completed (c : StoreImportCmd.t) (label : string) :
  Logged LogImportCompleted ∉ prelude c label.
Proof.
  unfold prelude. destruct GlobalOpt_Verbose.
  - by intros [=]%list_elem_of_singleton.
  - by intros ?%elem_of_nil.
Qed.

Lemma prelude_no_reads (c : StoreImportCmd.t) (label : string) :
  readsOf (prelude c label) = [].
Proof. unfold prelude. by destruct GlobalOpt_Verbose. Qed.

(** X16.  Outside sample mode, "Import completed" is logged exactly when
    the command succeeds, and it is then the last thing the command does. *)
Theorem completion_logged_iff_success (storeCmd : StoreCmd.t) (c : StoreImportCmd.t) :
  StoreImportCmd.Sample c = false ->
  (Logged LogImportCompleted ∈ trace (StoreImportCmd_Execute storeCmd c)
   <-> result (StoreImportCmd_Execute storeCmd c) = Returned None)
  /\ (result (StoreImportCmd_Execute storeCmd c) = Returned None ->
      list.last (trace (StoreImportCmd_Execute storeCmd c)) = Some (Logged LogImportCompleted)).
Proof.
  intros Hsample.
  destruct (Execute_cases storeCmd c Hsample)
    as [(err & Hres & Htr) | (s & bdfs & label & rules & Hs & Hbd)].
  - rewrite Hres. split; [split|]; try done.
    intros Hin. destruct Htr as [Htr | [label Htr]]; rewrite Htr in Hin.
    + by apply elem_of_nil in Hin.
    + by apply prelude_not_completed in Hin.
  - rewrite (Execute_loop _ _ _ _ _ _ Hsample Hs Hbd).
    destruct (importRules_shape c s bdfs rules (prelude c label))
      as (evs & k & Htr & Hev & _ & _ & _ & Hfail & _).
    destruct (importRules c s bdfs rules (prelude c label)) as [tr [e|u]];
      simpl in Htr, Hfail |- *.
    + destruct (Hfail e eq_refl) as [err ->]. split; [split|]; try done.
      rewrite Htr. intros [Hin|Hin]%elem_of_app.
      * by apply prelude_not_completed in Hin.
      * by apply loop_events_not_completed in Hin.
    + split; [split; [done|]|].
      * intros _. apply elem_of_app. right. by apply list_elem_of_singleton.
      * intros _. apply last_snoc.
Qed.

(** X17.  Every importer call of a non-sample run is made with the
    command's --commit; the repository importer is used whenever the store
    is one, and only otherwise the multi-repository importer, which is
    also given --repo.  A dry run makes no call. *)
Theorem import_calls_shape (storeCmd : StoreCmd.t) (c : StoreImportCmd.t)
    (call : ImportCall) :
  StoreImportCmd.Sample c = false ->
  call ∈ importsOf (trace (StoreImportCmd_Execute storeCmd c)) ->
  exists s u data,
    StoreCmd_store storeCmd = inr s
    /\ StoreImportCmd.DryRun c = false
    /\ ((implements RepoImporter s = true
         /\ call = RepoImport (StoreImportCmd.CommitID c) u data)
        \/ (implements RepoImporter s = false
            /\ implements MultiRepoImporter s = true
            /\ call = MultiRepoImport (StoreImportCmd.Repo c)
                                      (StoreImportCmd.CommitID c) u data)).
Proof.
  intros Hsample Hin.
  destruct (imports_come_from_survivors _ _ _ Hsample Hin)
    as (s & bdfs & label & rules & g & Hs & _ & Hdry & _ & Hcall).
  unfold callFor, importerCall in Hcall.
  destruct (readJSONFileFS bdfs (GraphUnitRule.Target g)) as [err|data]; [done|].
  exists s, (GraphUnitRule.Unit g), (transferDocs data).
  split; [done|]. split; [done|].
  destruct (implements RepoImporter s).
  - left. by injection Hcall as <-.
  - right. destruct (implements MultiRepoImporter s); [|done].
    by injection Hcall as <-.
Qed.

(** X18.  The graph files a non-sample run reads are the targets of a
    prefix of the surviving graph rules, in makefile order, and of all of
    them when the run succeeds; no import is made without a read before
    it, so there are never more imports than reads. *)
Theorem import_reads_follow_survivors (storeCmd : StoreCmd.t) (c : StoreImportCmd.t)
    (s : StoreValue) (bdfs : BuildDataFS) (label : string) (rules : list Rule.t) :
  StoreImportCmd.Sample c = false ->
  StoreCmd_store storeCmd = inr s ->
  buildData c bdfs label rules ->
  exists k,
    (k <= length (graphSurvivors c rules))%nat
    /\ readsOf (trace (StoreImportCmd_Execute storeCmd c))
       = map GraphUnitRule.Target (take k (graphSurvivors c rules))
    /\ (length (importsOf (trace (StoreImportCmd_Execute storeCmd c))) <= k)%nat
    /\ (result (StoreImportCmd_Execute storeCmd c) = Returned None ->
          readsOf (trace (StoreImportCmd_Execute storeCmd c))
          = map GraphUnitRule.Target (graphSurvivors c rules)).
Proof.
  intros Hsample Hs Hbd.
  rewrite (Execute_loop _ _ _ _ _ _ Hsample Hs Hbd).
  destruct (importRules_shape c s bdfs rules (prelude c label))
    as (evs & k & Htr & _ & Hreads & Himps & Hk & Hfail & Hok).
  exists k. split; [done|].
  destruct (importRules c s bdfs rules (prelude c label)) as [tr [e|u]];
    simpl in Htr, Hfail, Hok |- *; subst tr.
  - rewrite readsOf_app, importsOf_app, prelude_no_reads, prelude_no_imports.
    simpl. split; [done|]. split; [done|].
    intros ->. by destruct (Hfail _ eq_refl).
  - rewrite !readsOf_app, !importsOf_app, prelude_no_reads, prelude_no_imports.
    simpl. rewrite !app_nil_r. split; [done|]. split; [done|].
    intros _. rewrite Hreads, (Hok u eq_refl). by rewrite firstn_all.
Qed.
End ImportMore.

Lemma import_stops_at_first_failure_witness :
  StoreImportCmd_Execute (H := Imports.ext) (H0 := MoreImports.worldFirstMissing)
    Demo.repoStoreCmd (Demo.importCmd false "" "")
  = mkImportRun [ReadFile "a.graph.json"]
      (Returned (Some "open a.graph.json: file does not exist")).
Proof.
  apply (import_stops_at_first_failure (H := Imports.ext)
           (H0 := MoreImports.worldFirstMissing)
           Demo.repoStoreCmd (Demo.importCmd false "" "")
           (FSRepoStore (OS "./store") true) [("b.graph.json", Demo.outputB)] "local"
           [Demo.ruleA] [Demo.ruleB]).
  - reflexivity.
  - reflexivity.
  - exists "git", tt. repeat split.
  - reflexivity.
Defined.

Lemma completion_logged_iff_success_witness :
  (Logged LogImportCompleted
     ∈ trace (StoreImportCmd_Execute (H := Imports.ext) (H0 := Imports.world)
                Demo.repoStoreCmd (Demo.importCmd false "a" "GoPackage"))
   <-> result (StoreImportCmd_Execute (H := Imports.ext) (H0 := Imports.world)
                 Demo.repoStoreCmd (Demo.importCmd false "a" "GoPackage"))
       = Returned None)
  /\ (result (StoreImportCmd_Execute (H := Imports.ext) (H0 := Imports.world)
                 Demo.repoStoreCmd (Demo.importCmd false "a" "GoPackage"))
      = Returned None ->
      list.last (trace (StoreImportCmd_Execute (H := Imports.ext) (H0 := Imports.world)
                     Demo.repoStoreCmd (Demo.importCmd false "a" "GoPackage")))
      = Some (Logged LogImportCompleted)).
Proof.
  apply (completion_logged_iff_success (H := Imports.ext) (H0 := Imports.world)
           Demo.repoStoreCmd (Demo.importCmd false "a" "GoPackage")).
  reflexivity.
Defined.

Lemma import_calls_shape_witness :
  exists s u data,
    StoreCmd_store (H := Imports.ext) Demo.repoStoreCmd = inr s
    /\ StoreImportCmd.DryRun (Demo.importCmd false "a" "GoPackage") = false
    /\ ((implements (External := Imports.ext) RepoImporter s = true
         /\ RepoImport "c0ffee" Demo.srcA (transferDocs Demo.outputA)
            = RepoImport "c0ffee" u data)
        \/ (implements (External := Imports.ext) RepoImporter s = false
            /\ implements (External := Imports.ext) MultiRepoImporter s = true
            /\ RepoImport "c0ffee" Demo.srcA (transferDocs Demo.outputA)
               = MultiRepoImport "example.com/repo" "c0ffee" u data)).
Proof.
  apply (import_calls_shape (H := Imports.ext) (H0 := Imports.world)
           Demo.repoStoreCmd (Demo.importCmd false "a" "GoPackage")
           (RepoImport "c0ffee" Demo.srcA (transferDocs Demo.outputA))).
  - reflexivity.
  - rewrite demo_import_trace. by apply list_elem_of_singleton.
Defined.

Lemma import_reads_follow_survivors_witness :
  exists k,
    (k <= length (graphSurvivors (Demo.importCmd false "" "")
                    [Demo.ruleA; Demo.ruleB; Demo.rulePlain; Demo.ruleDeps]))%nat
    /\ readsOf (trace (StoreImportCmd_Execute (H := Imports.ext) (H0 := Imports.world)
                         Demo.repoStoreCmd (Demo.importCmd false "" "")))
       = map GraphUnitRule.Target
           (take k (graphSurvivors (Demo.importCmd false "" "")
                      [Demo.ruleA; Demo.ruleB; Demo.rulePlain; Demo.ruleDeps]))
    /\ (length (importsOf (trace (StoreImportCmd_Execute (H := Imports.ext)
                                    (H0 := Imports.world)
                                    Demo.repoStoreCmd (Demo.importCmd false "" ""))))
        <= k)%nat
    /\ (result (StoreImportCmd_Execute (H := Imports.ext) (H0 := Imports.world)
                  Demo.repoStoreCmd (Demo.importCmd false "" ""))
        = Returned None ->
        readsOf (trace (StoreImportCmd_Execute (H := Imports.ext) (H0 := Imports.world)
                          Demo.repoStoreCmd (Demo.importCmd false "" "")))
        = map GraphUnitRule.Target
            (graphSurvivors (Demo.importCmd false "" "")
               [Demo.ruleA; Demo.ruleB; Demo.rulePlain; Demo.ruleDeps])).
Proof.
  apply (import_reads_follow_survivors (H := Imports.ext) (H0 := Imports.world)
           Demo.repoStoreCmd (Demo.importCmd false "" "")
           (FSRepoStore (OS "./store") true) Demo.files "local"
           [Demo.ruleA; Demo.ruleB; Demo.rulePlain; Demo.ruleDeps]).
  - reflexivity.
  - reflexivity.
  - exists "git", tt. repeat split.
Defined.

(** ** countingWriter *)

(** X19.  After any sequence of writes the counter holds its initial value
    plus the sum of the byte counts the wrapped writer returned, modulo
    2^64, whether or not those writes failed; the wrapped writer itself is
    driven exactly as if it were written to directly. *)
Theorem countingWriter_counts (w : Writer.t) (cr : countingWriter.t w)
    (ps : list (list Byte.byte)) :
  0 <= countingWriter.n cr < 2 ^ 64 ->
  countingWriter.n (writeAll cr ps).1
  = (countingWriter.n cr + foldr Z.add 0 (writeAll cr ps).2) mod 2 ^ 64
  /\ 0 <= countingWriter.n (writeAll cr ps).1 < 2 ^ 64
  /\ countingWriter.inner (writeAll cr ps).1 = writeInner w (countingWriter.inner cr) ps
  /\ length (writeAll cr ps).2 = length ps.
Proof.
  revert cr. induction ps as [|p ps IH]; intros cr Hn.
  - simpl. rewrite Z.add_0_r, Z.mod_small by done. done.
  - cbn [writeAll fst snd foldr length]. unfold writeInner. cbn [fold_left].
    set (r := countingWriter_Write cr p).
    assert (0 <= countingWriter.n r.1 < 2 ^ 64) as Hr
      by (unfold r, countingWriter_Write; simpl; apply Z.mod_pos_bound; lia).
    destruct (IH r.1 Hr) as (Hsum & Hrange & Hinner & Hlen).
    rewrite Hsum, Hlen. split; [|split; [|split]]; try done.
    + unfold r, countingWriter_Write. cbn [fst snd countingWriter.n].
      rewrite Zplus_mod_idemp_l. rewrite Zplus_mod_idemp_r, Z.add_assoc.
      rewrite <- (Zplus_mod_idemp_l (_ + _ mod _)), Zplus_mod_idemp_r.
      by rewrite Zplus_mod_idemp_l.
    + apply Z.mod_pos_bound. lia.
Qed.

Lemma countingWriter_counts_witness :
  countingWriter.n (writeAll BufferWriter.fresh BufferWriter.chunks).1
  = (0 + foldr Z.add 0 (writeAll BufferWriter.fresh BufferWriter.chunks).2) mod 2 ^ 64
  /\ 0 <= countingWriter.n (writeAll BufferWriter.fresh BufferWriter.chunks).1 < 2 ^ 64
  /\ countingWriter.inner (writeAll BufferWriter.fresh BufferWriter.chunks).1
     = writeInner BufferWriter.w [] BufferWriter.chunks
  /\ length (writeAll BufferWriter.fresh BufferWriter.chunks).2 = 2%nat.
Proof.
  apply (countingWriter_counts BufferWriter.w BufferWriter.fresh BufferWriter.chunks).
  simpl. lia.
Defined.

(** ** Sample data *)

Lemma itoa_inj (n m : nat) : itoa n = itoa m -> n = m.
Proof.
  unfold itoa. intros Heq.
  assert (forall k, Nat.to_uint k <> Decimal.Nil) as Hnil.
  { intros k. rewrite <- (Unsigned.of_to k) at 1. rewrite Unsigned.to_of.
    apply unorm_nonnil. }
  apply Unsigned.to_uint_inj.
  apply (f_equal NilZero.uint_of_string) in Heq.
  rewrite !NilZero.usu in Heq by apply Hnil. congruence.
Qed.

Lemma append_inj_r (p s s' : string) : p +:+ s = p +:+ s' -> s = s'.
Proof. induction p as [|a p IH]; simpl; [done|]. intros [=]. by apply IH. Qed.

Lemma NoDup_map_seq {A} (f : nat -> A) (start len : nat) :
  (forall i j, f i = f j -> i = j) -> NoDup (map f (seq start len)).
Proof.
  intros Hinj. change (NoDup (f <$> seq start len)).
  apply NoDup_fmap_2; [intros i j; apply Hinj|].
  apply NoDup_ListNoDup, List.seq_NoDup.
Qed.

(** X20.  The sample data has exactly the requested numbers of defs and
    refs, no docs and no annotations, and no two defs (or refs) share a
    path. *)
Theorem sample_data_shape (numDefs numRefs : nat) :
  length (Output.Defs (makeGraphData numDefs numRefs)) = numDefs
  /\ length (Output.Refs (makeGraphData numDefs numRefs)) = numRefs
  /\ Output.Docs (makeGraphData numDefs numRefs) = []
  /\ Output.Anns (makeGraphData numDefs numRefs) = []
  /\ NoDup (map Def.Path (Output.Defs (makeGraphData numDefs numRefs)))
  /\ NoDup (map Ref.DefPath (Output.Refs (makeGraphData numDefs numRefs)))
  /\ transferDocs (makeGraphData numDefs numRefs) = makeGraphData numDefs numRefs.
Proof.
  unfold makeGraphData. cbn [Output.Defs Output.Refs Output.Docs Output.Anns].
  rewrite !length_map, !length_seq, !map_map.
  repeat split.
  - apply NoDup_map_seq. intros i j Heq. cbn [sampleDef Def.Path] in Heq.
    by apply append_inj_r, itoa_inj in Heq.
  - apply NoDup_map_seq. intros i j Heq. cbn [sampleRef Ref.DefPath] in Heq.
    by apply append_inj_r, itoa_inj in Heq.
  - unfold transferDocs. cbn [Output.Defs Output.Refs Output.Docs Output.Anns].
    f_equal. rewrite <- (map_id (map sampleDef _)) at 2. apply map_ext.
    intros d. unfold attachDoc. simpl. done.
Qed.

(** X21.  Every sample def has a well-formed byte range of fewer than 20
    bytes; a sample ref's range is inverted (its end lies before its
    start) whenever its index is at least 9 modulo 51.  All offsets fit
    32 bits. *)
Theorem sample_ranges (numDefs numRefs : nat) :
  (forall d, d ∈ Output.Defs (makeGraphData numDefs numRefs) ->
     (Def.DefStart d <= Def.DefEnd d)%N
     /\ (Def.DefEnd d - Def.DefStart d < 20)%N
     /\ (Def.DefEnd d < 2 ^ 32)%N)
  /\ (forall i r, Output.Refs (makeGraphData numDefs numRefs) !! i = Some r ->
        (Ref.Start r < 2 ^ 32)%N /\ (Ref.End_ r < 2 ^ 32)%N
        /\ ((9 <= i mod 51)%nat -> (Ref.End_ r < Ref.Start r)%N)).
Proof.
  unfold makeGraphData. cbn [Output.Defs Output.Refs]. split.
  - intros d (i & -> & _)%list_elem_of_fmap. cbn [sampleDef Def.DefStart Def.DefEnd].
    pose proof (Nat.mod_upper_bound i 53). pose proof (Nat.mod_upper_bound i 20).
    change (2 ^ 32)%N with 4294967296%N.
    generalize dependent (i mod 53)%nat. generalize dependent (i mod 20)%nat.
    intros a Ha b Hb. lia.
  - intros i r Hlook.
    change (map sampleRef (seq 0 numRefs)) with (sampleRef <$> seq 0 numRefs) in Hlook.
    rewrite list_lookup_fmap in Hlook.
    destruct (seq 0 numRefs !! i) as [j|] eqn:Hseq; [|done].
    apply lookup_seq in Hseq as [-> _]. simpl in Hlook. injection Hlook as <-.
    cbn [sampleRef Ref.Start Ref.End_].
    pose proof (Nat.mod_upper_bound i 51). pose proof (Nat.mod_upper_bound i 18).
    change (2 ^ 32)%N with 4294967296%N.
    generalize dependent (i mod 51)%nat. generalize dependent (i mod 18)%nat.
    intros a Ha b Hb. lia.
Qed.

Section SampleRuns.
Context `{External} `{ImportWorld}.

Lemma sample_result_aux (c : StoreImportCmd.t) (s : StoreValue) (size : Z)
    (tr : list ImportEvent) :
  Codec_Encode (makeGraphData (StoreImportCmd.SampleDefs c) (StoreImportCmd.SampleRefs c))
  = inr size ->
  implements RepoImporter s = true \/ implements MultiRepoImporter s = true ->
  (forall hist call, imp_Import s hist call = None) ->
  (forall args, exec_Run args = None) ->
  (StoreImportCmd_sample c s tr).2
  = (if (StoreImportCmd.SampleDefs c + StoreImportCmd.SampleRefs c =? 0)%nat
     then inl Panicked
     else if StoreImportCmd.SampleImportOnly c then inr tt
     else if (3 <=? StoreImportCmd.SampleDefs c)%nat
             && (3 <=? StoreImportCmd.SampleRefs c)%nat
     then inr tt else inl Panicked)
  /\ length (importsOf (StoreImportCmd_sample c s tr).1) = S (length (importsOf tr)).
Proof.
  intros Henc Himp Hok Hexec. unfold StoreImportCmd_sample.
  assert (length (Output.Defs (makeGraphData (StoreImportCmd.SampleDefs c)
                                             (StoreImportCmd.SampleRefs c)))
          = StoreImportCmd.SampleDefs c) as Hnd
    by (unfold makeGraphData; simpl; by rewrite length_map, length_seq).
  assert (length (Output.Refs (makeGraphData (StoreImportCmd.SampleDefs c)
                                             (StoreImportCmd.SampleRefs c)))
          = StoreImportCmd.SampleRefs c) as Hnr
    by (unfold makeGraphData; simpl; by rewrite length_map, length_seq).
  remember (makeGraphData (StoreImportCmd.SampleDefs c) (StoreImportCmd.SampleRefs c))
    as data eqn:Hdata.
  pose proof (Nat.div_mod_eq (StoreImportCmd.SampleDefs c) 2) as Hd2.
  pose proof (Nat.mod_upper_bound (StoreImportCmd.SampleDefs c) 2 ltac:(lia)) as Hd2'.
  pose proof (Nat.div_mod_eq (StoreImportCmd.SampleDefs c) 3) as Hd3.
  pose proof (Nat.mod_upper_bound (StoreImportCmd.SampleDefs c) 3 ltac:(lia)) as Hd3'.
  pose proof (Nat.div_mod_eq (StoreImportCmd.SampleRefs c) 2) as Hr2.
  pose proof (Nat.mod_upper_bound (StoreImportCmd.SampleRefs c) 2 ltac:(lia)) as Hr2'.
  repeat (progress (unfold doImport, runCmd, index, mbind, M_bind, emit, try,
                      getTrace, check, leave, mret, M_ret; cbn -[Nat.div Nat.eqb Nat.leb])).
  rewrite Henc.
  repeat (progress (unfold doImport, runCmd, index, mbind, M_bind, emit, try,
                      getTrace, check, leave, mret, M_ret; cbn -[Nat.div Nat.eqb Nat.leb])).
  rewrite !Hnd, !Hnr.
  assert (forall A (l : list A) i,
            (exists x, l !! i = Some x /\ (i < length l)%nat)
            \/ (l !! i = None /\ (length l <= i)%nat)) as Hlook.
  { intros A l i. destruct (l !! i) as [x|] eqn:Hl.
    - left. exists x. split; [done|]. by apply lookup_lt_Some in Hl.
    - right. split; [done|]. by apply lookup_ge_None in Hl. }
  destruct (Hlook _ (Output.Defs data) (StoreImportCmd.SampleDefs c / 2 + 1)%nat)
    as [(d2 & Hl1 & Hb1) | [Hl1 Hb1]];
  destruct (Hlook _ (Output.Refs data) (StoreImportCmd.SampleRefs c / 2 + 1)%nat)
    as [(r2 & Hl2 & Hb2) | [Hl2 Hb2]];
  destruct (Hlook _ (Output.Defs data) (StoreImportCmd.SampleDefs c / 3 + 1)%nat)
    as [(d3 & Hl3 & Hb3) | [Hl3 Hb3]];
  rewrite Hnd in Hb1, Hb3; rewrite Hnr in Hb2;
  (destruct (implements RepoImporter s);
   [|destruct (implements MultiRepoImporter s); [|by destruct Himp]]);
  cbn -[Nat.div Nat.eqb Nat.leb]; rewrite !Hok; cbn -[Nat.div Nat.eqb Nat.leb];
  destruct (Nat.eqb_spec (StoreImportCmd.SampleDefs c + StoreImportCmd.SampleRefs c) 0);
  cbn -[Nat.div Nat.eqb Nat.leb];
  destruct (StoreImportCmd.SampleImportOnly c);
  cbn -[Nat.div Nat.eqb Nat.leb];
  rewrite ?Hexec; cbn -[Nat.div Nat.eqb Nat.leb];
  rewrite ?Hl1, ?Hl2, ?Hl3; cbn -[Nat.div Nat.eqb Nat.leb];
  rewrite ?Hexec; cbn -[Nat.div Nat.eqb Nat.leb];
  rewrite ?Hl1, ?Hl2, ?Hl3; cbn -[Nat.div Nat.eqb Nat.leb];
  rewrite ?Hexec; cbn -[Nat.div Nat.eqb Nat.leb];
  rewrite ?Hl1, ?Hl2, ?Hl3; cbn -[Nat.div Nat.eqb Nat.leb];
  rewrite ?Hexec; cbn -[Nat.div Nat.eqb Nat.leb];
  (split;
   [destruct (Nat.leb_spec 3 (StoreImportCmd.SampleDefs c)),
             (Nat.leb_spec 3 (StoreImportCmd.SampleRefs c)); cbn -[Nat.div]; first [done | lia]
   |rewrite ?importsOf_app; cbn; rewrite ?app_nil_r, ?length_app; simpl; lia]).
Qed.

(** X22.  A sample run whose encoder, importer and listing commands all
    succeed imports the sample data exactly once and then: panics on the
    division by the number of defs and refs when both are zero; succeeds
    with --sample-import-only; and otherwise succeeds only when there are
    at least three defs and three refs, panicking on an index out of
    range if not. *)
Theorem sample_run_result (storeCmd : StoreCmd.t) (c : StoreImportCmd.t)
    (s : StoreValue) (size : Z) :
  StoreImportCmd.Sample c = true ->
  StoreCmd_store storeCmd = inr s ->
  Codec_Encode (makeGraphData (StoreImportCmd.SampleDefs c) (StoreImportCmd.SampleRefs c))
  = inr size ->
  implements RepoImporter s = true \/ implements MultiRepoImporter s = true ->
  (forall hist call, imp_Import s hist call = None) ->
  (forall args, exec_Run args = None) ->
  result (StoreImportCmd_Execute storeCmd c)
  = (if (StoreImportCmd.SampleDefs c + StoreImportCmd.SampleRefs c =? 0)%nat
     then Panicked
     else if StoreImportCmd.SampleImportOnly c then Returned None
     else if (3 <=? StoreImportCmd.SampleDefs c)%nat
             && (3 <=? StoreImportCmd.SampleRefs c)%nat
     then Returned None else Panicked)
  /\ length (importsOf (trace (StoreImportCmd_Execute storeCmd c))) = 1%nat.
Proof.
  intros Hsample Hs Henc Himp Hok Hexec.
  destruct (sample_result_aux c s size [] Henc Himp Hok Hexec) as [Hres Hlen].
  unfold StoreImportCmd_Execute, runM, mbind, M_bind, try, mret, M_ret.
  rewrite Hs, Hsample.
  destruct (StoreImportCmd_sample c s []) as [tr' r]. cbn [fst snd] in Hres, Hlen.
  subst r. split.
  - destruct (_ =? _)%nat; [done|].
    destruct (StoreImportCmd.SampleImportOnly c); [done|].
    by destruct (_ && _).
  - destruct (_ =? _)%nat; [done|].
    destruct (StoreImportCmd.SampleImportOnly c); [done|].
    by destruct (_ && _).
Qed.

(** X23.  In sample mode the command looks at nothing but --sample-defs,
    --sample-refs and --sample-import-only: two commands that agree on
    these run identically, whatever their other flags (--dry-run, --repo,
    --unit, --commit, ...) say. *)
Theorem sample_depends_on_sample_flags (storeCmd : StoreCmd.t)
    (c c' : StoreImportCmd.t) :
  StoreImportCmd.Sample c = true ->
  StoreImportCmd.Sample c' = true ->
  StoreImportCmd.SampleDefs c = StoreImportCmd.SampleDefs c' ->
  StoreImportCmd.SampleRefs c = StoreImportCmd.SampleRefs c' ->
  StoreImportCmd.SampleImportOnly c = StoreImportCmd.SampleImportOnly c' ->
  StoreImportCmd_Execute storeCmd c = StoreImportCmd_Execute storeCmd c'.
Proof.
  intros Hs Hs' Hd Hr Ho.
  unfold StoreImportCmd_Execute. rewrite Hs, Hs'.
  unfold StoreImportCmd_sample. by rewrite Hd, Hr, Ho.
Qed.
End SampleRuns.

Lemma sample_run_result_witness :
  result (StoreImportCmd_Execute (H := Imports.ext) (H0 := Imports.world)
            Demo.repoStoreCmd MoreImports.sampleTwo) = Panicked
  /\ length (importsOf (trace (StoreImportCmd_Execute (H := Imports.ext)
                                 (H0 := Imports.world)
                                 Demo.repoStoreCmd MoreImports.sampleTwo))) = 1%nat.
Proof.
  exact (sample_run_result (H := Imports.ext) (H0 := Imports.world)
           Demo.repoStoreCmd MoreImports.sampleTwo (FSRepoStore (OS "./store") true) 0
           eq_refl eq_refl eq_refl (or_introl eq_refl)
           (fun _ _ => eq_refl) (fun _ => eq_refl)).
Defined.

Lemma sample_depends_on_sample_flags_witness :
  StoreImportCmd_Execute (H := Imports.ext) (H0 := Imports.world)
    Demo.repoStoreCmd (Demo.sampleCmd true)
  = StoreImportCmd_Execute (H := Imports.ext) (H0 := Imports.world)
      Demo.repoStoreCmd (Demo.sampleCmd false).
Proof.
  apply (sample_depends_on_sample_flags (H := Imports.ext) (H0 := Imports.world)
           Demo.repoStoreCmd (Demo.sampleCmd true) (Demo.sampleCmd false));
    reflexivity.
Defined.
